(** * The poker hand engine: request handlers over the durable store

    A shallow embedding of [apps/engine/src/index.ts] (the [start-hand] and
    [actions] request handlers and their fetch helpers), of the SQL function
    [get_indian_poker_visible_cards] and of the row-level policy of
    [game_state_secrets].  The engine's pure functions ([dealHand],
    [applyAction], [determineDoubleBoardWinners], [endOfHandPayout]) live in
    [logic.js], which is not among the sources: the handlers take them as
    parameters, and module [Logic] models them from the specification.

    Chips, seats and hand numbers are integers ([Z]); identifiers, seeds and
    cards are strings; a JavaScript [null]/[undefined] is [None].
    Timestamps ([last_activity_at], [processed_at]) are left out. *)

From Stdlib Require Import ZArith List String Ascii Bool Lia.
Import ListNotations.
Local Open Scope string_scope.
Local Open Scope list_scope.
Local Open Scope Z_scope.

Infix "=s?" := String.eqb (at level 70, no associativity).

(** ** Data model *)

Definition Card := string.

(** [ACTIONS] of index.ts, the closed set of action kinds. *)
Inductive ActionType := AFold | ACheck | ACall | ABet | ARaise | AAllIn.

Inductive Street := Preflop | Flop | Turn | River | Showdown.

(** One entry of the append-only action log of a hand.  [forced] marks a
    blind or an ante posted by the deal; [reopens] marks a wager that is a
    full bet or raise (it reopens the betting). *)
Record HistoryEntry := mkEntry {
  h_street : Street;
  h_seat : Z;
  h_action : ActionType;
  h_amount : Z;
  h_forced : bool;
  h_reopens : bool }.

Record BoardState := mkBoards {
  board1 : option (list Card);
  board2 : option (list Card) }.

Module Room.
Record t := mk {
  id : string;
  small_blind : Z;
  big_blind : Z;
  bomb_pot_ante : Z;
  is_active : bool;
  is_paused : bool;
  button_seat : option Z;
  current_hand_number : Z;
  game_mode : option string }.
End Room.

Module RoomPlayer.
Record t := mk {
  id : string;
  room_id : string;
  seat_number : Z;
  auth_user_id : option string;
  display_name : string;
  total_buy_in : Z;
  chip_stack : Z;
  current_bet : Z;
  has_folded : bool;
  is_all_in : bool;
  is_spectating : bool }.
End RoomPlayer.

(** [Partial<RoomPlayer>]: every column may be missing. *)
Module PartialPlayer.
Record t := mk {
  id : option string;
  room_id : option string;
  seat_number : option Z;
  auth_user_id : option (option string);
  display_name : option string;
  total_buy_in : option Z;
  chip_stack : option Z;
  current_bet : option Z;
  has_folded : option bool;
  is_all_in : option bool;
  is_spectating : option bool }.
End PartialPlayer.

Module GameState.
Record t := mk {
  id : string;
  room_id : string;
  hand_number : Z;
  button_seat : Z;
  phase : Street;
  pot_size : Z;
  current_bet : Z;
  min_raise : Z;
  action_history : list HistoryEntry;
  board_state : option BoardState }.
End GameState.

(** [Partial<GameStateRow>] as the action processor returns it: the columns a
    hand changes.  The identifying columns are never part of an update. *)
Module PartialGameState.
Record t := mk {
  phase : option Street;
  pot_size : option Z;
  current_bet : option Z;
  min_raise : option Z;
  action_history : option (list HistoryEntry);
  board_state : option (option BoardState) }.
End PartialGameState.

(** A row of [game_state_secrets] (migration 20251205200000). *)
Module Secret.
Record t := mk {
  game_state_id : string;
  deck_seed : string;
  full_board1 : list Card;
  full_board2 : list Card }.
End Secret.

Module PlayerHand.
Record t := mk {
  room_id : string;
  game_state_id : string;
  seat_number : Z;
  cards : list Card;
  auth_user_id : option string }.
End PlayerHand.

Module PlayerAction.
Record t := mk {
  room_id : string;
  game_state_id : string;
  seat_number : Z;
  action_type : ActionType;
  amount : option Z;
  processed : bool;
  error_message : option string;
  auth_user_id : option string }.
End PlayerAction.

Module HandResult.
Record t := mk {
  room_id : string;
  hand_number : Z;
  final_pot : Z;
  board_a : option (list Card);
  board_b : option (list Card);
  winners : list Z;
  action_history : list HistoryEntry }.
End HandResult.

(** The durable store: one list of rows per table. *)
Record DB := mkDB {
  rooms : list Room.t;
  room_players : list RoomPlayer.t;
  game_states : list GameState.t;
  game_state_secrets : list Secret.t;
  player_hands : list PlayerHand.t;
  player_actions : list PlayerAction.t;
  hand_results : list HandResult.t }.

(** ** Values exchanged with the engine's pure functions *)

(** What [dealHand] returns.  The [id] of [gameState] is not set by the deal:
    the store assigns it on insert. *)
Record Deal := mkDeal {
  d_gameState : GameState.t;
  d_playerHands : list PlayerHand.t;
  d_updatedPlayers : list PartialPlayer.t;
  d_deckSeed : string;
  d_fullBoard1 : list Card;
  d_fullBoard2 : list Card }.

(** The first argument of [applyAction]. *)
Record ActionContext := mkCtx {
  c_room : Room.t;
  c_players : list RoomPlayer.t;
  c_gameState : GameState.t;
  c_fullBoard1 : list Card;
  c_fullBoard2 : list Card }.

(** What [applyAction] returns. *)
Record Outcome := mkOutcome {
  updatedGameState : PartialGameState.t;
  updatedPlayers : list PartialPlayer.t;
  handCompleted : bool;
  autoWinners : option (list Z);
  potAwarded : option Z;
  error : option string }.

Record ActiveHand := mkActiveHand {
  seatNumber : Z;
  cards : list Card }.

Record Payout := mkPayout {
  seat : Z;
  amount : Z }.

(** ** Requests and responses *)

(** A JSON value under a key of a request body, as far as the schemas tell
    values apart: the key is absent ([undefined]), or holds [null], an
    integer, a string, or any other value (a number that is not an integer,
    a boolean, an array, an object), given by its text. *)
Inductive JSON :=
| JAbsent
| JNull
| JInt (n : Z)
| JString (s : string)
| JOther (text : string).

(** The JSON body of an action request before validation. *)
Module ActionBody.
Record t := mk {
  seatNumber : JSON;
  actionType : JSON;
  amount : JSON;
  authUserId : JSON;
  idempotencyKey : JSON }.
End ActionBody.

(** The body once [actionSchema] has accepted it. *)
Module ActionPayload.
Record t := mk {
  seatNumber : Z;
  actionType : ActionType;
  amount : option Z;
  authUserId : option string;
  idempotencyKey : option string }.
End ActionPayload.

Inductive Body :=
| BError (message : string)
| BStarted (gameState : GameState.t) (deckSeed : string)
| BOk (gameState : option GameState.t).

(** [Json status body] is [res.status(status).json(body)]; [NoResponse] is an
    exception that escapes the handler. *)
Inductive Response :=
| Json (status : Z) (body : Body)
| NoResponse (reason : string).

(** ** The store's failure modes *)

(** The storage calls of the two handlers.  A call may fail; which ones do is
    the environment's choice, given as a function to the message of the
    failure. *)
Inductive Step :=
| SelectRoom | SelectPlayers | SelectGameState | SelectSecret | SelectHands
| InsertGameState | InsertSecret | InsertHands | UpsertPlayers | UpdateRoom
| DeleteHands | DeleteSecrets | DeleteGameState
| InsertAction | UpdateGameState | UpsertCredits | InsertResult.

Definition Faults := Step -> option string.

Definition reliable : Faults := fun _ => None.

(** Calls of the engine's pure functions, recorded in the order they are
    made. *)
Inductive Call :=
| CallDeal
| CallApply (seat : Z) (action : ActionType) (amount : option Z)
| CallWinners (hands : list ActiveHand) (b1 b2 : list Card)
| CallPayout (w1 w2 : list Z) (pot : Z).

Record World := mkWorld {
  store : DB;
  calls : list Call }.

(** ** A monad for handler code

    A computation runs on the world and either yields a value, has answered
    the request ([Sent], the [return res...] of the source), or has an
    exception pending ([Thrown]). *)

(** What a handler throws: an [Error] with its message, as the engine's
    functions throw, or the [error] object of a storage call, which is not an
    [Error]. *)
Inductive Exn :=
| JsError (message : string)
| StoreError (message : string).

(** [err instanceof Error ? err.message : "Unknown error"] *)
Definition message_of (err : Exn) : string :=
  match err with
  | JsError m => m
  | StoreError _ => "Unknown error"
  end.

(** The message an exception carries, whatever it is. *)
Definition reason_of (err : Exn) : string :=
  match err with
  | JsError m | StoreError m => m
  end.

Inductive Res (A : Type) :=
| Val (a : A)
| Sent (r : Response)
| Thrown (err : Exn).
Arguments Val {A} a.
Arguments Sent {A} r.
Arguments Thrown {A} err.

Definition Handler (A : Type) := World -> Res A * World.

Definition ret {A} (a : A) : Handler A := fun w => (Val a, w).

Definition bind {A B} (m : Handler A) (k : A -> Handler B) : Handler B :=
  fun w =>
    match m w with
    | (Val a, w') => k a w'
    | (Sent r, w') => (Sent r, w')
    | (Thrown e, w') => (Thrown e, w')
    end.

Notation "x <- m ;; k" := (bind m (fun x => k))
  (at level 61, m at next level, right associativity).
Notation "m ;;; k" := (bind m (fun _ => k))
  (at level 61, right associativity).

Definition send {A} (status : Z) (b : Body) : Handler A :=
  fun w => (Sent (Json status b), w).

Definition throw {A} (err : Exn) : Handler A := fun w => (Thrown err, w).

(** [try { m } catch (err) { h err }] *)
Definition try_catch {A} (m : Handler A) (h : Exn -> Handler A) : Handler A :=
  fun w =>
    match m w with
    | (Thrown e, w') => h e w'
    | r => r
    end.

Definition query {A} (f : DB -> A) : Handler A := fun w => (Val (f (store w)), w).

Definition mutate (f : DB -> DB) : Handler unit :=
  fun w => (Val tt, mkWorld (f (store w)) (calls w)).

Definition record_call (c : Call) : Handler unit :=
  fun w => (Val tt, mkWorld (store w) (calls w ++ [c])).

(** The response of a handler run to its end. *)
Definition respond (m : Handler unit) (w : World) : Response * World :=
  match m w with
  | (Sent r, w') => (r, w')
  | (Thrown e, w') => (NoResponse (reason_of e), w')
  | (Val _, w') => (NoResponse "no response", w')
  end.

(** ** Rows and tables *)

Definition set_rooms (v : list Room.t) (d : DB) : DB :=
  mkDB v (room_players d) (game_states d) (game_state_secrets d)
       (player_hands d) (player_actions d) (hand_results d).

Definition set_room_players (v : list RoomPlayer.t) (d : DB) : DB :=
  mkDB (rooms d) v (game_states d) (game_state_secrets d)
       (player_hands d) (player_actions d) (hand_results d).

Definition set_game_states (v : list GameState.t) (d : DB) : DB :=
  mkDB (rooms d) (room_players d) v (game_state_secrets d)
       (player_hands d) (player_actions d) (hand_results d).

Definition set_game_state_secrets (v : list Secret.t) (d : DB) : DB :=
  mkDB (rooms d) (room_players d) (game_states d) v
       (player_hands d) (player_actions d) (hand_results d).

Definition set_player_hands (v : list PlayerHand.t) (d : DB) : DB :=
  mkDB (rooms d) (room_players d) (game_states d) (game_state_secrets d)
       v (player_actions d) (hand_results d).

Definition set_player_actions (v : list PlayerAction.t) (d : DB) : DB :=
  mkDB (rooms d) (room_players d) (game_states d) (game_state_secrets d)
       (player_hands d) v (hand_results d).

Definition set_hand_results (v : list HandResult.t) (d : DB) : DB :=
  mkDB (rooms d) (room_players d) (game_states d) (game_state_secrets d)
       (player_hands d) (player_actions d) v.

Definition or_else {A} (o : option A) (d : A) : A :=
  match o with Some a => a | None => d end.

(** [{ ...p, ...u }] *)
Definition merge_player (p : RoomPlayer.t) (u : PartialPlayer.t) : RoomPlayer.t :=
  RoomPlayer.mk
    (or_else (PartialPlayer.id u) (RoomPlayer.id p))
    (or_else (PartialPlayer.room_id u) (RoomPlayer.room_id p))
    (or_else (PartialPlayer.seat_number u) (RoomPlayer.seat_number p))
    (or_else (PartialPlayer.auth_user_id u) (RoomPlayer.auth_user_id p))
    (or_else (PartialPlayer.display_name u) (RoomPlayer.display_name p))
    (or_else (PartialPlayer.total_buy_in u) (RoomPlayer.total_buy_in p))
    (or_else (PartialPlayer.chip_stack u) (RoomPlayer.chip_stack p))
    (or_else (PartialPlayer.current_bet u) (RoomPlayer.current_bet p))
    (or_else (PartialPlayer.has_folded u) (RoomPlayer.has_folded p))
    (or_else (PartialPlayer.is_all_in u) (RoomPlayer.is_all_in p))
    (or_else (PartialPlayer.is_spectating u) (RoomPlayer.is_spectating p)).

(** [{ ...g, ...u }] *)
Definition merge_game_state (g : GameState.t) (u : PartialGameState.t) : GameState.t :=
  GameState.mk
    (GameState.id g) (GameState.room_id g)
    (GameState.hand_number g) (GameState.button_seat g)
    (or_else (PartialGameState.phase u) (GameState.phase g))
    (or_else (PartialGameState.pot_size u) (GameState.pot_size g))
    (or_else (PartialGameState.current_bet u) (GameState.current_bet g))
    (or_else (PartialGameState.min_raise u) (GameState.min_raise g))
    (or_else (PartialGameState.action_history u) (GameState.action_history g))
    (or_else (PartialGameState.board_state u) (GameState.board_state g)).

(** A new row of [room_players] from the columns given: the columns the
    [join] handler writes are required, the others take their defaults. *)
Definition complete (u : PartialPlayer.t) : option RoomPlayer.t :=
  match PartialPlayer.id u, PartialPlayer.room_id u, PartialPlayer.seat_number u,
        PartialPlayer.display_name u, PartialPlayer.total_buy_in u,
        PartialPlayer.chip_stack u with
  | Some i, Some r, Some s, Some n, Some b, Some c =>
      Some (RoomPlayer.mk i r s (or_else (PartialPlayer.auth_user_id u) None) n b c
              (or_else (PartialPlayer.current_bet u) 0)
              (or_else (PartialPlayer.has_folded u) false)
              (or_else (PartialPlayer.is_all_in u) false)
              (or_else (PartialPlayer.is_spectating u) false))
  | _, _, _, _, _, _ => None
  end.

Definition has_id (i : string) (p : RoomPlayer.t) : bool := RoomPlayer.id p =s? i.

(** One row of an upsert on the primary key [id]: an existing row takes the
    columns given, a new row is inserted. *)
Definition upsert_row (tbl : list RoomPlayer.t) (u : PartialPlayer.t)
  : string + list RoomPlayer.t :=
  match PartialPlayer.id u with
  | None => inl "null value in column id"
  | Some i =>
      if existsb (has_id i) tbl
      then inr (map (fun p => if has_id i p then merge_player p u else p) tbl)
      else match complete u with
           | Some p => inr (tbl ++ [p])
           | None => inl "null value violates not-null constraint"
           end
  end.

Fixpoint upsert_rows (tbl : list RoomPlayer.t) (us : list PartialPlayer.t)
  : string + list RoomPlayer.t :=
  match us with
  | [] => inr tbl
  | u :: rest =>
      match upsert_row tbl u with
      | inl e => inl e
      | inr tbl' => upsert_rows tbl' rest
      end
  end.

Fixpoint repeats (l : list (option string)) : bool :=
  match l with
  | [] => false
  | x :: r =>
      match x with
      | Some i => existsb (fun y => match y with Some j => i =s? j | None => false end) r
      | None => false
      end || repeats r
  end.

(** [from("room_players").upsert(rows)]: one statement; PostgreSQL refuses
    it (error 21000) when two of its rows name the same id, as the comment
    on the deduplication in the [actions] handler records. *)
Definition upsert_players (us : list PartialPlayer.t) (d : DB) : string + DB :=
  if repeats (map PartialPlayer.id us)
  then inl "ON CONFLICT DO UPDATE command cannot affect row a second time"
  else match upsert_rows (room_players d) us with
       | inl e => inl e
       | inr tbl => inr (set_room_players tbl d)
       end.

(** [delete().eq("id", gid)] on [game_states]; the secrets row references
    the game state [on delete cascade] and goes with it. *)
Definition delete_game_state (gid : string) (d : DB) : DB :=
  set_game_state_secrets
    (filter (fun s => negb (Secret.game_state_id s =s? gid)) (game_state_secrets d))
    (set_game_states
       (filter (fun g => negb (GameState.id g =s? gid)) (game_states d)) d).

Definition delete_secrets (gid : string) (d : DB) : DB :=
  set_game_state_secrets
    (filter (fun s => negb (Secret.game_state_id s =s? gid)) (game_state_secrets d)) d.

Definition delete_hands (gid : string) (d : DB) : DB :=
  set_player_hands
    (filter (fun h => negb (PlayerHand.game_state_id h =s? gid)) (player_hands d)) d.

(** Insert into [game_states]: the store sets the primary key [id]. *)
Definition insert_game_state_row (new_id : string) (g : GameState.t) (d : DB)
  : string + (GameState.t * DB) :=
  let row := GameState.mk new_id (GameState.room_id g) (GameState.hand_number g)
               (GameState.button_seat g) (GameState.phase g) (GameState.pot_size g)
               (GameState.current_bet g) (GameState.min_raise g)
               (GameState.action_history g) (GameState.board_state g) in
  if existsb (fun h => GameState.id h =s? new_id) (game_states d)
  then inl "duplicate key value violates unique constraint"
  else inr (row, set_game_states (game_states d ++ [row]) d).

(** Insert into [game_state_secrets], [unique(game_state_id)]. *)
Definition insert_secret (s : Secret.t) (d : DB) : string + DB :=
  if existsb (fun t => Secret.game_state_id t =s? Secret.game_state_id s)
             (game_state_secrets d)
  then inl "duplicate key value violates unique constraint"
  else inr (set_game_state_secrets (game_state_secrets d ++ [s]) d).

Definition update_game_state (gid : string) (u : PartialGameState.t) (d : DB) : DB :=
  set_game_states
    (map (fun g => if GameState.id g =s? gid then merge_game_state g u else g)
         (game_states d)) d.

Definition update_room (rid : string) (hand : Z) (button : Z) (d : DB) : DB :=
  set_rooms
    (map (fun r => if Room.id r =s? rid
                   then Room.mk (Room.id r) (Room.small_blind r) (Room.big_blind r)
                          (Room.bomb_pot_ante r) (Room.is_active r) (Room.is_paused r)
                          (Some button) hand (Room.game_mode r)
                   else r) (rooms d)) d.

(** [order("seat_number", { ascending: true })] *)
Fixpoint insert_by_seat (p : RoomPlayer.t) (l : list RoomPlayer.t) : list RoomPlayer.t :=
  match l with
  | [] => [p]
  | q :: r =>
      if RoomPlayer.seat_number p <=? RoomPlayer.seat_number q
      then p :: l else q :: insert_by_seat p r
  end.

Definition order_by_seat (l : list RoomPlayer.t) : list RoomPlayer.t :=
  fold_right insert_by_seat [] l.

Definition players_of (roomId : string) (d : DB) : list RoomPlayer.t :=
  order_by_seat (filter (fun p => RoomPlayer.room_id p =s? roomId) (room_players d)).

(** [order("hand_number", { ascending: false }).limit(1)] *)
Fixpoint greatest_hand (l : list GameState.t) : option GameState.t :=
  match l with
  | [] => None
  | g :: r =>
      match greatest_hand r with
      | Some h => if GameState.hand_number g <? GameState.hand_number h
                  then Some h else Some g
      | None => Some g
      end
  end.

Definition latest_game_state (roomId : string) (d : DB) : option GameState.t :=
  greatest_hand (filter (fun g => GameState.room_id g =s? roomId) (game_states d)).

(** ** The engine's pure functions, as the handlers import them

    [import { dealHand, applyAction, endOfHandPayout,
    determineDoubleBoardWinners } from "./logic.js"].  A function that can
    throw returns, on the left, the message of the [Error] it throws. *)
Class EngineLogic := {
  dealHand : Room.t -> list RoomPlayer.t -> option string -> string + Deal;
  applyAction : ActionContext -> Z -> ActionType -> option Z -> Outcome;
  determineDoubleBoardWinners :
    list ActiveHand -> list Card -> list Card -> string + (list Z * list Z);
  endOfHandPayout : list Z -> list Z -> Z -> string + list Payout }.

(** ** The handlers of index.ts *)

Definition parse_action_type (s : string) : option ActionType :=
  if s =s? "fold" then Some AFold
  else if s =s? "check" then Some ACheck
  else if s =s? "call" then Some ACall
  else if s =s? "bet" then Some ABet
  else if s =s? "raise" then Some ARaise
  else if s =s? "all_in" then Some AAllIn
  else None.

(** JavaScript truthiness of the values the handlers test. *)
Definition truthy_id (i : option string) : option string :=
  match i with
  | Some s => if s =s? "" then None else Some s
  | None => None
  end.

Definition truthy_number (n : option Z) : bool :=
  match n with Some v => negb (v =? 0) | None => false end.

Definition truthy_array {A} (l : option (list A)) : bool :=
  match l with Some _ => true | None => false end.

(** [new Map()] filled by [set] in order: a key keeps the place of its first
    [set] and the value of its last. *)
Fixpoint map_set (k : string) (v : PartialPlayer.t)
                 (m : list (string * PartialPlayer.t)) : list (string * PartialPlayer.t) :=
  match m with
  | [] => [(k, v)]
  | (k', v') :: r => if k' =s? k then (k, v) :: r else (k', v') :: map_set k v r
  end.

Definition deduplicatedPlayers (us : list PartialPlayer.t) : list PartialPlayer.t :=
  map snd
    (fold_left
       (fun m u => match truthy_id (PartialPlayer.id u) with
                   | Some i => map_set i u m
                   | None => m
                   end)
       us []).

(** [players.map((p) => { const updated = updatedPlayers.find((u) => u.id === p.id);
    return updated ? { ...p, ...updated } : p; })] *)
Definition mergedPlayers (players : list RoomPlayer.t) (us : list PartialPlayer.t)
  : list RoomPlayer.t :=
  map (fun p =>
         match find (fun u => match PartialPlayer.id u with
                              | Some i => i =s? RoomPlayer.id p
                              | None => false
                              end) us with
         | Some u => merge_player p u
         | None => p
         end) players.

Definition activeHands (merged : list RoomPlayer.t) (hands : list PlayerHand.t)
  : list ActiveHand :=
  let activePlayers := filter (fun p => negb (RoomPlayer.has_folded p)) merged in
  map (fun ph => mkActiveHand (PlayerHand.seat_number ph) (PlayerHand.cards ph))
      (filter (fun ph =>
                 existsb (fun p => RoomPlayer.seat_number p =? PlayerHand.seat_number ph)
                         activePlayers) hands).

Definition credit_row (player : RoomPlayer.t) (amt : Z) : PartialPlayer.t :=
  PartialPlayer.mk
    (Some (RoomPlayer.id player)) (Some (RoomPlayer.room_id player))
    (Some (RoomPlayer.seat_number player)) (Some (RoomPlayer.auth_user_id player))
    (Some (RoomPlayer.display_name player)) (Some (RoomPlayer.total_buy_in player))
    (Some (RoomPlayer.chip_stack player + amt))
    None None None None.

Fixpoint creditUpdates (merged : list RoomPlayer.t) (payouts : list Payout)
  : list PartialPlayer.t :=
  match payouts with
  | [] => []
  | p :: rest =>
      match find (fun pl => RoomPlayer.seat_number pl =? seat p) merged with
      | Some player => credit_row player (amount p) :: creditUpdates merged rest
      | None => creditUpdates merged rest
      end
  end.

(** [Array.from(new Set([...board1Winners, ...board2Winners]))] *)
Fixpoint unique_seats (l : list Z) (seen : list Z) : list Z :=
  match l with
  | [] => []
  | x :: r =>
      if existsb (Z.eqb x) seen then unique_seats r seen
      else x :: unique_seats r (x :: seen)
  end.

Definition allWinners (w1 w2 : list Z) : list Z := unique_seats (w1 ++ w2) [].

Definition is_empty {A} (l : list A) : bool :=
  match l with [] => true | _ => false end.

Section Handlers.

Context {L : EngineLogic}.

(** The [uuid()] format check of the validation library, and the message of
    the error it reports for the issues of a body: the keys whose values the
    schema refuses, with these values. *)
Variable is_uuid : string -> bool.
Variable zod_message : list (string * JSON) -> string.

(** Which storage calls fail during this request. *)
Variable faults : Faults.

(** The identifier the store generates for an inserted game state. *)
Variable new_id : string.

(** What [actionSchema] makes of the value under each key: the value for
    the payload, or [None] when it refuses the value.  [seatNumber] is an
    integer, [actionType] one of [ACTIONS], [amount] a positive integer or
    absent, [authUserId] a uuid, [null] or absent, [idempotencyKey] a string
    or absent. *)
Definition seatNumber_of (v : JSON) : option Z :=
  match v with JInt n => Some n | _ => None end.

Definition actionType_of (v : JSON) : option ActionType :=
  match v with JString t => parse_action_type t | _ => None end.

Definition amount_of (v : JSON) : option (option Z) :=
  match v with
  | JAbsent => Some None
  | JInt n => if 0 <? n then Some (Some n) else None
  | _ => None
  end.

Definition authUserId_of (v : JSON) : option (option string) :=
  match v with
  | JAbsent | JNull => Some None
  | JString u => if is_uuid u then Some (Some u) else None
  | _ => None
  end.

Definition idempotencyKey_of (v : JSON) : option (option string) :=
  match v with
  | JAbsent => Some None
  | JString k => Some (Some k)
  | _ => None
  end.

Definition issue {A} (key : string) (v : JSON) (parsed : option A)
  : list (string * JSON) :=
  match parsed with Some _ => [] | None => [(key, v)] end.

(** The issues [safeParse] reports for a body. *)
Definition actionIssues (b : ActionBody.t) : list (string * JSON) :=
  issue "seatNumber" (ActionBody.seatNumber b) (seatNumber_of (ActionBody.seatNumber b))
  ++ issue "actionType" (ActionBody.actionType b)
           (actionType_of (ActionBody.actionType b))
  ++ issue "amount" (ActionBody.amount b) (amount_of (ActionBody.amount b))
  ++ issue "authUserId" (ActionBody.authUserId b)
           (authUserId_of (ActionBody.authUserId b))
  ++ issue "idempotencyKey" (ActionBody.idempotencyKey b)
           (idempotencyKey_of (ActionBody.idempotencyKey b)).

(** [actionSchema.safeParse]: the payload, or [None] when a value is
    refused. *)
Definition actionSchema (b : ActionBody.t) : option ActionPayload.t :=
  match seatNumber_of (ActionBody.seatNumber b),
        actionType_of (ActionBody.actionType b),
        amount_of (ActionBody.amount b),
        authUserId_of (ActionBody.authUserId b),
        idempotencyKey_of (ActionBody.idempotencyKey b) with
  | Some seat, Some a, Some amt, Some user, Some key =>
      Some (ActionPayload.mk seat a amt user key)
  | _, _, _, _, _ => None
  end.

(** A read that throws when the store reports an error. *)
Definition select {A} (s : Step) (f : DB -> A) : Handler A :=
  match faults s with
  | Some e => throw (StoreError e)
  | None => query f
  end.

(** A write: the store's [{ error }], not thrown. *)
Definition write (s : Step) (f : DB -> string + DB) : Handler (option string) :=
  fun w =>
    match faults s with
    | Some e => (Val (Some e), w)
    | None =>
        match f (store w) with
        | inl e => (Val (Some e), w)
        | inr d => (Val None, mkWorld d (calls w))
        end
    end.

(** [if (err) throw err] *)
Definition check (e : option string) : Handler unit :=
  match e with Some m => throw (StoreError m) | None => ret tt end.

Definition fetchRoom (roomId : string) : Handler (option Room.t) :=
  select SelectRoom (fun d => find (fun r => Room.id r =s? roomId) (rooms d)).

Definition fetchPlayers (roomId : string) : Handler (list RoomPlayer.t) :=
  select SelectPlayers (players_of roomId).

Definition fetchLatestGameState (roomId : string) : Handler (option GameState.t) :=
  select SelectGameState (latest_game_state roomId).

(** Modelled from the spec: [secrets.js] is not among the sources; the
    secrets row of a game state is read by its [game_state_id], and a missing
    row is [null]. *)
Definition fetchGameStateSecret (gid : string) : Handler (option Secret.t) :=
  select SelectSecret
    (fun d => find (fun s => Secret.game_state_id s =s? gid) (game_state_secrets d)).

Definition insert_game_state (g : GameState.t) : Handler (string + GameState.t) :=
  fun w =>
    match faults InsertGameState with
    | Some e => (Val (inl e), w)
    | None =>
        match insert_game_state_row new_id g (store w) with
        | inl e => (Val (inl e), w)
        | inr (row, d) => (Val (inr row), mkWorld d (calls w))
        end
    end.

(** The [catch] of [start-hand]: [if (createdGameStateId)] what was created
    for the game state is deleted, and the request fails.  The results of
    the deletes are not looked at. *)
Definition rollback (createdGameStateId : option string) (err : Exn) : Handler unit :=
  match truthy_id createdGameStateId with
  | Some gid =>
      write DeleteHands (fun d => inr (delete_hands gid d)) ;;;
      write DeleteSecrets (fun d => inr (delete_secrets gid d)) ;;;
      write DeleteGameState (fun d => inr (delete_game_state gid d)) ;;;
      send 400 (BError (message_of err))
  | None => send 400 (BError (message_of err))
  end.

(** [POST /rooms/:roomId/start-hand] *)
Definition start_hand (roomId : string) (deckSeed : option string) : Handler unit :=
  room <- fetchRoom roomId ;;
  match room with
  | None => send 404 (BError "Room not found")
  | Some room =>
    if negb (Room.is_active room) || Room.is_paused room
    then send 400 (BError "Room not active")
    else
      players <- fetchPlayers roomId ;;
      if (List.length players <? 2)%nat
      then send 400 (BError "Need at least two players to start")
      else
        record_call CallDeal ;;;
        match dealHand room players deckSeed with
        | inl e => throw (JsError e)
        | inr deal =>
          let gameState := d_gameState deal in
          created <- insert_game_state gameState ;;
          match created with
          | inl e => rollback None (StoreError e)
          | inr gs =>
            try_catch
              (secretErr <- write InsertSecret
                  (insert_secret (Secret.mk (GameState.id gs) (d_deckSeed deal)
                                    (d_fullBoard1 deal) (d_fullBoard2 deal))) ;;
               check secretErr ;;;
               (if is_empty (d_playerHands deal) then ret tt
                else
                  phErr <- write InsertHands
                    (fun d => inr (set_player_hands
                       (player_hands d ++
                        map (fun h => PlayerHand.mk roomId (GameState.id gs)
                                        (PlayerHand.seat_number h) (PlayerHand.cards h)
                                        (PlayerHand.auth_user_id h))
                            (d_playerHands deal)) d)) ;;
                  check phErr) ;;;
               (if is_empty (d_updatedPlayers deal) then ret tt
                else
                  upErr <- write UpsertPlayers (upsert_players (d_updatedPlayers deal)) ;;
                  check upErr) ;;;
               write UpdateRoom
                 (fun d => inr (update_room roomId (GameState.hand_number gameState)
                                  (GameState.button_seat gameState) d)) ;;;
               send 201 (BStarted gs (d_deckSeed deal)))
              (rollback (Some (GameState.id gs)))
          end
        end
  end.

(** The payout block of the [actions] handler: runs when the outcome carries
    auto winners and a non-zero pot. *)
Definition settle_hand (roomId : string) (gameState : GameState.t) (secret : Secret.t)
    (players : list RoomPlayer.t) (outcome : Outcome) (pot : Z) : Handler unit :=
  playerHands <- select SelectHands
    (fun d => filter (fun h => PlayerHand.game_state_id h =s? GameState.id gameState)
                     (player_hands d)) ;;
  let merged := mergedPlayers players (updatedPlayers outcome) in
  let fullBoard1 := Secret.full_board1 secret in
  let fullBoard2 := Secret.full_board2 secret in
  let hands := activeHands merged playerHands in
  record_call (CallWinners hands fullBoard1 fullBoard2) ;;;
  match determineDoubleBoardWinners hands fullBoard1 fullBoard2 with
  | inl e => throw (JsError e)
  | inr (board1Winners, board2Winners) =>
    record_call (CallPayout board1Winners board2Winners pot) ;;;
    match endOfHandPayout board1Winners board2Winners pot with
    | inl e => throw (JsError e)
    | inr payouts =>
      (if is_empty payouts then ret tt
       else
         let credits := creditUpdates merged payouts in
         if is_empty credits then ret tt
         else
           creditErr <- write UpsertCredits (upsert_players credits) ;;
           check creditErr) ;;;
      let boardState := GameState.board_state gameState in
      resultsErr <- write InsertResult
        (fun d => inr (set_hand_results
           (hand_results d ++
            [HandResult.mk roomId (GameState.hand_number gameState) pot
               (match boardState with Some b => board1 b | None => None end)
               (match boardState with Some b => board2 b | None => None end)
               (allWinners board1Winners board2Winners)
               (or_else (PartialGameState.action_history (updatedGameState outcome))
                        (GameState.action_history gameState))]) d)) ;;
      check resultsErr
    end
  end.

(** The [if (outcome.handCompleted)] block: the payout when the outcome
    carries auto winners and a non-zero pot, then the delete of the game
    state. *)
Definition finish_hand (roomId : string) (gameState : GameState.t) (secret : Secret.t)
    (players : list RoomPlayer.t) (outcome : Outcome) : Handler unit :=
  (if truthy_array (autoWinners outcome) && truthy_number (potAwarded outcome)
   then settle_hand roomId gameState secret players outcome
          (or_else (potAwarded outcome) 0)
   else ret tt) ;;;
  deleteErr <- write DeleteGameState
    (fun d => inr (delete_game_state (GameState.id gameState) d)) ;;
  check deleteErr.

(** The handler from the action log on: the request is logged, a rejected
    action is answered 400, an accepted one is written to the store.  The
    handler tests [outcome.error] for truthiness: an empty message is no
    rejection. *)
Definition persist_outcome (roomId : string) (payload : ActionPayload.t)
    (gameState : GameState.t) (secret : Secret.t) (players : list RoomPlayer.t)
    (outcome : Outcome) : Handler unit :=
  write InsertAction
    (fun d => inr (set_player_actions
       (player_actions d ++
        [PlayerAction.mk roomId (GameState.id gameState)
           (ActionPayload.seatNumber payload)
           (ActionPayload.actionType payload)
           (ActionPayload.amount payload)
           (match truthy_id (error outcome) with Some _ => false | None => true end)
           (error outcome)
           (ActionPayload.authUserId payload)]) d)) ;;;
  match truthy_id (error outcome) with
  | Some e => send 400 (BError e)
  | None =>
    (if is_empty (updatedPlayers outcome) then ret tt
     else
       upErr <- write UpsertPlayers
         (upsert_players (deduplicatedPlayers (updatedPlayers outcome))) ;;
       check upErr) ;;;
    gsErr <- write UpdateGameState
      (fun d => inr (update_game_state (GameState.id gameState)
                       (updatedGameState outcome) d)) ;;
    check gsErr ;;;
    (if handCompleted outcome
     then finish_hand roomId gameState secret players outcome
     else ret tt) ;;;
    if handCompleted outcome
    then send 200 (BOk None)
    else send 200 (BOk (Some (merge_game_state gameState (updatedGameState outcome))))
  end.

(** [POST /rooms/:roomId/actions] *)
Definition post_action (roomId : string) (body : ActionBody.t) : Handler unit :=
  match actionSchema body with
  | None => send 400 (BError (zod_message (actionIssues body)))
  | Some payload =>
    try_catch
      (room <- fetchRoom roomId ;;
       match room with
       | None => send 404 (BError "Room not found")
       | Some room =>
         gameState <- fetchLatestGameState roomId ;;
         match gameState with
         | None => send 400 (BError "No active hand")
         | Some gameState =>
           secret <- fetchGameStateSecret (GameState.id gameState) ;;
           match secret with
           | None => send 500 (BError "Missing game secrets")
           | Some secret =>
             players <- fetchPlayers roomId ;;
             record_call (CallApply (ActionPayload.seatNumber payload)
                            (ActionPayload.actionType payload)
                            (ActionPayload.amount payload)) ;;;
             persist_outcome roomId payload gameState secret players
               (applyAction
                  (mkCtx room players gameState
                         (Secret.full_board1 secret) (Secret.full_board2 secret))
                  (ActionPayload.seatNumber payload)
                  (ActionPayload.actionType payload)
                  (ActionPayload.amount payload))
           end
         end
       end)
      (fun err => send 500 (BError (message_of err)))
  end.

End Handlers.

(** ** The engine's pure functions, modelled from the specification

    [logic.js] is not among the sources.  Module [Logic] follows the words
    of the specification (sections 4.1 to 4.5) for the four functions the
    handlers import. *)

Module Logic.

(** *** Seats around the table *)

Fixpoint least (l : list Z) : option Z :=
  match l with
  | [] => None
  | x :: r => match least r with
              | Some y => Some (Z.min x y)
              | None => Some x
              end
  end.

(** Modelled from the spec: the next seat clockwise from [after] among
    [seats]: the lowest seat above it, or else the lowest seat. *)
Definition next_seat (after : Z) (seats : list Z) : option Z :=
  match least (filter (fun s => after <? s) seats) with
  | Some s => Some s
  | None => least seats
  end.

Fixpoint insert_seat (s : Z) (l : list Z) : list Z :=
  match l with
  | [] => [s]
  | x :: r => if s <? x then s :: l
              else if s =? x then l
              else x :: insert_seat s r
  end.

(** A set of seats in ascending order, each seat once. *)
Definition seat_set (l : list Z) : list Z := fold_right insert_seat [] l.

(** Modelled from the spec: the seats of a set in clockwise order, starting
    with the seat immediately clockwise of the button. *)
Definition clockwise_from (button : Z) (seats : list Z) : list Z :=
  let s := seat_set seats in
  filter (fun x => button <? x) s ++ filter (fun x => x <=? button) s.

(** *** 4.5 Payout Calculator *)

(** Modelled from the spec: an amount split evenly among the seats of
    [order]; the indivisible remainder goes one chip per seat, in order. *)
Fixpoint split_from (order : list Z) (share extra : Z) : list Payout :=
  match order with
  | [] => []
  | s :: r => mkPayout s (share + (if 0 <? extra then 1 else 0))
                :: split_from r share (extra - 1)
  end.

Definition split_among (order : list Z) (amt : Z) : list Payout :=
  let n := Z.of_nat (List.length order) in
  split_from order (amt / n) (amt mod n).

Definition total (l : list Payout) : Z :=
  fold_right (fun p acc => amount p + acc) 0 l.

(** The mapping seat -> credited amount: a seat that is credited twice has
    one entry with the sum. *)
Fixpoint credit (s : Z) (a : Z) (m : list Payout) : list Payout :=
  match m with
  | [] => [mkPayout s a]
  | p :: r => if seat p =? s then mkPayout s (amount p + a) :: r
              else p :: credit s a r
  end.

Definition to_mapping (l : list Payout) : list Payout :=
  fold_left (fun m p => credit (seat p) (amount p) m) l [].

(** Modelled from the spec: what each board's winners receive.  A
    single-board hand ([board2Winners] absent) splits the full pot among the
    winners; the double-board variant splits the pot 50/50 between the boards
    first.  The spec leaves the odd chip of an odd pot open: here it goes to
    board 1. *)
Definition board_shares (button : Z) (board1Winners : list Z)
    (board2Winners : option (list Z)) (potAwarded : Z) : list Payout * list Payout :=
  match board2Winners with
  | None => (split_among (clockwise_from button board1Winners) potAwarded, [])
  | Some w2 =>
      (split_among (clockwise_from button board1Winners) (potAwarded - potAwarded / 2),
       split_among (clockwise_from button w2) (potAwarded / 2))
  end.

(** Modelled from the spec: [payout(board1Winners, board2Winners?,
    potAwarded)] of section 6.  The computation asserts that the credited
    total equals the pot awarded and aborts otherwise (section 7). *)
Definition endOfHandPayout (button : Z) (board1Winners : list Z)
    (board2Winners : option (list Z)) (potAwarded : Z) : string + list Payout :=
  let (s1, s2) := board_shares button board1Winners board2Winners potAwarded in
  let payouts := to_mapping (s1 ++ s2) in
  if total payouts =? potAwarded then inr payouts
  else inl "payout total differs from the pot awarded".

(** *** 4.4 Hand Evaluator *)

Section Evaluator.

(** The rank of the best hand a player's hole cards make with a board
    (category, then kickers), higher is better; [None] for malformed cards.
    The spec leaves the combination rule to the variant. *)
Variable strength : list Card -> list Card -> option Z.

Fixpoint ranks (hands : list ActiveHand) (board : list Card) : option (list (Z * Z)) :=
  match hands with
  | [] => Some []
  | h :: r =>
      match strength (cards h) board, ranks r board with
      | Some v, Some l => Some ((seatNumber h, v) :: l)
      | _, _ => None
      end
  end.

Fixpoint best (l : list (Z * Z)) : option Z :=
  match l with
  | [] => None
  | (_, v) :: r => match best r with
                   | Some b => Some (Z.max v b)
                   | None => Some v
                   end
  end.

(** Modelled from the spec: the seats whose hand is ranked highest on a
    board; a tie gives several winners. *)
Definition board_winners (hands : list ActiveHand) (board : list Card) : string + list Z :=
  match ranks hands board with
  | None => inl "EvaluationError"
  | Some l =>
      match best l with
      | None => inr []
      | Some b => inr (map fst (filter (fun sv => snd sv =? b) l))
      end
  end.

(** Modelled from the spec: [evaluateShowdown(activeHands, board1, board2?)]
    of section 6, run independently against each board; with no second board
    there are no board-2 winners. *)
Definition determineDoubleBoardWinners (hands : list ActiveHand)
    (board1 board2 : list Card) : string + (list Z * list Z) :=
  match board_winners hands board1 with
  | inl e => inl e
  | inr w1 =>
      if is_empty board2 then inr (w1, [])
      else match board_winners hands board2 with
           | inl e => inl e
           | inr w2 => inr (w1, w2)
           end
  end.

End Evaluator.

(** *** 4.2 Action Processor *)

Definition street_eqb (a b : Street) : bool :=
  match a, b with
  | Preflop, Preflop | Flop, Flop | Turn, Turn | River, River
  | Showdown, Showdown => true
  | _, _ => false
  end.

Definition next_street (st : Street) : Street :=
  match st with
  | Preflop => Flop
  | Flop => Turn
  | Turn => River
  | River | Showdown => Showdown
  end.

(** How many cards of a board a street shows. *)
Definition revealed (st : Street) : nat :=
  match st with
  | Preflop => 0
  | Flop => 3
  | Turn => 4
  | River | Showdown => 5
  end%nat.

Definition to_partial (p : RoomPlayer.t) : PartialPlayer.t :=
  PartialPlayer.mk
    (Some (RoomPlayer.id p)) (Some (RoomPlayer.room_id p))
    (Some (RoomPlayer.seat_number p)) (Some (RoomPlayer.auth_user_id p))
    (Some (RoomPlayer.display_name p)) (Some (RoomPlayer.total_buy_in p))
    (Some (RoomPlayer.chip_stack p)) (Some (RoomPlayer.current_bet p))
    (Some (RoomPlayer.has_folded p)) (Some (RoomPlayer.is_all_in p))
    (Some (RoomPlayer.is_spectating p)).

Definition state_update (g : GameState.t) : PartialGameState.t :=
  PartialGameState.mk
    (Some (GameState.phase g)) (Some (GameState.pot_size g))
    (Some (GameState.current_bet g)) (Some (GameState.min_raise g))
    (Some (GameState.action_history g)) (Some (GameState.board_state g)).

Definition no_update : PartialGameState.t :=
  PartialGameState.mk None None None None None None.

Definition in_hand (p : RoomPlayer.t) : bool := negb (RoomPlayer.has_folded p).

Definition can_act (p : RoomPlayer.t) : bool :=
  negb (RoomPlayer.has_folded p) && negb (RoomPlayer.is_all_in p).

Fixpoint last_entry {A} (l : list A) : option A :=
  match l with
  | [] => None
  | [x] => Some x
  | _ :: r => last_entry r
  end.

(** Modelled from the spec: the seat whose turn it is, "the next non-folded,
    non-all-in seat clockwise from the last actor"; the forced bets of the
    deal are the first entries of the log, and with an empty log the count
    starts at the button. *)
Definition current_actor (g : GameState.t) (players : list RoomPlayer.t) : option Z :=
  let eligible := map RoomPlayer.seat_number (filter can_act players) in
  match last_entry (GameState.action_history g) with
  | Some e => next_seat (h_seat e) eligible
  | None => next_seat (GameState.button_seat g) eligible
  end.

Definition street_entries (st : Street) (h : list HistoryEntry) : list HistoryEntry :=
  filter (fun e => street_eqb (h_street e) st) h.

(** The entries from the last full bet or raise on. *)
Definition since_reopen (h : list HistoryEntry) : list HistoryEntry :=
  fold_left (fun acc e => if h_reopens e then [e] else acc ++ [e]) h [].

Definition voluntary_by (s : Z) (h : list HistoryEntry) : bool :=
  existsb (fun e => (h_seat e =? s) && negb (h_forced e)) h.

Definition has_acted (g : GameState.t) (s : Z) : bool :=
  voluntary_by s (street_entries (GameState.phase g) (GameState.action_history g)).

(** Modelled from the spec: a wager below the legal minimum raise "does not
    reopen the action": a seat that has acted since the last full bet or
    raise may call or fold, not raise. *)
Definition may_raise (g : GameState.t) (s : Z) : bool :=
  negb (voluntary_by s
          (since_reopen (street_entries (GameState.phase g) (GameState.action_history g)))).

(** What a legal action does: the chips it commits and the new betting
    terms of the street. *)
Record Move := mkMove {
  m_wager : Z;
  m_folds : bool;
  m_all_in : bool;
  m_bet_to_call : Z;
  m_min_raise : Z;
  m_reopens : bool }.

(** Modelled from the spec: legality per action type (section 4.2).  The
    amount of a bet or raise is the chips the seat adds now; a seat whose
    wager leaves it no chips is all-in, which covers the call for less. *)
Definition legal (room : Room.t) (g : GameState.t) (p : RoomPlayer.t)
    (a : ActionType) (amt : option Z) : string + Move :=
  let stack := RoomPlayer.chip_stack p in
  let mine := RoomPlayer.current_bet p in
  let to_call := GameState.current_bet g in
  let keep w allin := mkMove w false allin to_call (GameState.min_raise g) false in
  match a with
  | AFold => inr (mkMove 0 true (RoomPlayer.is_all_in p) to_call (GameState.min_raise g) false)
  | ACheck =>
      if mine =? to_call then inr (keep 0 (RoomPlayer.is_all_in p))
      else inl "IllegalAction: there is a bet to call"
  | ACall =>
      if mine <? to_call
      then let w := Z.min (to_call - mine) stack in inr (keep w (stack - w =? 0))
      else inl "IllegalAction: nothing to call"
  | ABet =>
      match amt with
      | None => inl "IllegalAction: wrong amount"
      | Some v =>
          if negb (to_call =? 0) then inl "IllegalAction: there is a bet already"
          else if negb (may_raise g (RoomPlayer.seat_number p))
          then inl "IllegalAction: the betting is not reopened"
          else if negb (0 <? v) then inl "IllegalAction: wrong amount"
          else if v <? Room.big_blind room then inl "IllegalAction: below the minimum bet"
          else if stack <? v then inl "IllegalAction: exceeds stack"
          else inr (mkMove v false (stack - v =? 0) (mine + v) v true)
      end
  | ARaise =>
      match amt with
      | None => inl "IllegalAction: wrong amount"
      | Some v =>
          if to_call =? 0 then inl "IllegalAction: nothing to raise"
          else if negb (may_raise g (RoomPlayer.seat_number p))
          then inl "IllegalAction: the betting is not reopened"
          else if negb (0 <? v) then inl "IllegalAction: wrong amount"
          else if stack <? v then inl "IllegalAction: exceeds stack"
          else if mine + v - to_call <? GameState.min_raise g
          then inl "IllegalAction: below the minimum raise"
          else inr (mkMove v false (stack - v =? 0) (mine + v) (mine + v - to_call) true)
      end
  | AAllIn =>
      if to_call <? mine + stack
      then
        let full := (GameState.min_raise g <=? mine + stack - to_call)
                    && may_raise g (RoomPlayer.seat_number p) in
        inr (mkMove stack false true (mine + stack)
               (if full then mine + stack - to_call else GameState.min_raise g) full)
      else inr (keep stack true)
  end.

(** The seat's row once the move is made: the wager leaves the stack and
    joins the seat's wager of the street. *)
Definition act (p : RoomPlayer.t) (m : Move) : RoomPlayer.t :=
  RoomPlayer.mk
    (RoomPlayer.id p) (RoomPlayer.room_id p) (RoomPlayer.seat_number p)
    (RoomPlayer.auth_user_id p) (RoomPlayer.display_name p) (RoomPlayer.total_buy_in p)
    (RoomPlayer.chip_stack p - m_wager m)
    (RoomPlayer.current_bet p + m_wager m)
    (RoomPlayer.has_folded p || m_folds m)
    (m_all_in m)
    (RoomPlayer.is_spectating p).

Definition reset_bet (p : RoomPlayer.t) : RoomPlayer.t :=
  RoomPlayer.mk
    (RoomPlayer.id p) (RoomPlayer.room_id p) (RoomPlayer.seat_number p)
    (RoomPlayer.auth_user_id p) (RoomPlayer.display_name p) (RoomPlayer.total_buy_in p)
    (RoomPlayer.chip_stack p) 0
    (RoomPlayer.has_folded p) (RoomPlayer.is_all_in p) (RoomPlayer.is_spectating p).

Definition replace_player (q : RoomPlayer.t) (players : list RoomPlayer.t)
  : list RoomPlayer.t :=
  map (fun p => if RoomPlayer.id p =s? RoomPlayer.id q then q else p) players.

(** The hand state once the move is stamped: the pot takes the wager. *)
Definition stamp (g : GameState.t) (seat : Z) (a : ActionType) (m : Move) : GameState.t :=
  GameState.mk
    (GameState.id g) (GameState.room_id g) (GameState.hand_number g)
    (GameState.button_seat g) (GameState.phase g)
    (GameState.pot_size g + m_wager m)
    (m_bet_to_call m) (m_min_raise m)
    (GameState.action_history g
       ++ [mkEntry (GameState.phase g) seat a (m_wager m) false (m_reopens m)])
    (GameState.board_state g).

(** Modelled from the spec: a street is over when every seat still in the
    hand is all-in or has matched the bet-to-call; as in the spec's worked
    example (the big blind checks its option), a seat that can act has acted
    on the street. *)
Definition street_closed (g : GameState.t) (players : list RoomPlayer.t) : bool :=
  forallb (fun p => RoomPlayer.has_folded p || RoomPlayer.is_all_in p
                    || ((RoomPlayer.current_bet p =? GameState.current_bet g)
                        && has_acted g (RoomPlayer.seat_number p)))
          players.

Definition with_phase (st : Street) (g : GameState.t) : GameState.t :=
  GameState.mk
    (GameState.id g) (GameState.room_id g) (GameState.hand_number g)
    (GameState.button_seat g) st (GameState.pot_size g)
    (GameState.current_bet g) (GameState.min_raise g)
    (GameState.action_history g) (GameState.board_state g).

(** Modelled from the spec: advancing deals the next cards of the secret
    boards into the revealed portion and resets the bet-to-call. *)
Definition advance (bb : Z) (full1 full2 : list Card) (g : GameState.t) : GameState.t :=
  let st := next_street (GameState.phase g) in
  GameState.mk
    (GameState.id g) (GameState.room_id g) (GameState.hand_number g)
    (GameState.button_seat g) st (GameState.pot_size g) 0 bb
    (GameState.action_history g)
    (Some (mkBoards (Some (firstn (revealed st) full1))
                    (if is_empty full2 then None
                     else Some (firstn (revealed st) full2)))).

(** Streets advance while they are closed (all seats all-in run the board
    out); the river's closing completes the hand. *)
Fixpoint settle (fuel : nat) (bb : Z) (full1 full2 : list Card)
    (g : GameState.t) (players : list RoomPlayer.t) (advanced : bool)
  : GameState.t * list RoomPlayer.t * bool :=
  match fuel with
  | O => (g, players, advanced)
  | S k =>
      if street_closed g players
      then match GameState.phase g with
           | Showdown => (g, players, advanced)
           | River => (with_phase Showdown g, players, advanced)
           | _ => settle k bb full1 full2 (advance bb full1 full2 g)
                    (map reset_bet players) true
           end
      else (g, players, advanced)
  end.

Definition reject (msg : string) : Outcome :=
  mkOutcome no_update [] false None None (Some msg).

Definition seats_in_hand (players : list RoomPlayer.t) : list Z :=
  map RoomPlayer.seat_number (filter in_hand players).

(** Modelled from the spec: [applyAction] (sections 4.2 and 6).  The rows
    returned are the acting seat's, followed by every seat's when a street
    was closed and the wagers were reset.  On completion the outcome names
    the seats still in the hand, the sole one after a fold-out, and the
    pot. *)
Definition applyAction (ctx : ActionContext) (seat : Z) (a : ActionType)
    (amt : option Z) : Outcome :=
  let g := c_gameState ctx in
  let players := c_players ctx in
  if street_eqb (GameState.phase g) Showdown
  then reject "IllegalAction: the hand is complete"
  else
    match current_actor g players with
    | None => reject "OutOfTurn"
    | Some s =>
      if negb (s =? seat) then reject "OutOfTurn"
      else
        match find (fun p => can_act p && (RoomPlayer.seat_number p =? seat)) players with
        | None => reject "OutOfTurn"
        | Some p =>
          match legal (c_room ctx) g p a amt with
          | inl e => reject e
          | inr m =>
            let p' := act p m in
            let players1 := replace_player p' players in
            let g1 := stamp g seat a m in
            if (List.length (filter in_hand players1) =? 1)%nat
            then mkOutcome (state_update (with_phase Showdown g1)) [to_partial p']
                   true (Some (seats_in_hand players1)) (Some (GameState.pot_size g1)) None
            else
              let '(g2, players2, advanced) :=
                settle 4 (Room.big_blind (c_room ctx))
                       (c_fullBoard1 ctx) (c_fullBoard2 ctx) g1 players1 false in
              let completed := street_eqb (GameState.phase g2) Showdown in
              mkOutcome (state_update g2)
                (to_partial p' :: (if advanced then map to_partial players2 else []))
                completed
                (if completed then Some (seats_in_hand players2) else None)
                (if completed then Some (GameState.pot_size g2) else None)
                None
          end
        end
    end.

(** *** 4.1 Deck & Deal Service *)

(** A forced bet takes what the stack can give. *)
Definition forced_wager (amt : Z) (p : RoomPlayer.t) : Z :=
  Z.max 0 (Z.min amt (RoomPlayer.chip_stack p)).

Definition post (amt : Z) (counts : bool) (p : RoomPlayer.t) : RoomPlayer.t :=
  let w := forced_wager amt p in
  RoomPlayer.mk
    (RoomPlayer.id p) (RoomPlayer.room_id p) (RoomPlayer.seat_number p)
    (RoomPlayer.auth_user_id p) (RoomPlayer.display_name p) (RoomPlayer.total_buy_in p)
    (RoomPlayer.chip_stack p - w)
    (RoomPlayer.current_bet p + (if counts then w else 0))
    (RoomPlayer.has_folded p)
    (RoomPlayer.is_all_in p || (RoomPlayer.chip_stack p - w =? 0))
    (RoomPlayer.is_spectating p).

(** A seat at the start of a hand: in the hand, nothing wagered. *)
Definition seated (p : RoomPlayer.t) : RoomPlayer.t :=
  RoomPlayer.mk
    (RoomPlayer.id p) (RoomPlayer.room_id p) (RoomPlayer.seat_number p)
    (RoomPlayer.auth_user_id p) (RoomPlayer.display_name p) (RoomPlayer.total_buy_in p)
    (RoomPlayer.chip_stack p) 0 false false (RoomPlayer.is_spectating p).

(** Modelled from the spec: "blinds/antes posted as forced initial wagers
    (chip stack debited, pot credited)".  [collect] posts [amt] for the seats
    chosen by [who]: each stack is debited, the pot is credited with what was
    posted, and the wager is stamped into the log. *)
Fixpoint collect (amt : Z) (counts : bool) (who : RoomPlayer.t -> bool)
    (players : list RoomPlayer.t) : list RoomPlayer.t * Z * list HistoryEntry :=
  match players with
  | [] => ([], 0, [])
  | p :: r =>
      let '(r', pot, log) := collect amt counts who r in
      if who p
      then (post amt counts p :: r', forced_wager amt p + pot,
            mkEntry Preflop (RoomPlayer.seat_number p) ABet (forced_wager amt p) true false
              :: log)
      else (p :: r', pot, log)
  end.

Section Deal.

(** The deterministic permutation of the deck a seed stands for; [None]
    when the seed cannot be parsed. *)
Variable shuffle : string -> option (list Card).

(** The seed generated when the caller supplies none. *)
Variable fresh_seed : string.

(** The variant: hole cards per seat, and whether it has a second board. *)
Variable hole_cards : nat.
Variable two_boards : bool.

(** Hole cards are dealt round-robin: the seat at place [j] of [n] takes
    cards [j], [n + j], ... of the deck. *)
Definition hole (deck : list Card) (n j : nat) : list Card :=
  map (fun r => nth (r * n + j) deck "") (seq 0 hole_cards).

Fixpoint deal_holes (deck : list Card) (room_id : string) (players : list RoomPlayer.t)
    (n j : nat) (order : list Z) : list PlayerHand.t :=
  match order with
  | [] => []
  | s :: r =>
      PlayerHand.mk room_id "" s (hole deck n j)
        (match find (fun p => RoomPlayer.seat_number p =? s) players with
         | Some p => RoomPlayer.auth_user_id p
         | None => None
         end)
      :: deal_holes deck room_id players n (S j) r
  end.

(** Modelled from the spec: [deal(room, activePlayers, seed?)] of sections
    4.1 and 6.  The button moves one seat on; the small and the big blind
    are the first and the second seat clockwise of it, and every seat posts
    the bomb-pot ante when the room has one. *)
Definition dealHand (room : Room.t) (players : list RoomPlayer.t)
    (seed : option string) : string + Deal :=
  if (List.length players <? 2)%nat then inl "InsufficientPlayers"
  else
    let usedSeed := or_else seed fresh_seed in
    match shuffle usedSeed with
    | None => inl "InvalidSeed"
    | Some deck =>
      let seats := map RoomPlayer.seat_number players in
      let button :=
        or_else (match Room.button_seat room with
                 | Some b => next_seat b seats
                 | None => least seats
                 end) 0 in
      let order := clockwise_from button seats in
      let sb_seat := nth 0 order button in
      let bb_seat := nth 1 order button in
      let '(ps1, pot1, log1) :=
        collect (Room.bomb_pot_ante room) false
                (fun _ => 0 <? Room.bomb_pot_ante room) (map seated players) in
      let '(ps2, pot2, log2) :=
        collect (Room.small_blind room) true
                (fun p => RoomPlayer.seat_number p =? sb_seat) ps1 in
      let '(ps3, pot3, log3) :=
        collect (Room.big_blind room) true
                (fun p => RoomPlayer.seat_number p =? bb_seat) ps2 in
      let n := List.length order in
      let rest := skipn (n * hole_cards) deck in
      let fullBoard1 := firstn 5 rest in
      let fullBoard2 := if two_boards then firstn 5 (skipn 5 rest) else [] in
      inr (mkDeal
             (GameState.mk "" (Room.id room) (Room.current_hand_number room + 1)
                button Preflop (pot1 + pot2 + pot3)
                (Room.big_blind room) (Room.big_blind room)
                (log1 ++ log2 ++ log3)
                (Some (mkBoards (Some []) (if two_boards then Some [] else None))))
             (deal_holes deck (Room.id room) players n 0 order)
             (map to_partial ps3)
             usedSeed fullBoard1 fullBoard2)
    end.

End Deal.

End Logic.

(** The modelled functions as the handlers' imports.  The handler passes the
    winners of both boards and the pot; the button, which it does not pass,
    is fixed here, and an empty list of board-2 winners stands for a
    single-board hand. *)
Definition spec_logic (shuffle : string -> option (list Card)) (fresh_seed : string)
    (hole_cards : nat) (two_boards : bool)
    (strength : list Card -> list Card -> option Z) (button : Z) : EngineLogic :=
  {| dealHand := Logic.dealHand shuffle fresh_seed hole_cards two_boards;
     applyAction := Logic.applyAction;
     determineDoubleBoardWinners := Logic.determineDoubleBoardWinners strength;
     endOfHandPayout := fun w1 w2 pot =>
       Logic.endOfHandPayout button w1 (if is_empty w2 then None else Some w2) pot |}.

(** ** Indian poker: who sees which card *)

Module IndianPoker.

Fixpoint insert_hand (h : PlayerHand.t) (l : list PlayerHand.t) : list PlayerHand.t :=
  match l with
  | [] => [h]
  | k :: r =>
      if PlayerHand.seat_number h <=? PlayerHand.seat_number k
      then h :: l else k :: insert_hand h r
  end.

Definition order_hands (l : list PlayerHand.t) : list PlayerHand.t :=
  fold_right insert_hand [] l.

(** [cards::jsonb->>0]: the first card, [null] for no card. *)
Definition first_card (h : PlayerHand.t) : option Card :=
  match PlayerHand.cards h with
  | c :: _ => Some c
  | [] => None
  end.

(** [select gs.room_id, r.game_mode into ... from game_states gs join rooms r
    on r.id = gs.room_id where gs.id = game_state_id_param]: no row leaves
    the variables [null]. *)
Definition game_mode_of (d : DB) (gid : string) : option string :=
  match find (fun g => GameState.id g =s? gid) (game_states d) with
  | Some g =>
      match find (fun r => Room.id r =s? GameState.room_id g) (rooms d) with
      | Some r => Room.game_mode r
      | None => None
      end
  | None => None
  end.

(** The SQL function [public.get_indian_poker_visible_cards]: it raises for
    another game mode ([null != 'indian_poker'] is not true, so a missing
    mode does not raise), and returns the first card of every hand of the
    game state but the requesting seat's, ordered by seat. *)
Definition get_indian_poker_visible_cards (d : DB) (game_state_id_param : string)
    (requesting_seat_number : Z) : string + list (Z * option Card) :=
  match game_mode_of d game_state_id_param with
  | Some m =>
      if negb (m =s? "indian_poker")
      then inl "This function only works for Indian Poker mode"
      else inr (map (fun ph => (PlayerHand.seat_number ph, first_card ph))
                  (order_hands
                     (filter (fun ph =>
                                (PlayerHand.game_state_id ph =s? game_state_id_param)
                                && negb (PlayerHand.seat_number ph =? requesting_seat_number))
                             (player_hands d))))
  | None =>
      inr (map (fun ph => (PlayerHand.seat_number ph, first_card ph))
             (order_hands
                (filter (fun ph =>
                           (PlayerHand.game_state_id ph =s? game_state_id_param)
                           && negb (PlayerHand.seat_number ph =? requesting_seat_number))
                        (player_hands d))))
  end.

(** [GET /rooms/:roomId/game-states/:gameStateId/indian-poker-cards] *)
Record Request := mkRequest {
  roomId : string;
  gameStateId : string;
  bearer : option string;
  seat_param : option Z }.

Inductive Reply :=
| Rejected (status : Z)
| Visible (visibleCards : list (Z * list Card)).

Section Endpoint.

(** [supabase.auth.getUser(token)]: the user a bearer token stands for. *)
Variable getUser : string -> option string.

(** Modelled from the spec: the handler of the endpoint is not among the
    sources; this follows its integration test (401 without a user, 403 for a
    spectator, for another seat than the caller's and for a caller with no
    hand in the game state) and calls the SQL function for the caller's own
    seat. *)
Definition indian_poker_cards (d : DB) (req : Request) : Reply :=
  match bearer req with
  | None => Rejected 401
  | Some token =>
    match getUser token with
    | None => Rejected 401
    | Some uid =>
      match find (fun r => Room.id r =s? roomId req) (rooms d) with
      | None => Rejected 404
      | Some _ =>
        match find (fun p => (RoomPlayer.room_id p =s? roomId req)
                             && match RoomPlayer.auth_user_id p with
                                | Some u => u =s? uid
                                | None => false
                                end) (room_players d) with
        | None => Rejected 403
        | Some player =>
          if RoomPlayer.is_spectating player then Rejected 403
          else if match seat_param req with
                  | Some s => negb (s =? RoomPlayer.seat_number player)
                  | None => false
                  end then Rejected 403
          else
            match find (fun g => (GameState.id g =s? gameStateId req)
                                 && (GameState.room_id g =s? roomId req))
                       (game_states d) with
            | None => Rejected 404
            | Some _ =>
              match find (fun h => (PlayerHand.game_state_id h =s? gameStateId req)
                                   && (PlayerHand.seat_number h
                                       =? RoomPlayer.seat_number player))
                         (player_hands d) with
              | None => Rejected 403
              | Some _ =>
                match get_indian_poker_visible_cards d (gameStateId req)
                        (RoomPlayer.seat_number player) with
                | inl _ => Rejected 400
                | inr rows =>
                    Visible (map (fun r => (fst r, match snd r with
                                                   | Some c => [c]
                                                   | None => []
                                                   end)) rows)
                end
              end
            end
        end
      end
    end
  end.

End Endpoint.

End IndianPoker.

(** ** What the theorems measure *)

Definition stacks (l : list RoomPlayer.t) : Z :=
  fold_right (fun p acc => RoomPlayer.chip_stack p + acc) 0 l.

Definition in_room (rid : string) (p : RoomPlayer.t) : bool :=
  RoomPlayer.room_id p =s? rid.

(** The chips on the table of a room: every seat's stack and the pot of the
    hand in progress. *)
Definition room_stacks (rid : string) (d : DB) : Z :=
  stacks (filter (in_room rid) (room_players d)).

Definition pot_of (rid : string) (d : DB) : Z :=
  match latest_game_state rid d with
  | Some g => GameState.pot_size g
  | None => 0
  end.


(** The stack of the row with a given id, if there is one. *)
Definition stack_of (i : string) (d : DB) : option Z :=
  option_map RoomPlayer.chip_stack (find (has_id i) (room_players d)).

(** What the [actions] handler reads before it calls the action processor:
    the room, its latest game state and that game state's secret. *)
Definition found (roomId : string) (d : DB) : option (Room.t * GameState.t * Secret.t) :=
  match find (fun r => Room.id r =s? roomId) (rooms d) with
  | None => None
  | Some room =>
      match latest_game_state roomId d with
      | None => None
      | Some g =>
          match find (fun s => Secret.game_state_id s =s? GameState.id g)
                     (game_state_secrets d) with
          | None => None
          | Some secret => Some (room, g, secret)
          end
      end
  end.

(** The call of the action processor the handler makes for a payload, on the
    snapshot read from the store. *)
Definition outcome_for {L : EngineLogic} (roomId : string) (payload : ActionPayload.t)
    (d : DB) (room : Room.t) (g : GameState.t) (secret : Secret.t) : Outcome :=
  applyAction
    (mkCtx room (players_of roomId d) g
           (Secret.full_board1 secret) (Secret.full_board2 secret))
    (ActionPayload.seatNumber payload) (ActionPayload.actionType payload)
    (ActionPayload.amount payload).

(** The body with the idempotency key [k], or without one. *)
Definition with_key (k : option string) (b : ActionBody.t) : ActionBody.t :=
  ActionBody.mk (ActionBody.seatNumber b) (ActionBody.actionType b)
    (ActionBody.amount b) (ActionBody.authUserId b)
    (match k with Some s => JString s | None => JAbsent end).

(** The identifier is not used by any row yet. *)
Definition fresh (i : string) (d : DB) : bool :=
  forallb (fun g => negb (GameState.id g =s? i)) (game_states d)
  && forallb (fun s => negb (Secret.game_state_id s =s? i)) (game_state_secrets d)
  && forallb (fun h => negb (PlayerHand.game_state_id h =s? i)) (player_hands d).

Definition is_created (r : Response) : bool :=
  match r with
  | Json 201 (BStarted _ _) => true
  | _ => false
  end.

Definition is_ok (r : Response) : bool :=
  match r with
  | Json 200 (BOk _) => true
  | _ => false
  end.

Fixpoint distinct (l : list string) : bool :=
  match l with
  | [] => true
  | x :: r => negb (existsb (String.eqb x) r) && distinct r
  end.



(** Requests processed one after the other, the store failing nowhere. *)
Fixpoint play {L : EngineLogic} (is_uuid : string -> bool)
    (zod_message : list (string * JSON) -> string) (rid : string)
    (bodies : list ActionBody.t) (w : World) : World :=
  match bodies with
  | [] => w
  | b :: rest =>
      play is_uuid zod_message rid rest
        (snd (respond (post_action is_uuid zod_message reliable rid b) w))
  end.

(** ** Sample data

    A table of two seats with blinds 1/2, a deck in a fixed order, and simple
    stand-ins for what the environment supplies. *)

Definition is_hex (c : ascii) : bool :=
  existsb (Ascii.eqb c) (list_ascii_of_string "0123456789abcdefABCDEF").

Fixpoint shaped (pattern : list bool) (s : string) : bool :=
  match pattern, s with
  | [], EmptyString => true
  | true :: p, String c r => is_hex c && shaped p r
  | false :: p, String c r => Ascii.eqb c "-" && shaped p r
  | _, _ => false
  end.

(** Eight, four, four, four and twelve hexadecimal digits. *)
Definition uuid_shape (s : string) : bool :=
  let hex n := repeat true n in
  shaped (hex 8 ++ false :: hex 4 ++ false :: hex 4 ++ false :: hex 4
            ++ false :: hex 12)%nat s.

Definition sample_deck : list Card :=
  ["2S"; "3S"; "4S"; "5S"; "6S"; "7S"; "8S"; "9S"; "TS"; "JS"; "QS"; "KS"; "AS";
   "2H"; "3H"; "4H"; "5H"; "6H"; "7H"; "8H"; "9H"; "TH"; "JH"; "QH"; "KH"; "AH";
   "2D"; "3D"; "4D"; "5D"; "6D"; "7D"; "8D"; "9D"; "TD"; "JD"; "QD"; "KD"; "AD";
   "2C"; "3C"; "4C"; "5C"; "6C"; "7C"; "8C"; "9C"; "TC"; "JC"; "QC"; "KC"; "AC"].

(** The deck cut at the length of the seed; the empty seed does not parse. *)
Definition sample_shuffle (seed : string) : option (list Card) :=
  if seed =s? "" then None
  else let k := (String.length seed mod 52)%nat in
       Some (skipn k sample_deck ++ firstn k sample_deck).

Fixpoint index_of (c : ascii) (l : list ascii) (i : Z) : option Z :=
  match l with
  | [] => None
  | x :: r => if Ascii.eqb c x then Some i else index_of c r (i + 1)
  end.

Definition card_value (c : Card) : option Z :=
  match c with
  | String r _ => index_of r (list_ascii_of_string "23456789TJQKA") 2
  | EmptyString => None
  end.

(** High card among the hole cards and the board. *)
Fixpoint high_card (l : list Card) : option Z :=
  match l with
  | [] => Some 0
  | c :: r =>
      match card_value c, high_card r with
      | Some v, Some m => Some (Z.max v m)
      | _, _ => None
      end
  end.

Definition sample_strength (hole board : list Card) : option Z :=
  high_card (hole ++ board).

#[local] Instance sample_logic : EngineLogic :=
  spec_logic sample_shuffle "fresh-seed" 4 true sample_strength 0.

Definition alice_uid : string := "11111111-1111-4111-8111-111111111111".
Definition bob_uid : string := "22222222-2222-4222-8222-222222222222".

Definition sample_room : Room.t :=
  Room.mk "room-1" 1 2 0 true false None 0 (Some "double_board_bomb_pot_plo").

Definition alice (stack : Z) : RoomPlayer.t :=
  RoomPlayer.mk "player-a" "room-1" 0 (Some alice_uid) "Alice" 100 stack 0
    false false false.

Definition bob (stack : Z) : RoomPlayer.t :=
  RoomPlayer.mk "player-b" "room-1" 1 (Some bob_uid) "Bob" 100 stack 0
    false false false.

(** Two seats with [a] and [b] chips, no hand in progress. *)
Definition sample_db (a b : Z) : DB :=
  mkDB [sample_room] [alice a; bob b] [] [] [] [] [].

Definition sample_world (a b : Z) : World := mkWorld (sample_db a b) [].

(** The sample table once a hand is dealt from the seed ["seed-1"]. *)
Definition dealt_world (a b : Z) : World :=
  snd (respond (start_hand reliable "state-1" "room-1" (Some "seed-1"))
               (sample_world a b)).

(** A stand-in for the message of the validation library. *)
Definition sample_message (issues : list (string * JSON)) : string := "Invalid input".

Definition request (seat : Z) (action : string) (amt : option Z) (key : option string)
  : ActionBody.t :=
  ActionBody.mk (JInt seat) (JString action)
    (match amt with Some v => JInt v | None => JAbsent end)
    JAbsent
    (match key with Some k => JString k | None => JAbsent end).




(** The row the [actions] handler writes to the action log for a request. *)
Definition logged (roomId : string) (g : GameState.t) (payload : ActionPayload.t)
    (o : Outcome) : PlayerAction.t :=
  PlayerAction.mk roomId (GameState.id g)
    (ActionPayload.seatNumber payload) (ActionPayload.actionType payload)
    (ActionPayload.amount payload)
    (match truthy_id (error o) with Some _ => false | None => true end)
    (error o) (ActionPayload.authUserId payload).

(** Nothing but the action log differs between two stores. *)
Definition same_but_log (d d' : DB) : Prop :=
  rooms d' = rooms d /\ room_players d' = room_players d
  /\ game_states d' = game_states d
  /\ game_state_secrets d' = game_state_secrets d
  /\ player_hands d' = player_hands d /\ hand_results d' = hand_results d.

(** The row-level policy [gss_service_all] of [game_state_secrets]: reads
    and writes [using (auth.role() = 'service_role')]. *)
Definition gss_service_all (role : string) : bool := role =s? "service_role".

(** The rows of [game_state_secrets] a client of the given role can read. *)
Definition readable_secrets (role : string) (d : DB) : list Secret.t :=
  filter (fun _ => gss_service_all role) (game_state_secrets d).

(** The deck seed a response body carries, if any. *)
Definition disclosed_seed (r : Response) : option string :=
  match r with
  | Json _ (BStarted _ seed) => Some seed
  | _ => None
  end.

(** What the caller at a seat is shown of a hand: the seat and its first
    card. *)
Definition shown (h : PlayerHand.t) : Z * list Card :=
  (PlayerHand.seat_number h,
   match IndianPoker.first_card h with Some c => [c] | None => [] end).

(** The request is made by this player of the room: the bearer token stands
    for the user of the player's row. *)
Definition made_by (getUser : string -> option string) (d : DB)
    (req : IndianPoker.Request) (player : RoomPlayer.t) : Prop :=
  exists token uid,
    IndianPoker.bearer req = Some token /\ getUser token = Some uid
    /\ find (fun p => (RoomPlayer.room_id p =s? IndianPoker.roomId req)
                      && match RoomPlayer.auth_user_id p with
                         | Some u => u =s? uid
                         | None => false
                         end) (room_players d) = Some player.

(** The seat holds cards in the game state. *)
Definition in_the_hand (d : DB) (gid : string) (s : Z) : Prop :=
  exists h, In h (player_hands d)
            /\ PlayerHand.game_state_id h = gid /\ PlayerHand.seat_number h = s.

(** An Indian-poker table: seats 0, 1 and 2 hold one card each, seat 5 is a
    spectator. *)
Definition ip_db : DB :=
  mkDB [Room.mk "room-1" 1 2 0 true false (Some 0) 1 (Some "indian_poker")]
       [alice 100; bob 100;
        RoomPlayer.mk "player-c" "room-1" 2 (Some "33333333-3333-4333-8333-333333333333")
          "Carol" 100 100 0 false false false;
        RoomPlayer.mk "player-d" "room-1" 5 (Some "44444444-4444-4444-8444-444444444444")
          "Dan" 100 100 0 false false true]
       [GameState.mk "state-1" "room-1" 1 0 Preflop 0 0 2 [] None]
       []
       [PlayerHand.mk "room-1" "state-1" 2 ["KH"] None;
        PlayerHand.mk "room-1" "state-1" 0 ["AS"] None;
        PlayerHand.mk "room-1" "state-1" 1 ["7D"] None]
       [] [].

Definition ip_users (token : string) : option string :=
  if token =s? "token-alice" then Some alice_uid
  else if token =s? "token-bob" then Some bob_uid
  else if token =s? "token-dan" then Some "44444444-4444-4444-8444-444444444444"
  else None.

(** The partial row names the id [i]. *)
Definition names (i : string) (u : PartialPlayer.t) : bool :=
  match PartialPlayer.id u with
  | Some j => j =s? i
  | None => false
  end.

(** A row of the table under a list of partial rows: it takes the columns of
    the first partial row that names it. *)
Definition overlay (us : list PartialPlayer.t) (p : RoomPlayer.t) : RoomPlayer.t :=
  match find (names (RoomPlayer.id p)) us with
  | Some u => merge_player p u
  | None => p
  end.

(** The entries of a map are keyed by the id of their row, which is not
    empty. *)
Definition keyed (m : list (string * PartialPlayer.t)) : Prop :=
  forall k v, In (k, v) m -> PartialPlayer.id v = Some k /\ k <> "".

(** A sum over the rows of a table. *)
Definition weighted (f : RoomPlayer.t -> Z) (l : list RoomPlayer.t) : Z :=
  fold_right (fun p acc => f p + acc) 0 l.

(** [q] is the row [t] once the seat with id [i] has wagered [w] and taken
    the folded flag [folded]: the identifying columns stay, the stack gives
    the wager. *)
Definition moved (i : string) (w : Z) (folded : bool) (t q : RoomPlayer.t) : Prop :=
  RoomPlayer.id q = RoomPlayer.id t
  /\ RoomPlayer.room_id q = RoomPlayer.room_id t
  /\ RoomPlayer.seat_number q = RoomPlayer.seat_number t
  /\ RoomPlayer.chip_stack q
     = RoomPlayer.chip_stack t - (if RoomPlayer.id t =s? i then w else 0)
  /\ RoomPlayer.has_folded q
     = (if RoomPlayer.id t =s? i then folded else RoomPlayer.has_folded t).

(** Whether the row is still in the hand once the seat with id [i] has the
    folded flag [folded]. *)
Definition stays (i : string) (folded : bool) (t : RoomPlayer.t) : bool :=
  negb (if RoomPlayer.id t =s? i then folded else RoomPlayer.has_folded t).

(** The rows an accepted action returns: the acting seat's, followed by
    every seat's when a street was closed. *)
Definition returned_rows (p0 : RoomPlayer.t) (m : Logic.Move) (adv : bool)
    (players : list RoomPlayer.t) : list RoomPlayer.t :=
  Logic.act p0 m
  :: (if adv
      then map Logic.reset_bet (Logic.replace_player (Logic.act p0 m) players)
      else []).





(** The amounts of a payout, added up. *)
Definition paid (l : list Payout) : Z :=
  fold_right (fun p acc => amount p + acc) 0 l.

(** ** How a handler ends *)

(** A computation that does not answer the request itself. *)
Definition quiet {A} (m : Handler A) : Prop :=
  forall w r, fst (m w) <> Sent r.

(** A computation that ends the request: it answers with a status and a
    body, or throws. *)
Definition answers {A} (m : Handler A) : Prop :=
  forall w, match fst (m w) with
            | Sent (Json _ _) | Thrown _ => True
            | _ => False
            end.


(** Rows in ascending order of their seats. *)
Fixpoint ascending (l : list RoomPlayer.t) : bool :=
  match l with
  | [] => true
  | p :: r =>
      forallb (fun q => RoomPlayer.seat_number p <=? RoomPlayer.seat_number q) r
      && ascending r
  end.


(** A store on which the update of the game state fails. *)
Definition game_state_update_fails : Faults :=
  fun s => match s with UpdateGameState => Some "update failed" | _ => None end.


Definition step_eqb (a b : Step) : bool :=
  match a, b with
  | SelectRoom, SelectRoom | SelectPlayers, SelectPlayers
  | SelectGameState, SelectGameState | SelectSecret, SelectSecret
  | SelectHands, SelectHands | InsertGameState, InsertGameState
  | InsertSecret, InsertSecret | InsertHands, InsertHands
  | UpsertPlayers, UpsertPlayers | UpdateRoom, UpdateRoom
  | DeleteHands, DeleteHands | DeleteSecrets, DeleteSecrets
  | DeleteGameState, DeleteGameState | InsertAction, InsertAction
  | UpdateGameState, UpdateGameState | UpsertCredits, UpsertCredits
  | InsertResult, InsertResult => true
  | _, _ => false
  end.

(** The storage calls fail as [faults] says, but for the call [s], which
    does what [o] says. *)
Definition but_for (s : Step) (o : option string) (faults : Faults) : Faults :=
  fun x => if step_eqb s x then o else faults x.


(** Two worlds with the same engine calls made and the same tables but for
    the action log. *)
Definition agree (w1 w2 : World) : Prop :=
  calls w1 = calls w2 /\ same_but_log (store w1) (store w2).

(** Two computations that, from worlds that agree, give the same result and
    worlds that agree. *)
Definition alike {A} (m1 m2 : Handler A) : Prop :=
  forall w1 w2, agree w1 w2 ->
    fst (m1 w1) = fst (m2 w2) /\ agree (snd (m1 w1)) (snd (m2 w2)).

(** A write whose outcome does not depend on the action log. *)
Definition log_blind (f : DB -> string + DB) : Prop :=
  forall d1 d2, same_but_log d1 d2 ->
    match f d1, f d2 with
    | inl a, inl b => a = b
    | inr a, inr b => same_but_log a b
    | _, _ => False
    end.


(** ** Rooms and seats: the [rooms] and [join] handlers of index.ts

    The two handlers read and write the columns of [rooms] and
    [room_players] named here; [rooms] is given with the columns these
    handlers and the deal route of the web application name.  An inserted
    row takes its [id] from the store. *)

Module RoomRow.
Record t := mk {
  id : string;
  small_blind : Z;
  big_blind : Z;
  min_buy_in : Z;
  max_buy_in : Z;
  max_players : Z;
  bomb_pot_ante : Z;
  inter_hand_delay : Z;
  pause_after_hand : bool;
  owner_auth_user_id : option string;
  is_paused : bool;
  last_activity_at : string }.
End RoomRow.

Record Lobby := mkLobby {
  lobby_rooms : list RoomRow.t;
  lobby_players : list RoomPlayer.t }.

(** [createRoomSchema]: the body of [POST /rooms]; an optional field that
    is absent is [None]. *)
Module CreateRoomBody.
Record t := mk {
  smallBlind : Z;
  bigBlind : Z;
  minBuyIn : Z;
  maxBuyIn : Z;
  maxPlayers : option Z;
  bombPotAnte : option Z;
  interHandDelay : option Z;
  pauseAfterHand : option bool;
  ownerAuthUserId : option string }.
End CreateRoomBody.

(** [joinRoomSchema]: the body of [POST /rooms/:roomId/join]. *)
Module JoinBody.
Record t := mk {
  seatNumber : Z;
  displayName : string;
  buyIn : Z;
  authUserId : option string }.
End JoinBody.

(** The storage calls of the two handlers. *)
Inductive LobbyStep :=
| InsertRoom | SelectRoomRow | SelectSeat | InsertPlayer | TouchRoom.

Inductive LobbyReply :=
| Refused (status : Z) (error : string)
| RoomCreated (room : RoomRow.t)
| PlayerJoined (player : RoomPlayer.t).

Section LobbyHandlers.

(** The [uuid()] format check of the validation library, and the message of
    the error its [parse] throws. *)
Variable is_uuid : string -> bool.
Variable zod_message : string.

(** Which storage calls fail, the identifier the store generates for an
    inserted row, and the time of the request, [new Date().toISOString()]. *)
Variable lobby_faults : LobbyStep -> option string.
Variable new_id : string.
Variable now : string.

Definition within (lo hi : Z) (v : option Z) : bool :=
  match v with Some x => (lo <=? x) && (x <=? hi) | None => true end.

Definition at_least (lo : Z) (v : option Z) : bool :=
  match v with Some x => lo <=? x | None => true end.

Definition createRoomSchema (b : CreateRoomBody.t) : option CreateRoomBody.t :=
  if (0 <? CreateRoomBody.smallBlind b) && (0 <? CreateRoomBody.bigBlind b)
     && (0 <? CreateRoomBody.minBuyIn b) && (0 <? CreateRoomBody.maxBuyIn b)
     && within 2 10 (CreateRoomBody.maxPlayers b)
     && at_least 0 (CreateRoomBody.bombPotAnte b)
     && at_least 0 (CreateRoomBody.interHandDelay b)
     && match CreateRoomBody.ownerAuthUserId b with Some u => is_uuid u | None => true end
  then Some b else None.

(** [from("rooms").insert({...}).select().single()]; [is_paused] is
    [NOT NULL DEFAULT false]. *)
Definition insert_room (p : CreateRoomBody.t) (l : Lobby) : string + (RoomRow.t * Lobby) :=
  match lobby_faults InsertRoom with
  | Some e => inl e
  | None =>
      if existsb (fun r => RoomRow.id r =s? new_id) (lobby_rooms l)
      then inl "duplicate key value violates unique constraint"
      else
        let row :=
          RoomRow.mk new_id
            (CreateRoomBody.smallBlind p) (CreateRoomBody.bigBlind p)
            (CreateRoomBody.minBuyIn p) (CreateRoomBody.maxBuyIn p)
            (or_else (CreateRoomBody.maxPlayers p) 9)
            (or_else (CreateRoomBody.bombPotAnte p) 0)
            (or_else (CreateRoomBody.interHandDelay p) 5)
            (or_else (CreateRoomBody.pauseAfterHand p) false)
            (CreateRoomBody.ownerAuthUserId p)
            false now in
        inr (row, mkLobby (lobby_rooms l ++ [row]) (lobby_players l))
  end.

(** [POST /rooms].  The error of the insert is thrown as it is, an object
    that is not an [Error]: the [catch] answers "Unknown error". *)
Definition create_room (body : CreateRoomBody.t) (l : Lobby) : LobbyReply * Lobby :=
  match createRoomSchema body with
  | None => (Refused 400 zod_message, l)
  | Some payload =>
      if CreateRoomBody.bigBlind payload <=? CreateRoomBody.smallBlind payload
      then (Refused 400 "bigBlind must be greater than smallBlind", l)
      else if CreateRoomBody.maxBuyIn payload <? CreateRoomBody.minBuyIn payload
      then (Refused 400 "maxBuyIn must be >= minBuyIn", l)
      else match insert_room payload l with
           | inl _ => (Refused 400 "Unknown error", l)
           | inr (row, l') => (RoomCreated row, l')
           end
  end.

Definition joinRoomSchema (b : JoinBody.t) : option JoinBody.t :=
  if (0 <=? JoinBody.seatNumber b)
     && negb (JoinBody.displayName b =s? "")
     && (0 <? JoinBody.buyIn b)
     && match JoinBody.authUserId b with Some u => is_uuid u | None => true end
  then Some b else None.

(** [from("rooms").select("*").eq("id", roomId).single()], read as
    [if (roomErr || !room)]: an error and no row are the same to the
    handler. *)
Definition room_row (roomId : string) (l : Lobby) : option RoomRow.t :=
  match lobby_faults SelectRoomRow with
  | Some _ => None
  | None => find (fun r => RoomRow.id r =s? roomId) (lobby_rooms l)
  end.

Definition at_seat (roomId : string) (seat : Z) (p : RoomPlayer.t) : bool :=
  (RoomPlayer.room_id p =s? roomId) && (RoomPlayer.seat_number p =? seat).

(** [const { data: existing } = await ...eq("room_id", roomId)
    .eq("seat_number", seat).maybeSingle()]: the row when exactly one row
    matches; no row gives [null], and so do a failed call and several
    matching rows, whose error is not read. *)
Definition existing (roomId : string) (seat : Z) (l : Lobby) : option RoomPlayer.t :=
  match lobby_faults SelectSeat with
  | Some _ => None
  | None =>
      match filter (at_seat roomId seat) (lobby_players l) with
      | [p] => Some p
      | _ => None
      end
  end.

(** The insert into [room_players]: the columns given, the others at their
    defaults (as in [complete]). *)
Definition insert_player (roomId : string) (p : JoinBody.t) (l : Lobby)
  : string + (RoomPlayer.t * Lobby) :=
  match lobby_faults InsertPlayer with
  | Some e => inl e
  | None =>
      if existsb (has_id new_id) (lobby_players l)
      then inl "duplicate key value violates unique constraint"
      else
        let row :=
          RoomPlayer.mk new_id roomId (JoinBody.seatNumber p) (JoinBody.authUserId p)
            (JoinBody.displayName p) (JoinBody.buyIn p) (JoinBody.buyIn p)
            0 false false false in
        inr (row, mkLobby (lobby_rooms l) (lobby_players l ++ [row]))
  end.

(** The row with [last_activity_at] set to the time of the request. *)
Definition touched (r : RoomRow.t) : RoomRow.t :=
  RoomRow.mk (RoomRow.id r) (RoomRow.small_blind r) (RoomRow.big_blind r)
    (RoomRow.min_buy_in r) (RoomRow.max_buy_in r) (RoomRow.max_players r)
    (RoomRow.bomb_pot_ante r) (RoomRow.inter_hand_delay r)
    (RoomRow.pause_after_hand r) (RoomRow.owner_auth_user_id r)
    (RoomRow.is_paused r) now.

(** [from("rooms").update({ last_activity_at }).eq("id", roomId)]; the
    result of the call is not read, and a call that fails changes nothing. *)
Definition touch_room (roomId : string) (l : Lobby) : Lobby :=
  match lobby_faults TouchRoom with
  | Some _ => l
  | None =>
      mkLobby (map (fun r => if RoomRow.id r =s? roomId then touched r else r)
                   (lobby_rooms l))
              (lobby_players l)
  end.

(** [POST /rooms/:roomId/join].  The error of the insert is thrown as it
    is, an object that is not an [Error]: the [catch] answers "Unknown
    error". *)
Definition join_room (roomId : string) (body : JoinBody.t) (l : Lobby)
  : LobbyReply * Lobby :=
  match joinRoomSchema body with
  | None => (Refused 400 zod_message, l)
  | Some payload =>
      match room_row roomId l with
      | None => (Refused 404 "Room not found", l)
      | Some room =>
          if (JoinBody.buyIn payload <? RoomRow.min_buy_in room)
             || (RoomRow.max_buy_in room <? JoinBody.buyIn payload)
          then (Refused 400 "Buy-in out of range", l)
          else
            match existing roomId (JoinBody.seatNumber payload) l with
            | Some _ => (Refused 400 "Seat already taken", l)
            | None =>
                match insert_player roomId payload l with
                | inl _ => (Refused 400 "Unknown error", l)
                | inr (row, l') => (PlayerJoined row, touch_room roomId l')
                end
            end
      end
  end.

End LobbyHandlers.

(** The seats held in a lobby, as (room, seat) pairs. *)
Definition seats_held (l : Lobby) : list (string * Z) :=
  map (fun p => (RoomPlayer.room_id p, RoomPlayer.seat_number p)) (lobby_players l).

(** A store of the lobby that fails nowhere, and one on which the lookup of
    the seat fails. *)
Definition lobby_reliable : LobbyStep -> option string := fun _ => None.

Definition seat_lookup_fails : LobbyStep -> option string :=
  fun s => match s with SelectSeat => Some "fetch failed" | _ => None end.

(** A room for two with buy-ins from 50 to 200, and its two seats taken. *)
Definition small_room : RoomRow.t :=
  RoomRow.mk "room-2" 1 2 50 200 2 0 5 false None false "2025-12-01T10:00:00.000Z".

Definition full_lobby : Lobby :=
  mkLobby [small_room]
    [RoomPlayer.mk "p-0" "room-2" 0 None "Ann" 100 100 0 false false false;
     RoomPlayer.mk "p-1" "room-2" 1 None "Ben" 100 100 0 false false false].


(** ** The deal route of the web application

    [POST /api/game/deal-hand].  The schema of the body, the user of the
    session and the deal itself come from modules that are not among the
    sources: the route takes them as given. *)

(** What the route's [catch] tells apart: a [ZodError], with the message
    of its first issue, and any other exception. *)
Inductive Failure :=
| ZodError (first_issue : string)
| OtherError.

Inductive RouteReply :=
| Failed (status : Z) (error : string)
| Dealt (gameState : GameState.t).

Record RouteEnv := mkRouteEnv {
  supabase_url : option string;
  service_role_key : option string }.

(** [getServiceClient]: whether it returns a client.  It throws when the
    URL or the key is missing or empty, and so does [createClient] for a URL
    or a key it does not take; [createClient url key] says whether the
    library returns a client. *)
Definition getServiceClient (createClient : string -> string -> bool) (env : RouteEnv)
  : bool :=
  match supabase_url env, service_role_key env with
  | Some u, Some k => negb (u =s? "") && negb (k =s? "") && createClient u k
  | _, _ => false
  end.

Definition caught (f : Failure) : RouteReply :=
  match f with
  | ZodError m => Failed 400 m
  | OtherError => Failed 500 "Internal server error"
  end.

Section DealRoute.

Variable RequestBody : Type.

(** [dealHandSchema.parse]: the room id, or the first issue of the
    [ZodError] it throws. *)
Variable dealHandSchema : RequestBody -> string + string.

(** [dealHandLogic(roomId, userId)]: the game state, or what it throws. *)
Variable dealHandLogic : string -> string -> Failure + GameState.t.

(** [createClient] of the storage library: whether it returns a client for
    a URL and a key. *)
Variable createClient : string -> string -> bool.

(** The route: the reply, and the calls of [dealHandLogic] it made.  [json]
    is the parsed body, [None] when the body cannot be read as an object
    ([request.json()] or [Object.keys(body)] throws); [user] is the id of the
    user [getAuthUser] finds; [select_fails] says whether the read of the
    room fails. *)
Definition deal_route (json : option RequestBody) (user : option string)
    (env : RouteEnv) (select_fails : bool) (rooms : list RoomRow.t)
  : RouteReply * list (string * string) :=
  match json with
  | None => (caught OtherError, [])
  | Some body =>
      match dealHandSchema body with
      | inl issue => (caught (ZodError issue), [])
      | inr roomId =>
          match user with
          | None => (Failed 401 "Unauthorized", [])
          | Some uid =>
              if negb (getServiceClient createClient env) then (caught OtherError, [])
              else
                match (if select_fails then None
                       else find (fun r => RoomRow.id r =s? roomId) rooms) with
                | None => (Failed 404 "Room not found", [])
                | Some room =>
                    if negb (match RoomRow.owner_auth_user_id room with
                             | Some o => o =s? uid
                             | None => false
                             end)
                    then (Failed 403 "Only the room owner can start the hand", [])
                    else if RoomRow.is_paused room
                    then (Failed 400 "Game is paused. Unpause to deal the next hand.", [])
                    else
                      match dealHandLogic roomId uid with
                      | inl f => (caught f, [(roomId, uid)])
                      | inr gs => (Dealt gs, [(roomId, uid)])
                      end
                end
          end
      end
  end.

End DealRoute.

(** ** The engine client of the web application *)

(** [s.replace(/\/+$/, "")]: the string without the slashes at its end. *)
Fixpoint strip_trailing_slashes (s : string) : string :=
  match s with
  | EmptyString => EmptyString
  | String c r =>
      let r' := strip_trailing_slashes r in
      if Ascii.eqb c "/" && (r' =s? "") then EmptyString else String c r'
  end.

(** [const baseUrl = (process.env.NEXT_PUBLIC_ENGINE_URL ?? "")
    .replace(/\/+$/, "")] *)
Definition baseUrl (env : option string) : string :=
  strip_trailing_slashes (or_else env "").

Definition getEngineUrl (env : option string) : string + string :=
  if baseUrl env =s? ""
  then inl "NEXT_PUBLIC_ENGINE_URL is not set. Please set it to your engine base URL (e.g. https://engine.example.com)."
  else inr (baseUrl env).

(** [engineFetch(path, init)]: the URL it fetches, or the error of
    [getEngineUrl]. *)
Definition engineFetch (env : option string) (path : string) : string + string :=
  match getEngineUrl env with
  | inl e => inl e
  | inr base =>
      inr (String.append base
             (if String.prefix "/" path then path else String.append "/" path))
  end.

Fixpoint slashes (k : nat) : string :=
  match k with
  | O => EmptyString
  | S n => String "/" (slashes n)
  end.

(** ** Room membership (the security migration) *)

(** The caller of a statement: [auth.role()] and [auth.uid()]. *)
Record Caller := mkCaller {
  role : string;
  uid : option string }.

Module Member.
Record t := mk {
  room_id : string;
  auth_user_id : option string;
  anon_session_id : option string;
  is_active : bool }.
End Member.

(** The check constraint [must_have_user_or_session]. *)
Definition must_have_user_or_session (m : Member.t) : bool :=
  match Member.auth_user_id m, Member.anon_session_id m with
  | Some _, None | None, Some _ => true
  | _, _ => false
  end.

(** [auth.uid() = auth_user_id] as a policy reads it: true only when
    neither side is [null] and they are equal. *)
Definition is_uid (c : Caller) (a : option string) : bool :=
  match uid c, a with
  | Some u, Some x => u =s? x
  | _, _ => false
  end.

(** The policy [room_members_self_insert]. *)
Definition room_members_self_insert (c : Caller) (m : Member.t) : bool :=
  is_uid c (Member.auth_user_id m)
  || match uid c, Member.anon_session_id m with
     | None, Some _ => true
     | _, _ => false
     end.

(** The policy [room_members_write_service], [for all]. *)
Definition room_members_write_service (c : Caller) : bool :=
  role c =s? "service_role".

(** The constraints [unique_auth_membership] and [unique_anon_membership];
    a [null] is equal to nothing. *)
Definition same_member (a b : option string) : bool :=
  match a, b with
  | Some x, Some y => x =s? y
  | _, _ => false
  end.

Definition already_member (m : Member.t) (tbl : list Member.t) : bool :=
  existsb (fun x => (Member.room_id x =s? Member.room_id m)
                    && (same_member (Member.auth_user_id x) (Member.auth_user_id m)
                        || same_member (Member.anon_session_id x)
                                       (Member.anon_session_id m))) tbl.

(** An insert into [room_members] by a caller: the policies for inserts
    (either one admits the row), then the constraints. *)
Definition insert_member (c : Caller) (m : Member.t) (tbl : list Member.t)
  : string + list Member.t :=
  if negb (room_members_write_service c || room_members_self_insert c m)
  then inl "new row violates row-level security policy"
  else if negb (must_have_user_or_session m)
  then inl "new row violates check constraint"
  else if already_member m tbl
  then inl "duplicate key value violates unique constraint"
  else inr (tbl ++ [m]).

(** The function [public.is_room_member]. *)
Definition is_room_member (c : Caller) (tbl : list Member.t) (room_id_param : string)
  : bool :=
  if role c =s? "service_role" then true
  else match uid c with
       | Some u =>
           existsb (fun m => (Member.room_id m =s? room_id_param)
                             && same_member (Member.auth_user_id m) (Some u)
                             && Member.is_active m) tbl
       | None => true
       end.



(** * Properties of the handlers *)

(** ** Lists and strings *)


Lemma filter_drop {A} (f : A -> bool) (l : list A) :
  forallb (fun x => negb (f x)) l = true -> filter f l = [].
Proof.
  induction l as [|x l IH]; simpl; intros H; [reflexivity|].
  apply andb_prop in H as [Hx Hl]. apply negb_true_iff in Hx.
  rewrite Hx. auto.
Qed.


Lemma eqs_refl (s : string) : (s =s? s) = true.
Proof. apply String.eqb_refl. Qed.

(** ** The idempotency key *)

(** C4 (as amended).  The action handler accepts an idempotency key and never
    reads it: whatever key a request carries, or none, the handler answers
    the same and leaves the same store. *)
Theorem idempotency_key_is_ignored :
  forall (L : EngineLogic) (is_uuid : string -> bool)
         (zod_message : list (string * JSON) -> string) (faults : Faults)
         (roomId : string) (body : ActionBody.t) (k k' : option string) (w : World),
    respond (post_action is_uuid zod_message faults roomId (with_key k body)) w
    = respond (post_action is_uuid zod_message faults roomId (with_key k' body)) w.
Proof.
  intros. unfold post_action, actionSchema, actionIssues, with_key.
  cbn [ActionBody.seatNumber ActionBody.actionType ActionBody.amount
       ActionBody.authUserId ActionBody.idempotencyKey].
  destruct k, k'; cbn [idempotencyKey_of issue];
    destruct (seatNumber_of _), (actionType_of _), (amount_of _),
             (authUserId_of is_uuid _); reflexivity.
Qed.

(** C4, the claim as stated fails.  Bob is all-in before the flop and Alice
    checks, with the key ["k"]: the street closes and the flop is dealt.  The
    same request again, same key, is applied once more: the turn is dealt and
    a second row enters the action log. *)
Lemma retried_action_is_applied_again :
  let body := request 0 "check" None (Some "k") in
  let before :=
    snd (respond (post_action uuid_shape sample_message reliable "room-1"
                    (request 1 "all_in" None None)) (dealt_world 100 2)) in
  let once := respond (post_action uuid_shape sample_message reliable "room-1" body) before in
  let twice := respond (post_action uuid_shape sample_message reliable "room-1" body) (snd once) in
  is_ok (fst once) = true
  /\ map GameState.phase (game_states (store (snd once))) = [Flop]
  /\ map GameState.phase (game_states (store (snd twice))) = [Turn]
  /\ fst twice <> fst once
  /\ List.length (player_actions (store (snd twice)))
     = S (List.length (player_actions (store (snd once)))).
Proof.
  vm_compute. repeat split; try reflexivity. discriminate.
Qed.

(** ** Dealing a hand *)

Ltac split_match H :=
  match type of H with
  | context [match ?x with _ => _ end] =>
      lazymatch x with
      | context [match _ with _ => _ end] => fail
      | _ => destruct x eqn:?
      end
  end.









(** ** The [actions] handler, step by step *)

Lemma post_action_found (L : EngineLogic) (is_uuid : string -> bool)
         (zod_message : list (string * JSON) -> string) (faults : Faults)
    (roomId : string) (body : ActionBody.t) (payload : ActionPayload.t) (w : World)
    (room : Room.t) (g : GameState.t) (secret : Secret.t) :
  actionSchema is_uuid body = Some payload ->
  faults SelectRoom = None -> faults SelectGameState = None ->
  faults SelectSecret = None -> faults SelectPlayers = None ->
  found roomId (store w) = Some (room, g, secret) ->
  respond (post_action is_uuid zod_message faults roomId body) w
  = respond
      (try_catch
         (persist_outcome faults roomId payload g secret (players_of roomId (store w))
            (outcome_for roomId payload (store w) room g secret))
         (fun err => send 500 (BError (message_of err))))
      (mkWorld (store w)
         (calls w ++ [CallApply (ActionPayload.seatNumber payload)
                        (ActionPayload.actionType payload)
                        (ActionPayload.amount payload)])).
Proof.
  intros E F1 F2 F3 F4 H. unfold found in H.
  destruct (find _ (rooms (store w))) as [room'|] eqn:Er; [|discriminate].
  destruct (latest_game_state roomId (store w)) as [g'|] eqn:Eg; [|discriminate].
  destruct (find _ (game_state_secrets (store w))) as [s'|] eqn:Es; [|discriminate].
  inversion H; subst; clear H.
  unfold post_action. rewrite E.
  unfold respond, try_catch, fetchRoom, fetchLatestGameState, fetchGameStateSecret,
    fetchPlayers, select, bind, query, record_call, outcome_for.
  rewrite F1, F2, F3, F4. cbv beta iota zeta. simpl store.
  rewrite Er. cbv beta iota zeta. simpl store. rewrite Eg. cbv beta iota zeta. simpl store.
  rewrite Es. cbv beta iota zeta. simpl store. simpl calls. reflexivity.
Qed.

Lemma post_action_not_found (L : EngineLogic) (is_uuid : string -> bool)
         (zod_message : list (string * JSON) -> string) (faults : Faults)
    (roomId : string) (body : ActionBody.t) (payload : ActionPayload.t) (w : World) :
  actionSchema is_uuid body = Some payload ->
  found roomId (store w) = None ->
  is_ok (fst (respond (post_action is_uuid zod_message faults roomId body) w)) = false
  /\ snd (respond (post_action is_uuid zod_message faults roomId body) w) = w.
Proof.
  intros E H. unfold found in H. unfold post_action. rewrite E.
  unfold respond, try_catch, fetchRoom, fetchLatestGameState, fetchGameStateSecret,
    fetchPlayers, select, bind, query, send, throw.
  destruct (faults SelectRoom); cbv beta iota zeta; [split; reflexivity|].
  destruct (find _ (rooms (store w))) as [room'|] eqn:Er; cbv beta iota zeta;
    [|split; reflexivity].
  destruct (faults SelectGameState); cbv beta iota zeta; [split; reflexivity|].
  destruct (latest_game_state roomId (store w)) as [g'|] eqn:Eg; cbv beta iota zeta;
    [|split; reflexivity].
  destruct (faults SelectSecret); cbv beta iota zeta; [split; reflexivity|].
  destruct (find _ (game_state_secrets (store w))) as [s'|] eqn:Es; [discriminate|].
  cbv beta iota zeta. split; reflexivity.
Qed.

(** ** Rejected actions *)

(** C6.  A rejected action is not applied.  A body the schema refuses is
    answered 400 with the message of the validation library and the world
    untouched; a request that finds no room, no active hand or no secret is
    answered with an error and the world untouched; and when the action
    processor rejects the action with reason [e] (OutOfTurn, IllegalAction,
    ...; the handler tests the reason for truthiness, so [e] is not the
    empty string), the caller is answered 400 with [e], no table of the
    store changes except the action log, and the log gains at most the entry
    of the rejected request. *)
Theorem rejected_action_changes_no_state :
  forall (L : EngineLogic) (is_uuid : string -> bool)
         (zod_message : list (string * JSON) -> string) (faults : Faults)
         (roomId : string) (body : ActionBody.t) (w : World),
    let r := respond (post_action is_uuid zod_message faults roomId body) w in
    (actionSchema is_uuid body = None ->
       fst r = Json 400 (BError (zod_message (actionIssues is_uuid body)))
       /\ snd r = w)
    /\ (forall payload,
          actionSchema is_uuid body = Some payload ->
          found roomId (store w) = None ->
          is_ok (fst r) = false /\ snd r = w)
    /\ (forall payload room g secret e,
          actionSchema is_uuid body = Some payload ->
          faults SelectRoom = None -> faults SelectGameState = None ->
          faults SelectSecret = None -> faults SelectPlayers = None ->
          found roomId (store w) = Some (room, g, secret) ->
          error (outcome_for roomId payload (store w) room g secret) = Some e ->
          (e =s? "") = false ->
          fst r = Json 400 (BError e)
          /\ same_but_log (store w) (store (snd r))
          /\ (player_actions (store (snd r)) = player_actions (store w)
              \/ player_actions (store (snd r))
                 = player_actions (store w)
                   ++ [logged roomId g payload
                         (outcome_for roomId payload (store w) room g secret)])).
Proof.
  intros L is_uuid zod_message faults roomId body w r. subst r. split; [|split].
  - intros E. unfold post_action. rewrite E. split; reflexivity.
  - intros payload E H.
    apply (post_action_not_found L is_uuid zod_message faults _ _ _ _ E H).
  - intros payload room g secret e E F1 F2 F3 F4 H He Hne.
    rewrite (post_action_found L is_uuid zod_message faults _ _ _ _ _ _ _ E F1 F2 F3 F4 H).
    assert (Ht : truthy_id (error (outcome_for roomId payload (store w) room g secret))
                 = Some e).
    { rewrite He. unfold truthy_id. rewrite Hne. reflexivity. }
    unfold respond, try_catch, persist_outcome, bind, write, send.
    rewrite Ht. unfold logged. rewrite Ht.
    destruct (faults InsertAction); cbv beta iota zeta; simpl.
    + repeat split; try reflexivity. left; reflexivity.
    + repeat split; try reflexivity. right; reflexivity.
Qed.

(** After the deal on the sample table it is Bob's turn (seat 1): a check
    from Alice (seat 0) is answered 400 "OutOfTurn" and neither the game
    state nor a stack changes. *)
Lemma rejected_action_changes_no_state_witness :
  let w := dealt_world 100 100 in
  let r := respond (post_action uuid_shape sample_message reliable "room-1"
                      (request 0 "check" None None)) w in
  fst r = Json 400 (BError "OutOfTurn")
  /\ same_but_log (store w) (store (snd r)).
Proof.
  intros w r.
  destruct (found "room-1" (store w)) as [[[room g] secret]|] eqn:Ef;
    [|vm_compute in Ef; discriminate Ef].
  destruct (rejected_action_changes_no_state sample_logic uuid_shape sample_message
              reliable "room-1" (request 0 "check" None None) w) as (_ & _ & H).
  specialize (H (ActionPayload.mk 0 ACheck None None None) room g secret "OutOfTurn"
                eq_refl eq_refl eq_refl eq_refl eq_refl Ef).
  assert (He : error (outcome_for "room-1" (ActionPayload.mk 0 ACheck None None None)
                        (store w) room g secret) = Some "OutOfTurn").
  { vm_compute in Ef. inversion Ef; subst. vm_compute. reflexivity. }
  destruct (H He eq_refl) as (H1 & H2 & _). split; assumption.
Defined.

(** ** The game-state row and the hand in progress *)

Lemma forallb_filter {A} (f : A -> bool) (l : list A) :
  forallb f (filter f l) = true.
Proof.
  induction l as [|x l IH]; simpl; [reflexivity|].
  destruct (f x) eqn:E; simpl; [rewrite E|]; exact IH.
Qed.

Lemma greatest_hand_in (l : list GameState.t) (g : GameState.t) :
  greatest_hand l = Some g -> In g l.
Proof.
  revert g. induction l as [|x l IH]; simpl; intros g H; [discriminate|].
  destruct (greatest_hand l) as [h|].
  - destruct (GameState.hand_number x <? GameState.hand_number h);
      inversion H; subst; auto.
  - inversion H; subst; auto.
Qed.

Lemma latest_game_state_in (rid : string) (d : DB) (g : GameState.t) :
  latest_game_state rid d = Some g ->
  In g (game_states d) /\ GameState.room_id g = rid.
Proof.
  intros H. apply greatest_hand_in, filter_In in H as [H1 H2].
  split; [assumption | apply String.eqb_eq; assumption].
Qed.

Lemma upsert_players_frame (us : list PartialPlayer.t) (d d' : DB) :
  upsert_players us d = inr d' ->
  d' = set_room_players (room_players d') d.
Proof.
  unfold upsert_players. destruct (repeats _); [discriminate|].
  destruct (upsert_rows _ _); [discriminate|].
  intros H. inversion H; subst. reflexivity.
Qed.

Lemma settle_hand_frame (L : EngineLogic) (faults : Faults) (roomId : string)
    (g : GameState.t) (secret : Secret.t) (players : list RoomPlayer.t) (o : Outcome)
    (pot : Z) (w w' : World) (res : Res unit) :
  settle_hand faults roomId g secret players o pot w = (res, w') ->
  game_states (store w') = game_states (store w)
  /\ game_state_secrets (store w') = game_state_secrets (store w)
  /\ forall r, res <> Sent r.
Proof.
  unfold settle_hand, select, check, write, bind, query, throw, ret, record_call.
  intros H. cbv beta iota zeta in H.
  repeat (split_match H; cbv beta iota zeta in H).
  all: inversion H; subst; clear H; simpl.
  all: repeat match goal with
       | E : upsert_players _ _ = inr _ |- _ =>
           apply upsert_players_frame in E; rewrite E; clear E
       end.
  all: repeat split; try reflexivity; intros r0 Hr; discriminate Hr.
Qed.

Lemma finish_hand_deletes (L : EngineLogic) (faults : Faults) (roomId : string)
    (g : GameState.t) (secret : Secret.t) (players : list RoomPlayer.t) (o : Outcome)
    (w w' : World) (res : Res unit) :
  finish_hand faults roomId g secret players o w = (res, w') ->
  (forall r, res <> Sent r)
  /\ (forall u, res = Val u ->
        forallb (fun h => negb (GameState.id h =s? GameState.id g))
                (game_states (store w')) = true
        /\ forallb (fun s => negb (Secret.game_state_id s =s? GameState.id g))
                   (game_state_secrets (store w')) = true).
Proof.
  unfold finish_hand, bind, ret, check, write, throw. intros H.
  destruct (truthy_array _ && truthy_number _).
  - destruct (settle_hand _ _ _ _ _ _ _ _) as [res1 w1] eqn:Es.
    apply settle_hand_frame in Es as (_ & _ & Hn).
    destruct res1 as [[]|r|e]; [|destruct (Hn r eq_refl)|].
    + destruct (faults DeleteGameState); inversion H; subst; clear H;
        (split; [intros r Hr; discriminate Hr|intros u Hu; try discriminate Hu]).
      simpl. split; apply forallb_filter.
    + inversion H; subst. split; [intros r Hr|intros u Hu]; discriminate.
  - destruct (faults DeleteGameState); inversion H; subst; clear H;
      (split; [intros r Hr; discriminate Hr|intros u Hu; try discriminate Hu]).
    simpl. split; apply forallb_filter.
Qed.

Lemma bind_inv {A B} (m : Handler A) (k : A -> Handler B) (w w' : World) (res : Res B) :
  bind m k w = (res, w') ->
  (exists a w1, m w = (Val a, w1) /\ k a w1 = (res, w'))
  \/ (exists r, m w = (Sent r, w') /\ res = Sent r)
  \/ (exists e, m w = (Thrown e, w') /\ res = Thrown e).
Proof.
  unfold bind. destruct (m w) as [[a|r|e] w1]; intros H.
  - left. exists a, w1. split; [reflexivity|assumption].
  - right; left. inversion H; subst. exists r. split; reflexivity.
  - right; right. inversion H; subst. exists e. split; reflexivity.
Qed.

Lemma write_inv (faults : Faults) (s : Step) (f : DB -> string + DB) (w w' : World)
    (res : Res (option string)) :
  write faults s f w = (res, w') ->
  (exists e, res = Val (Some e) /\ w' = w)
  \/ (exists d, res = Val None /\ faults s = None /\ f (store w) = inr d
                /\ w' = mkWorld d (calls w)).
Proof.
  unfold write. destruct (faults s).
  - intros H; inversion H; subst. left. eexists; split; reflexivity.
  - destruct (f (store w)) as [e|d]; intros H; inversion H; subst.
    + left. eexists; split; reflexivity.
    + right. exists d. repeat split; reflexivity.
Qed.

Lemma check_inv (e : option string) (w w' : World) (res : Res unit) :
  check e w = (res, w') ->
  w' = w /\ ((e = None /\ res = Val tt)
             \/ (exists m, e = Some m /\ res = Thrown (StoreError m))).
Proof.
  destruct e; simpl; intros H; inversion H; subst; split; try reflexivity.
  - right. eexists; split; reflexivity.
  - left. split; reflexivity.
Qed.

(** One step of a handler: the first computation of a [bind] in [H] is run,
    and the cases where it answered or threw are closed when they
    contradict the goal. *)
Ltac bind_step H a w1 E :=
  apply bind_inv in H as [(a & w1 & E & H) | [(? & E & H) | (? & E & H)]].

Lemma persist_outcome_ok (L : EngineLogic) (faults : Faults) (roomId : string)
    (payload : ActionPayload.t) (g : GameState.t) (secret : Secret.t)
    (players : list RoomPlayer.t) (o : Outcome) (w w' : World) (r : Response) :
  persist_outcome faults roomId payload g secret players o w = (Sent r, w') ->
  is_ok r = true ->
  truthy_id (error o) = None
  /\ (handCompleted o = true ->
        forallb (fun h => negb (GameState.id h =s? GameState.id g))
                (game_states (store w')) = true
        /\ forallb (fun s => negb (Secret.game_state_id s =s? GameState.id g))
                   (game_state_secrets (store w')) = true)
  /\ (handCompleted o = false ->
        game_states (store w')
        = map (fun h => if GameState.id h =s? GameState.id g
                        then merge_game_state h (updatedGameState o) else h)
              (game_states (store w))).
Proof.
  unfold persist_outcome. intros H Hok.
  bind_step H a1 w1 E1; [| | discriminate H].
  2:{ apply write_inv in E1 as [(? & E1 & _) | (? & E1 & _)]; discriminate E1. }
  assert (G1 : game_states (store w1) = game_states (store w)).
  { apply write_inv in E1 as [(? & _ & ->) | (? & _ & _ & Ef & ->)]; [reflexivity|].
    inversion Ef; subst. reflexivity. }
  clear E1. destruct (truthy_id (error o)) as [e|] eqn:Ee.
  { inversion H; subst. discriminate Hok. }
  split; [reflexivity|].
  bind_step H a2 w2 E2; [| | discriminate H].
  2:{ destruct (is_empty _); [discriminate E2|].
      bind_step E2 a3 w3 E3; [| | discriminate E2].
      - apply check_inv in E2 as [_ [[_ E2] | (? & _ & E2)]]; discriminate E2.
      - apply write_inv in E3 as [(? & E3 & _) | (? & E3 & _)]; discriminate E3. }
  assert (G2 : game_states (store w2) = game_states (store w)).
  { rewrite <- G1. destruct (is_empty _); [inversion E2; subst; reflexivity|].
    bind_step E2 a3 w3 E3; [| discriminate E2 | discriminate E2].
    apply check_inv in E2 as [-> _].
    apply write_inv in E3 as [(? & _ & ->) | (? & _ & _ & Ef & ->)]; [reflexivity|].
    apply upsert_players_frame in Ef. simpl. rewrite Ef. reflexivity. }
  clear E2 G1.
  bind_step H a3 w3 E3; [| | discriminate H].
  2:{ apply write_inv in E3 as [(? & E3 & _) | (? & E3 & _)]; discriminate E3. }
  bind_step H a4 w4 E4; [| | discriminate H].
  2:{ apply check_inv in E4 as [_ [[_ E4] | (? & _ & E4)]]; discriminate E4. }
  apply check_inv in E4 as [-> [[-> _] | (? & _ & E4)]]; [|discriminate E4].
  apply write_inv in E3 as [(? & E3 & _) | (? & _ & _ & Ef & ->)]; [discriminate E3|].
  inversion Ef; subst; clear Ef.
  bind_step H a5 w5 E5; [| | discriminate H].
  - destruct (handCompleted o).
    + apply finish_hand_deletes in E5 as [_ E5]. specialize (E5 _ eq_refl).
      inversion H; subst. split; [intros _; exact E5 | intros Hc; discriminate Hc].
    + inversion E5; subst. inversion H; subst.
      split; [intros Hc; discriminate Hc|]. intros _. simpl. rewrite G2. reflexivity.
  - destruct (handCompleted o); [|discriminate E5].
    apply finish_hand_deletes in E5 as [E5 _]. destruct (E5 _ eq_refl).
Qed.

(** C9.  The game-state row is there exactly while the hand is in progress.
    (a) With no game-state row for the room, an action is answered 400 "No
    active hand" and nothing is applied.  (b) When the handler answers an
    action with success, the outcome carries no error that the handler's
    test [if (outcome.error)] sees, and: if the action completed the hand,
    no game-state row
    (and no secrets row) of that hand is left in the store; if it did not,
    the game-state row is still there, updated. *)
Theorem game_state_row_marks_the_hand :
  forall (L : EngineLogic) (is_uuid : string -> bool)
         (zod_message : list (string * JSON) -> string) (faults : Faults)
         (roomId : string) (body : ActionBody.t) (payload : ActionPayload.t) (w : World),
    actionSchema is_uuid body = Some payload ->
    faults SelectRoom = None -> faults SelectGameState = None ->
    faults SelectSecret = None -> faults SelectPlayers = None ->
    let r := respond (post_action is_uuid zod_message faults roomId body) w in
    (forall room,
        find (fun x => Room.id x =s? roomId) (rooms (store w)) = Some room ->
        latest_game_state roomId (store w) = None ->
        fst r = Json 400 (BError "No active hand") /\ snd r = w)
    /\ (forall room g secret,
          found roomId (store w) = Some (room, g, secret) ->
          is_ok (fst r) = true ->
          let o := outcome_for roomId payload (store w) room g secret in
          truthy_id (error o) = None
          /\ (handCompleted o = true ->
                existsb (fun h => GameState.id h =s? GameState.id g)
                        (game_states (store (snd r))) = false
                /\ existsb (fun s => Secret.game_state_id s =s? GameState.id g)
                           (game_state_secrets (store (snd r))) = false)
          /\ (handCompleted o = false ->
                In (merge_game_state g (updatedGameState o))
                   (game_states (store (snd r))))).
Proof.
  intros L is_uuid zod_message faults roomId body payload w E F1 F2 F3 F4 r. subst r. split.
  - intros room Hr Hg. unfold post_action. rewrite E.
    unfold respond, try_catch, fetchRoom, fetchLatestGameState, select, bind, query, send.
    rewrite F1, F2. cbv beta iota zeta. rewrite Hr. cbv beta iota zeta.
    rewrite Hg. split; reflexivity.
  - intros room g secret Hf Hok o.
    rewrite (post_action_found L is_uuid zod_message faults _ _ _ _ _ _ _ E F1 F2 F3 F4 Hf) in *.
    fold o in Hok |- *.
    unfold respond, try_catch in Hok |- *.
    destruct (persist_outcome _ _ _ _ _ _ _ _) as [[u|r|e] w1] eqn:Ep;
      simpl in Hok; try discriminate Hok.
    simpl fst in *; simpl snd in *.
    destruct (persist_outcome_ok _ _ _ _ _ _ _ _ _ _ _ Ep Hok) as (He & Hc & Hn).
    split; [exact He|]. split.
    + intros Hd. destruct (Hc Hd) as [Hg Hs]. split.
      * destruct (existsb _ (game_states _)) eqn:X; [|reflexivity].
        apply existsb_exists in X as (h & Hin & Hh).
        rewrite forallb_forall in Hg. specialize (Hg _ Hin). rewrite Hh in Hg.
        discriminate Hg.
      * destruct (existsb _ (game_state_secrets _)) eqn:X; [|reflexivity].
        apply existsb_exists in X as (h & Hin & Hh).
        rewrite forallb_forall in Hs. specialize (Hs _ Hin). rewrite Hh in Hs.
        discriminate Hs.
    + intros Hd. rewrite (Hn Hd). simpl store.
      unfold found in Hf.
      destruct (find _ (rooms (store w))); [|discriminate].
      destruct (latest_game_state roomId (store w)) as [g'|] eqn:Eg; [|discriminate].
      destruct (find _ (game_state_secrets (store w))); [|discriminate].
      inversion Hf; subst. apply latest_game_state_in in Eg as [Hin _].
      apply in_map_iff. exists g. rewrite eqs_refl. split; [reflexivity|exact Hin].
Qed.

(** On the sample table: Bob's fold completes the hand, the handler answers
    200 and the game-state row is gone; the next action is answered 400 "No
    active hand". *)
Lemma game_state_row_marks_the_hand_witness :
  let w := dealt_world 100 100 in
  let r := respond (post_action uuid_shape sample_message reliable "room-1"
                      (request 1 "fold" None None)) w in
  let r' := respond (post_action uuid_shape sample_message reliable "room-1"
                       (request 0 "check" None None)) (snd r) in
  game_states (store (snd r)) = []
  /\ fst r' = Json 400 (BError "No active hand") /\ snd r' = snd r.
Proof.
  intros w r r'. split; [vm_compute; reflexivity|].
  destruct (game_state_row_marks_the_hand sample_logic uuid_shape sample_message reliable "room-1"
              (request 0 "check" None None) (ActionPayload.mk 0 ACheck None None None)
              (snd r) eq_refl eq_refl eq_refl eq_refl eq_refl) as [H _].
  eapply H; vm_compute; reflexivity.
Defined.

(** ** The deck seed *)

Lemma secrets_closed_to_clients (role : string) (d : DB) :
  role <> "service_role" -> readable_secrets role d = [].
Proof.
  intros H. unfold readable_secrets, gss_service_all.
  destruct (role =s? "service_role") eqn:E.
  - apply String.eqb_eq in E. contradiction.
  - induction (game_state_secrets d); simpl; auto.
Qed.

(** C8, the code at the failing input.  A hand is dealt on the sample table
    from the seed ["seed-1"]: the secrets table is closed to every client
    role, yet the answer of [start-hand] carries the deck seed that the
    secrets row of the new hand stores, and the full boards kept secret are
    the cards that seed's shuffle gives after the hole cards. *)
Lemma start_hand_answers_with_the_deck_seed :
  let r := respond (start_hand reliable "state-1" "room-1" (Some "seed-1"))
                   (sample_world 100 100) in
  readable_secrets "anon" (store (snd r)) = []
  /\ readable_secrets "authenticated" (store (snd r)) = []
  /\ disclosed_seed (fst r) = Some "seed-1"
  /\ map Secret.deck_seed (game_state_secrets (store (snd r))) = ["seed-1"]
  /\ option_map (fun deck => (firstn 5 (skipn 8 deck), firstn 5 (skipn 13 deck)))
                (sample_shuffle "seed-1")
     = option_map (fun s => (Secret.full_board1 s, Secret.full_board2 s))
                  (hd_error (game_state_secrets (store (snd r)))).
Proof.
  vm_compute. repeat split; reflexivity.
Qed.

(** ** The payout calculator *)

Lemma total_app (a b : list Payout) :
  Logic.total (a ++ b) = Logic.total a + Logic.total b.
Proof.
  induction a as [|p a IH]; simpl; [reflexivity|]. rewrite IH. lia.
Qed.

Lemma total_credit (s a : Z) (m : list Payout) :
  Logic.total (Logic.credit s a m) = Logic.total m + a.
Proof.
  induction m as [|p m IH]; simpl; [lia|].
  destruct (seat p =? s); simpl; [lia|]. rewrite IH. lia.
Qed.

Lemma total_fold_credit (l m : list Payout) :
  Logic.total (fold_left (fun m p => Logic.credit (seat p) (amount p) m) l m)
  = Logic.total m + Logic.total l.
Proof.
  revert m. induction l as [|p l IH]; intros m; simpl; [lia|].
  rewrite IH, total_credit. lia.
Qed.

Lemma total_to_mapping (l : list Payout) :
  Logic.total (Logic.to_mapping l) = Logic.total l.
Proof. unfold Logic.to_mapping. rewrite total_fold_credit. reflexivity. Qed.

Lemma total_split_from (order : list Z) (share extra : Z) :
  0 <= extra <= Z.of_nat (List.length order) ->
  Logic.total (Logic.split_from order share extra)
  = Z.of_nat (List.length order) * share + extra.
Proof.
  revert extra. induction order as [|s r IH]; intros extra H.
  - simpl in *. lia.
  - cbn [Logic.split_from Logic.total fold_right amount].
    change (fold_right (fun p acc => amount p + acc) 0 (Logic.split_from r share (extra - 1)))
      with (Logic.total (Logic.split_from r share (extra - 1))).
    cbn [List.length] in *. rewrite Nat2Z.inj_succ in *.
    destruct (0 <? extra) eqn:E.
    + apply Z.ltb_lt in E. rewrite IH by lia. lia.
    + apply Z.ltb_ge in E. assert (extra = 0) by lia. subst.
      clear IH. assert (G : forall e, e <= 0 ->
        Logic.total (Logic.split_from r share e) = Z.of_nat (List.length r) * share).
      { induction r as [|x r IHr]; intros e He; [simpl; lia|].
        cbn [Logic.split_from Logic.total fold_right amount List.length].
        change (fold_right (fun p acc => amount p + acc) 0 (Logic.split_from r share (e - 1)))
          with (Logic.total (Logic.split_from r share (e - 1))).
        rewrite Nat2Z.inj_succ.
        destruct (0 <? e) eqn:E'; [apply Z.ltb_lt in E'; lia|].
        rewrite IHr by lia. lia. }
      rewrite G by lia. lia.
Qed.

Lemma total_split_among (order : list Z) (amt : Z) :
  order <> [] -> Logic.total (Logic.split_among order amt) = amt.
Proof.
  intros H. unfold Logic.split_among.
  assert (Hn : 0 < Z.of_nat (List.length order)).
  { destruct order; [contradiction|]. simpl List.length. lia. }
  rewrite total_split_from.
  - pose proof (Z.div_mod amt (Z.of_nat (List.length order))). lia.
  - pose proof (Z.mod_pos_bound amt _ Hn). lia.
Qed.

Lemma seats_split_from (order : list Z) (share extra : Z) :
  map seat (Logic.split_from order share extra) = order.
Proof.
  revert extra. induction order as [|s r IH]; intros extra; simpl; [reflexivity|].
  rewrite IH. reflexivity.
Qed.

Lemma amounts_split_from (order : list Z) (share extra : Z) (k : nat) :
  (k < List.length order)%nat ->
  nth k (map amount (Logic.split_from order share extra)) 0
  = share + (if Z.of_nat k <? extra then 1 else 0).
Proof.
  revert extra k. induction order as [|s r IH]; intros extra k H; simpl in H; [lia|].
  destruct k as [|k]; cbn [Logic.split_from map nth amount].
  - reflexivity.
  - rewrite IH by lia. rewrite Nat2Z.inj_succ.
    replace (Z.succ (Z.of_nat k) <? extra) with (Z.of_nat k <? extra - 1); [reflexivity|].
    destruct (Z.of_nat k <? extra - 1) eqn:A, (Z.succ (Z.of_nat k) <? extra) eqn:B;
      try reflexivity;
      rewrite ?Z.ltb_lt, ?Z.ltb_ge in *; lia.
Qed.

Lemma insert_seat_not_nil (s : Z) (l : list Z) : Logic.insert_seat s l <> [].
Proof.
  destruct l as [|x r]; simpl; [discriminate|].
  destruct (s <? x); [discriminate|]. destruct (s =? x); discriminate.
Qed.

Lemma seat_set_not_nil (l : list Z) : l <> [] -> Logic.seat_set l <> [].
Proof.
  destruct l as [|x r]; [contradiction|]. intros _. simpl. apply insert_seat_not_nil.
Qed.

Lemma clockwise_from_not_nil (button : Z) (l : list Z) :
  l <> [] -> Logic.clockwise_from button l <> [].
Proof.
  intros H. unfold Logic.clockwise_from.
  pose proof (seat_set_not_nil l H) as Hs.
  destruct (Logic.seat_set l) as [|x r]; [contradiction|]. simpl.
  destruct (button <? x) eqn:E; [discriminate|].
  rewrite Z.leb_antisym, E. simpl. intros X. apply app_eq_nil in X as [_ X]. discriminate.
Qed.

(** C2.  Payout conservation: for every button, every non-empty set of
    board-1 winners, every board-2 winner set that is absent or non-empty and
    every pot, the payout calculator returns a mapping (its assertion does
    not fire) whose credited amounts sum exactly to the pot awarded. *)
Theorem payout_sums_to_the_pot :
  forall (button : Z) (board1Winners : list Z) (board2Winners : option (list Z))
         (potAwarded : Z),
    board1Winners <> [] ->
    board2Winners <> Some [] ->
    exists payouts,
      Logic.endOfHandPayout button board1Winners board2Winners potAwarded = inr payouts
      /\ Logic.total payouts = potAwarded.
Proof.
  intros button w1 w2 pot H1 H2. unfold Logic.endOfHandPayout, Logic.board_shares.
  assert (Ht : forall s1 s2, Logic.total s1 + Logic.total s2 = pot ->
            exists payouts,
              (if Logic.total (Logic.to_mapping (s1 ++ s2)) =? pot
               then inr (Logic.to_mapping (s1 ++ s2))
               else inl "payout total differs from the pot awarded")
              = (inr payouts : string + list Payout)
              /\ Logic.total payouts = pot).
  { intros s1 s2 E.
    assert (T : Logic.total (Logic.to_mapping (s1 ++ s2)) = pot)
      by (rewrite total_to_mapping, total_app; exact E).
    rewrite T, Z.eqb_refl. eexists; split; [reflexivity|exact T]. }
  destruct w2 as [w2|].
  - apply Ht. rewrite !total_split_among.
    + lia.
    + apply clockwise_from_not_nil. intros X; subst; apply H2; reflexivity.
    + apply clockwise_from_not_nil; assumption.
  - apply Ht. rewrite total_split_among by (apply clockwise_from_not_nil; assumption).
    simpl. lia.
Qed.

(** The example of the spec: one board, winners {seat 2}, pot 30. *)
Lemma payout_sums_to_the_pot_witness :
  exists payouts,
    Logic.endOfHandPayout 0 [2] None 30 = inr payouts /\ Logic.total payouts = 30.
Proof.
  apply (payout_sums_to_the_pot 0 [2] None 30); discriminate.
Defined.

(** C7.  Double-board split: with an even pot [P] and winners on both
    boards, what board 1's winners receive sums to [P/2] and what board 2's
    winners receive sums to [P/2]; each board's half goes to that board's
    winners, each once, in clockwise order from the button; a tie splits the
    half evenly, the odd chips going one each to the first seats in that
    order; the payout returned is the mapping of these credits, and for
    single winners [A] and [B] on the two boards it is [P/2] to each. *)
Theorem double_board_split :
  forall (button : Z) (board1Winners board2Winners : list Z) (P : Z),
    board1Winners <> [] ->
    board2Winners <> [] ->
    Z.even P = true ->
    let s1 := fst (Logic.board_shares button board1Winners (Some board2Winners) P) in
    let s2 := snd (Logic.board_shares button board1Winners (Some board2Winners) P) in
    let o1 := Logic.clockwise_from button board1Winners in
    let o2 := Logic.clockwise_from button board2Winners in
    Logic.total s1 = P / 2 /\ Logic.total s2 = P / 2
    /\ map seat s1 = o1 /\ map seat s2 = o2
    /\ (forall k, (k < List.length o1)%nat ->
          nth k (map amount s1) 0
          = (P / 2) / Z.of_nat (List.length o1)
            + (if Z.of_nat k <? (P / 2) mod Z.of_nat (List.length o1) then 1 else 0))
    /\ (forall k, (k < List.length o2)%nat ->
          nth k (map amount s2) 0
          = (P / 2) / Z.of_nat (List.length o2)
            + (if Z.of_nat k <? (P / 2) mod Z.of_nat (List.length o2) then 1 else 0))
    /\ Logic.endOfHandPayout button board1Winners (Some board2Winners) P
       = inr (Logic.to_mapping (s1 ++ s2))
    /\ (forall A B, board1Winners = [A] -> board2Winners = [B] -> A <> B ->
          Logic.to_mapping (s1 ++ s2) = [mkPayout A (P / 2); mkPayout B (P / 2)]).
Proof.
  intros button w1 w2 P H1 H2 He s1 s2 o1 o2. subst s1 s2.
  unfold Logic.board_shares. cbn [fst snd].
  assert (Hh : P - P / 2 = P / 2).
  { apply Z.even_spec in He as [h ->].
    rewrite (Z.mul_comm 2 h), Z.div_mul by lia. lia. }
  rewrite Hh. fold o1 o2.
  pose proof (clockwise_from_not_nil button w1 H1) as N1.
  pose proof (clockwise_from_not_nil button w2 H2) as N2.
  fold o1 in N1. fold o2 in N2.
  assert (T1 := total_split_among o1 (P / 2) N1).
  assert (T2 := total_split_among o2 (P / 2) N2).
  repeat split.
  - exact T1.
  - exact T2.
  - apply seats_split_from.
  - apply seats_split_from.
  - intros k Hk. unfold Logic.split_among. apply amounts_split_from. exact Hk.
  - intros k Hk. unfold Logic.split_among. apply amounts_split_from. exact Hk.
  - unfold Logic.endOfHandPayout, Logic.board_shares. rewrite Hh. fold o1 o2.
    rewrite total_to_mapping, total_app, T1, T2.
    replace (P / 2 + P / 2) with P by lia. rewrite Z.eqb_refl. reflexivity.
  - intros A B -> -> Hab. subst o1 o2.
    assert (S : forall x, Logic.clockwise_from button [x] = [x]).
    { intros x. unfold Logic.clockwise_from, Logic.seat_set. simpl.
      rewrite Z.leb_antisym. destruct (button <? x); reflexivity. }
    rewrite !S. unfold Logic.split_among. simpl.
    rewrite !Z.div_1_r, !Z.mod_1_r. simpl.
    unfold Logic.to_mapping. simpl.
    destruct (A =? B) eqn:E; [apply Z.eqb_eq in E; contradiction|].
    rewrite !Z.add_0_r. reflexivity.
Qed.

(** Pot 100, seat 1 wins board 1, seats 2 and 3 tie on board 2: 50 to seat
    1, 25 each to seats 2 and 3. *)
Lemma double_board_split_witness :
  Logic.total (fst (Logic.board_shares 0 [1] (Some [3; 2]) 100)) = 50
  /\ Logic.total (snd (Logic.board_shares 0 [1] (Some [3; 2]) 100)) = 50
  /\ Logic.endOfHandPayout 0 [1] (Some [3; 2]) 100
     = inr [mkPayout 1 50; mkPayout 2 25; mkPayout 3 25].
Proof.
  destruct (double_board_split 0 [1] [3; 2] 100) as (T1 & T2 & _);
    [discriminate | discriminate | reflexivity |].
  split; [exact T1|]. split; [exact T2|]. vm_compute. reflexivity.
Defined.

(** ** Indian poker: the visible cards *)

Lemma insert_hand_in (h x : PlayerHand.t) (l : list PlayerHand.t) :
  In x (IndianPoker.insert_hand h l) <-> x = h \/ In x l.
Proof.
  induction l as [|k r IH]; simpl.
  - intuition.
  - destruct (PlayerHand.seat_number h <=? PlayerHand.seat_number k); simpl.
    + intuition.
    + rewrite IH. intuition.
Qed.

Lemma order_hands_in (x : PlayerHand.t) (l : list PlayerHand.t) :
  In x (IndianPoker.order_hands l) <-> In x l.
Proof.
  induction l as [|h r IH]; simpl; [reflexivity|].
  rewrite insert_hand_in, IH. intuition.
Qed.

(** The SQL function, when it does not raise, returns the first card of
    every hand of the game state but the requesting seat's. *)
Lemma visible_cards_rows (d : DB) (gid : string) (s : Z) (rows : list (Z * option Card)) :
  IndianPoker.get_indian_poker_visible_cards d gid s = inr rows ->
  forall seat' card,
    In (seat', card) rows <->
    exists h, In h (player_hands d) /\ PlayerHand.game_state_id h = gid
              /\ PlayerHand.seat_number h = seat' /\ seat' <> s
              /\ card = IndianPoker.first_card h.
Proof.
  unfold IndianPoker.get_indian_poker_visible_cards. intros H seat' card.
  assert (R : rows = map (fun ph => (PlayerHand.seat_number ph, IndianPoker.first_card ph))
                       (IndianPoker.order_hands
                          (filter (fun ph => (PlayerHand.game_state_id ph =s? gid)
                                             && negb (PlayerHand.seat_number ph =? s))
                                  (player_hands d)))).
  { destruct (IndianPoker.game_mode_of d gid) as [m|].
    - destruct (negb (m =s? "indian_poker")); [discriminate|]. inversion H; reflexivity.
    - inversion H; reflexivity. }
  subst rows. rewrite in_map_iff. split.
  - intros (h & E & Hin). inversion E; subst; clear E.
    apply order_hands_in, filter_In in Hin as [Hin Hp].
    apply andb_prop in Hp as [Hg Hs]. apply String.eqb_eq in Hg.
    apply negb_true_iff, Z.eqb_neq in Hs. exists h. repeat split; assumption.
  - intros (h & Hin & Hg & Hs & Hne & ->). exists h. split; [subst; reflexivity|].
    apply order_hands_in, filter_In. split; [assumption|].
    rewrite Hg, eqs_refl. simpl. apply negb_true_iff, Z.eqb_neq. subst. assumption.
Qed.

Lemma find_hand_none (d : DB) (gid : string) (s : Z) :
  find (fun h => (PlayerHand.game_state_id h =s? gid) && (PlayerHand.seat_number h =? s))
       (player_hands d) = None <-> ~ in_the_hand d gid s.
Proof.
  split.
  - intros H (h & Hin & Hg & Hs).
    pose proof (find_none _ _ H h Hin) as X. simpl in X.
    rewrite Hg, Hs, eqs_refl, Z.eqb_refl in X. discriminate X.
  - intros H. destruct (find _ _) as [h|] eqn:E; [|reflexivity].
    apply find_some in E as [Hin Hp]. apply andb_prop in Hp as [Hg Hs].
    apply String.eqb_eq in Hg. apply Z.eqb_eq in Hs.
    exfalso. apply H. exists h. repeat split; assumption.
Qed.

(** C10.  Indian-poker visibility.  (1) Whenever the endpoint shows cards,
    the request was made with a token of a player of the room who is not a
    spectator and holds cards in the game state; the caller's own seat is not
    among the seats shown, and what is shown is exactly one entry per hand
    of another seat of that game state, with that hand's first card.  (2) A
    request of such a player on an Indian-poker table is served.  (3) A
    request without a user is answered 401; a spectator's and that of a
    player with no hand in the game state are answered 403: no card is
    shown. *)
Theorem indian_poker_shows_the_others :
  forall (getUser : string -> option string) (d : DB) (req : IndianPoker.Request),
    let reply := IndianPoker.indian_poker_cards getUser d req in
    let gid := IndianPoker.gameStateId req in
    let room_found :=
      exists room, find (fun r => Room.id r =s? IndianPoker.roomId req) (rooms d)
                   = Some room in
    let seat_allowed (player : RoomPlayer.t) :=
      IndianPoker.seat_param req = None
      \/ IndianPoker.seat_param req = Some (RoomPlayer.seat_number player) in
    let state_found :=
      exists g, find (fun g => (GameState.id g =s? gid)
                               && (GameState.room_id g =s? IndianPoker.roomId req))
                     (game_states d) = Some g in
    (forall vc, reply = IndianPoker.Visible vc ->
       exists player,
         made_by getUser d req player
         /\ RoomPlayer.is_spectating player = false
         /\ in_the_hand d gid (RoomPlayer.seat_number player)
         /\ ~ In (RoomPlayer.seat_number player) (map fst vc)
         /\ forall x, In x vc <->
              exists h, In h (player_hands d) /\ PlayerHand.game_state_id h = gid
                        /\ PlayerHand.seat_number h <> RoomPlayer.seat_number player
                        /\ x = shown h)
    /\ (forall player,
          made_by getUser d req player -> room_found ->
          RoomPlayer.is_spectating player = false -> seat_allowed player ->
          state_found -> in_the_hand d gid (RoomPlayer.seat_number player) ->
          IndianPoker.game_mode_of d gid = Some "indian_poker" ->
          exists vc, reply = IndianPoker.Visible vc)
    /\ ((IndianPoker.bearer req = None
         \/ exists token, IndianPoker.bearer req = Some token /\ getUser token = None) ->
        reply = IndianPoker.Rejected 401)
    /\ (forall player,
          made_by getUser d req player -> room_found ->
          RoomPlayer.is_spectating player = true ->
          reply = IndianPoker.Rejected 403)
    /\ (forall player,
          made_by getUser d req player -> room_found ->
          RoomPlayer.is_spectating player = false -> seat_allowed player ->
          state_found -> ~ in_the_hand d gid (RoomPlayer.seat_number player) ->
          reply = IndianPoker.Rejected 403).
Proof.
  intros getUser d req reply gid room_found seat_allowed state_found.
  subst reply room_found seat_allowed state_found. cbv beta.
  unfold IndianPoker.indian_poker_cards. fold gid.
  split; [|split; [|split; [|split]]].
  - intros vc H.
    destruct (IndianPoker.bearer req) as [token|] eqn:Eb; [|discriminate].
    destruct (getUser token) as [uid|] eqn:Eu; [|discriminate].
    destruct (find _ (rooms d)) as [room|]; [|discriminate].
    destruct (find _ (room_players d)) as [player|] eqn:Ep; [|discriminate].
    destruct (RoomPlayer.is_spectating player) eqn:Es; [discriminate|].
    destruct (match IndianPoker.seat_param req with Some _ => _ | None => _ end);
      [discriminate|].
    destruct (find _ (game_states d)); [|discriminate].
    destruct (find _ (player_hands d)) as [mine|] eqn:Eh; [|discriminate].
    destruct (IndianPoker.get_indian_poker_visible_cards _ _ _) as [|rows] eqn:Er;
      [discriminate|].
    inversion H; subst vc; clear H.
    pose proof (visible_cards_rows _ _ _ _ Er) as R.
    exists player. split; [exists token, uid; repeat split; assumption|].
    split; [exact Es|]. split.
    { apply find_some in Eh as [Hin Hp]. apply andb_prop in Hp as [Hg Hs].
      apply String.eqb_eq in Hg. apply Z.eqb_eq in Hs.
      exists mine. repeat split; assumption. }
    split.
    { rewrite map_map. simpl. intros X. apply in_map_iff in X as ([s c] & E & Hin).
      simpl in E. subst s. apply R in Hin as (h & _ & _ & _ & Hne & _).
      apply Hne. reflexivity. }
    intros x. rewrite in_map_iff. split.
    + intros ([s c] & E & Hin). apply R in Hin as (h & Hin & Hg & Hs & Hne & ->).
      exists h. subst x s. repeat split; assumption.
    + intros (h & Hin & Hg & Hne & ->).
      exists (PlayerHand.seat_number h, IndianPoker.first_card h).
      split; [reflexivity|]. apply R. exists h. repeat split; assumption.
  - intros player (token & uid & Eb & Eu & Ep) [room Er] Es Hseat [g Eg] Hh Hm.
    rewrite Eb, Eu, Er, Ep, Es, Eg.
    replace (match IndianPoker.seat_param req with
             | Some s => negb (s =? RoomPlayer.seat_number player)
             | None => false
             end) with false
      by (destruct Hseat as [-> | ->]; [reflexivity | rewrite Z.eqb_refl; reflexivity]).
    destruct (find _ (player_hands d)) eqn:Eh;
      [|exfalso; apply find_hand_none in Eh; contradiction].
    unfold IndianPoker.get_indian_poker_visible_cards. rewrite Hm. simpl.
    eexists. reflexivity.
  - intros [Eb | (token & Eb & Eu)]; rewrite Eb; [reflexivity|]. rewrite Eu. reflexivity.
  - intros player (token & uid & Eb & Eu & Ep) [room Er] Es.
    rewrite Eb, Eu, Er, Ep, Es. reflexivity.
  - intros player (token & uid & Eb & Eu & Ep) [room Er] Es Hseat [g Eg] Hh.
    rewrite Eb, Eu, Er, Ep, Es, Eg.
    replace (match IndianPoker.seat_param req with
             | Some s => negb (s =? RoomPlayer.seat_number player)
             | None => false
             end) with false
      by (destruct Hseat as [-> | ->]; [reflexivity | rewrite Z.eqb_refl; reflexivity]).
    apply find_hand_none in Hh. rewrite Hh. reflexivity.
Qed.

(** Alice (seat 0) asks on the sample Indian-poker table: she is shown Bob's
    and Carol's cards, not her own; Dan, a spectator, and a caller without a
    token are shown nothing. *)
Lemma indian_poker_shows_the_others_witness :
  IndianPoker.indian_poker_cards ip_users ip_db
    (IndianPoker.mkRequest "room-1" "state-1" (Some "token-alice") None)
  = IndianPoker.Visible [(1, ["7D"]); (2, ["KH"])]
  /\ IndianPoker.indian_poker_cards ip_users ip_db
       (IndianPoker.mkRequest "room-1" "state-1" (Some "token-dan") None)
     = IndianPoker.Rejected 403
  /\ IndianPoker.indian_poker_cards ip_users ip_db
       (IndianPoker.mkRequest "room-1" "state-1" None None)
     = IndianPoker.Rejected 401.
Proof.
  split; [vm_compute; reflexivity|]. split.
  - destruct (indian_poker_shows_the_others ip_users ip_db
                (IndianPoker.mkRequest "room-1" "state-1" (Some "token-dan") None))
      as (_ & _ & _ & H & _).
    eapply H.
    + exists "token-dan", "44444444-4444-4444-8444-444444444444".
      repeat split; vm_compute; reflexivity.
    + eexists. vm_compute. reflexivity.
    + reflexivity.
  - destruct (indian_poker_shows_the_others ip_users ip_db
                (IndianPoker.mkRequest "room-1" "state-1" None None))
      as (_ & _ & H & _).
    apply H. left. reflexivity.
Defined.

(** ** The payout block, traced *)

(** What a run of the payout block that comes to its end has done: it has
    called the winner determination on the hands of the seats still in the
    hand and the payout calculator on its result, both have returned, and the
    credits were written in one upsert. *)
Lemma settle_hand_trace (L : EngineLogic) (faults : Faults) (roomId : string)
    (g : GameState.t) (secret : Secret.t) (players : list RoomPlayer.t) (o : Outcome)
    (pot : Z) (w w' : World) (u : unit) :
  settle_hand faults roomId g secret players o pot w = (Val u, w') ->
  let merged := mergedPlayers players (updatedPlayers o) in
  let hands :=
    activeHands merged
      (filter (fun h => PlayerHand.game_state_id h =s? GameState.id g)
              (player_hands (store w))) in
  exists w1 w2 payouts,
    determineDoubleBoardWinners hands (Secret.full_board1 secret)
      (Secret.full_board2 secret) = inr (w1, w2)
    /\ endOfHandPayout w1 w2 pot = inr payouts
    /\ calls w' = calls w ++ [CallWinners hands (Secret.full_board1 secret)
                                (Secret.full_board2 secret);
                              CallPayout w1 w2 pot]
    /\ game_states (store w') = game_states (store w)
    /\ (if is_empty payouts || is_empty (creditUpdates merged payouts)
        then room_players (store w') = room_players (store w)
        else upsert_players (creditUpdates merged payouts) (store w)
             = inr (set_room_players (room_players (store w')) (store w))).
Proof.
  unfold settle_hand, select, check, write, bind, query, throw, ret, record_call.
  intros H. cbv beta iota zeta in H.
  repeat (split_match H; cbv beta iota zeta in H).
  all: inversion H; subst; clear H; simpl store in *; simpl calls in *.
  all: repeat match goal with
       | E : is_empty _ = _ |- _ => simpl in E
       end.
  all: match goal with
       | E1 : determineDoubleBoardWinners _ _ _ = inr (?a, ?b),
         E2 : endOfHandPayout _ _ _ = inr ?c |- _ =>
           exists a, b, c; split; [reflexivity|]; split; [exact E2|];
           split; [rewrite <- app_assoc; reflexivity|]
       end.
  all: repeat match goal with
       | E : is_empty _ = _ |- _ => rewrite E
       end; simpl.
  all: try (split; reflexivity).
  all: match goal with
       | E : upsert_players _ _ = inr ?d |- _ =>
           pose proof (upsert_players_frame _ _ _ E) as F;
           rewrite F; simpl; split; [reflexivity|];
           rewrite E, F; reflexivity
       end.
Qed.

Lemma write_keeps (faults : Faults) (s : Step) (f : DB -> string + DB) (w w' : World)
    (res : Res (option string)) (P : World -> Prop) :
  write faults s f w = (res, w') ->
  P w ->
  (forall d, f (store w) = inr d -> P (mkWorld d (calls w))) ->
  P w'.
Proof.
  intros H Hw Hf.
  apply write_inv in H as [(? & _ & ->) | (d & _ & _ & Ef & ->)]; auto.
Qed.

(** A successful answer of the handler, traced back: the action was not
    rejected, and before the completion block ran the store had taken the
    updated rows and the updated game state, the hole cards and the secrets
    being as before. *)
Lemma persist_outcome_steps (L : EngineLogic) (faults : Faults) (roomId : string)
    (payload : ActionPayload.t) (g : GameState.t) (secret : Secret.t)
    (players : list RoomPlayer.t) (o : Outcome) (w w' : World) (r : Response) :
  persist_outcome faults roomId payload g secret players o w = (Sent r, w') ->
  is_ok r = true ->
  truthy_id (error o) = None
  /\ exists w2,
       player_hands (store w2) = player_hands (store w)
       /\ calls w2 = calls w
       /\ (if handCompleted o
           then finish_hand faults roomId g secret players o w2 = (Val tt, w')
           else w' = w2).
Proof.
  unfold persist_outcome. intros H Hok.
  bind_step H a1 w1 E1; [| | discriminate H].
  2:{ apply write_inv in E1 as [(? & E1 & _) | (? & E1 & _)]; discriminate E1. }
  assert (G1 : player_hands (store w1) = player_hands (store w) /\ calls w1 = calls w).
  { apply (write_keeps _ _ _ _ _ _
             (fun x => player_hands (store x) = player_hands (store w)
                       /\ calls x = calls w) E1); [split; reflexivity|].
    intros d Ef. inversion Ef; subst. split; reflexivity. }
  clear E1. destruct (truthy_id (error o)) as [e|] eqn:Ee.
  { inversion H; subst. discriminate Hok. }
  split; [reflexivity|].
  bind_step H a2 w2 E2; [| | discriminate H].
  2:{ destruct (is_empty _); [discriminate E2|].
      bind_step E2 a3 w3 E3; [| | discriminate E2].
      - apply check_inv in E2 as [_ [[_ E2] | (? & _ & E2)]]; discriminate E2.
      - apply write_inv in E3 as [(? & E3 & _) | (? & E3 & _)]; discriminate E3. }
  assert (G2 : player_hands (store w2) = player_hands (store w) /\ calls w2 = calls w).
  { destruct G1 as [<- <-]. destruct (is_empty _); [inversion E2; subst; split; reflexivity|].
    bind_step E2 a3 w3 E3; [| discriminate E2 | discriminate E2].
    apply check_inv in E2 as [-> _].
    apply (write_keeps _ _ _ _ _ _
             (fun x => player_hands (store x) = player_hands (store w1)
                       /\ calls x = calls w1) E3); [split; reflexivity|].
    intros d Ef. apply upsert_players_frame in Ef. rewrite Ef. split; reflexivity. }
  clear E2 G1.
  bind_step H a3 w3 E3; [| | discriminate H].
  2:{ apply write_inv in E3 as [(? & E3 & _) | (? & E3 & _)]; discriminate E3. }
  bind_step H a4 w4 E4; [| | discriminate H].
  2:{ apply check_inv in E4 as [_ [[_ E4] | (? & _ & E4)]]; discriminate E4. }
  apply check_inv in E4 as [-> [[-> _] | (? & _ & E4)]]; [|discriminate E4].
  apply write_inv in E3 as [(? & E3 & _) | (? & _ & _ & Ef & ->)]; [discriminate E3|].
  inversion Ef; subst; clear Ef.
  exists (mkWorld (update_game_state (GameState.id g) (updatedGameState o) (store w2))
                  (calls w2)).
  split; [exact (proj1 G2)|]. split; [exact (proj2 G2)|].
  bind_step H a5 w5 E5; [| | discriminate H].
  - destruct (handCompleted o).
    + inversion H; subst. destruct a5. exact E5.
    + inversion E5; subst. inversion H; subst. reflexivity.
  - destruct (handCompleted o); [|discriminate E5].
    apply finish_hand_deletes in E5 as [E5 _]. destruct (E5 _ eq_refl).
Qed.

Lemma finish_hand_trace (L : EngineLogic) (faults : Faults) (roomId : string)
    (g : GameState.t) (secret : Secret.t) (players : list RoomPlayer.t) (o : Outcome)
    (w w' : World) (u : unit) :
  finish_hand faults roomId g secret players o w = (Val u, w') ->
  exists w3,
    (if truthy_array (autoWinners o) && truthy_number (potAwarded o)
     then settle_hand faults roomId g secret players o (or_else (potAwarded o) 0) w
          = (Val tt, w3)
     else w3 = w)
    /\ w' = mkWorld (delete_game_state (GameState.id g) (store w3)) (calls w3).
Proof.
  unfold finish_hand. intros H.
  bind_step H a1 w1 E1; [| discriminate H | discriminate H].
  exists w1. split.
  - destruct (truthy_array _ && truthy_number _).
    + destruct a1. exact E1.
    + inversion E1; reflexivity.
  - bind_step H a2 w2 E2; [| discriminate H | discriminate H].
    apply check_inv in H as [-> [[-> _] | (? & _ & H)]]; [|discriminate H].
    apply write_inv in E2 as [(? & E2 & _) | (? & _ & _ & Ef & ->)]; [discriminate E2|].
    inversion Ef; subst. reflexivity.
Qed.

Lemma find_has_id_map (i : string) (f : RoomPlayer.t -> RoomPlayer.t)
    (tbl : list RoomPlayer.t) :
  (forall p, has_id i (f p) = has_id i p) ->
  find (has_id i) (map f tbl) = option_map f (find (has_id i) tbl).
Proof.
  intros Hf. induction tbl as [|p tbl IH]; simpl; [reflexivity|].
  rewrite Hf. destruct (has_id i p); [reflexivity|exact IH].
Qed.

Lemma find_app_none {A} (f : A -> bool) (l : list A) (x : A) :
  existsb f l = false -> f x = true -> find f (l ++ [x]) = Some x.
Proof.
  induction l as [|y l IH]; simpl; intros H Hx.
  - rewrite Hx. reflexivity.
  - apply orb_false_iff in H as [Hy Hl]. rewrite Hy. auto.
Qed.

(** A single credit written by the payout block leaves the credited row with
    the stack it was computed from plus the amount. *)
Lemma upsert_single_credit (p : RoomPlayer.t) (amt : Z) (d : DB) (tbl : list RoomPlayer.t) :
  upsert_players [credit_row p amt] d = inr (set_room_players tbl d) ->
  option_map RoomPlayer.chip_stack (find (has_id (RoomPlayer.id p)) tbl)
  = Some (RoomPlayer.chip_stack p + amt).
Proof.
  unfold upsert_players. simpl. unfold upsert_row. simpl.
  destruct (existsb (has_id (RoomPlayer.id p)) (room_players d)) eqn:E.
  - intros H. inversion H; subst; clear H.
    rewrite find_has_id_map.
    + apply existsb_exists in E as (q & Hin & Hq).
      destruct (find (has_id (RoomPlayer.id p)) (room_players d)) as [q'|] eqn:F.
      * simpl. apply find_some in F as [_ F]. rewrite F. reflexivity.
      * pose proof (find_none _ _ F q Hin) as X. rewrite Hq in X. discriminate X.
    + intros q. destruct (has_id (RoomPlayer.id p) q) eqn:Q; [|exact Q].
      unfold has_id. simpl. apply eqs_refl.
  - intros H. inversion H; subst; clear H.
    rewrite find_app_none; [reflexivity | exact E | ].
    unfold has_id. simpl. apply eqs_refl.
Qed.

Lemma activeHands_seats (merged : list RoomPlayer.t) (hs : list PlayerHand.t)
    (h : ActiveHand) :
  In h (activeHands merged hs) ->
  exists p, In p merged /\ RoomPlayer.has_folded p = false
            /\ RoomPlayer.seat_number p = seatNumber h.
Proof.
  unfold activeHands. intros H. apply in_map_iff in H as (ph & <- & Hin).
  apply filter_In in Hin as [_ Hex]. apply existsb_exists in Hex as (p & Hp & Hs).
  apply filter_In in Hp as [Hp Hf]. apply negb_true_iff in Hf. apply Z.eqb_eq in Hs.
  exists p. repeat split; assumption.
Qed.

(** ** The action processor: what an accepted action returns *)

Lemma reset_bet_twice (l : list RoomPlayer.t) :
  map Logic.reset_bet (map Logic.reset_bet l) = map Logic.reset_bet l.
Proof. rewrite map_map. apply map_ext. intros p. reflexivity. Qed.

Lemma advance_pot (bb : Z) (f1 f2 : list Card) (g : GameState.t) :
  GameState.pot_size (Logic.advance bb f1 f2 g) = GameState.pot_size g.
Proof. reflexivity. Qed.

Lemma settle_shape (fuel : nat) (bb : Z) (f1 f2 : list Card) :
  forall (g : GameState.t) (players : list RoomPlayer.t) (adv : bool)
         (g2 : GameState.t) (players2 : list RoomPlayer.t) (adv2 : bool),
    Logic.settle fuel bb f1 f2 g players adv = (g2, players2, adv2) ->
    GameState.pot_size g2 = GameState.pot_size g
    /\ ((adv2 = adv /\ players2 = players)
        \/ (adv2 = true /\ players2 = map Logic.reset_bet players)).
Proof.
  induction fuel as [|k IH]; intros g players adv g2 players2 adv2 H; simpl in H.
  - inversion H; subst. split; [reflexivity|]. left. split; reflexivity.
  - destruct (Logic.street_closed g players).
    + assert (Hadv : forall g' , GameState.pot_size g' = GameState.pot_size g ->
                Logic.settle k bb f1 f2 g' (map Logic.reset_bet players) true
                = (g2, players2, adv2) ->
                GameState.pot_size g2 = GameState.pot_size g
                /\ ((adv2 = adv /\ players2 = players)
                    \/ (adv2 = true /\ players2 = map Logic.reset_bet players))).
      { intros g' Hg' H'. apply IH in H' as [Hp Hs]. split; [congruence|]. right.
        destruct Hs as [[-> ->] | [-> ->]]; split; try reflexivity.
        apply reset_bet_twice. }
      destruct (GameState.phase g) eqn:Ph.
      * apply (Hadv _ (advance_pot _ _ _ _) H).
      * apply (Hadv _ (advance_pot _ _ _ _) H).
      * apply (Hadv _ (advance_pot _ _ _ _) H).
      * inversion H; subst. split; [reflexivity|]. left. split; reflexivity.
      * inversion H; subst. split; [reflexivity|]. left. split; reflexivity.
    + inversion H; subst. split; [reflexivity|]. left. split; reflexivity.
Qed.

(** An accepted action, unfolded: one seat [p0] of the snapshot made a move
    [m]; the rows returned are that seat's, then (when a street closed) every
    seat's with the street wager reset; the pot took the wager. *)
Lemma applyAction_accepted (ctx : ActionContext) (seat : Z) (a : ActionType)
    (amt : option Z) :
  let o := Logic.applyAction ctx seat a amt in
  error o = None ->
  exists p0 m adv g2,
    In p0 (c_players ctx)
    /\ updatedPlayers o
       = Logic.to_partial (Logic.act p0 m)
         :: (if adv : bool
             then map Logic.to_partial
                    (map Logic.reset_bet
                       (Logic.replace_player (Logic.act p0 m) (c_players ctx)))
             else [])
    /\ updatedGameState o = Logic.state_update g2
    /\ GameState.pot_size g2 = GameState.pot_size (c_gameState ctx) + Logic.m_wager m
    /\ handCompleted o = Logic.street_eqb (GameState.phase g2) Showdown
    /\ (handCompleted o = true -> potAwarded o = Some (GameState.pot_size g2))
    /\ (handCompleted o = true -> autoWinners o <> None)
    /\ (handCompleted o = false ->
          List.length (filter Logic.in_hand
                         (Logic.replace_player (Logic.act p0 m) (c_players ctx)))
          <> 1%nat).
Proof.
  intros o. subst o. unfold Logic.applyAction.
  destruct (Logic.street_eqb _ Showdown); [discriminate|].
  destruct (Logic.current_actor _ _) as [s|]; [|discriminate].
  destruct (negb (s =? seat)); [discriminate|].
  destruct (find _ (c_players ctx)) as [p0|] eqn:Ef; [|discriminate].
  destruct (Logic.legal _ _ _ _ _) as [e|m]; [discriminate|].
  apply find_some in Ef as [Hin _].
  destruct (List.length (filter Logic.in_hand _) =? 1)%nat eqn:E1.
  - intros _. exists p0, m, false, (Logic.with_phase Showdown (Logic.stamp (c_gameState ctx) seat a m)).
    simpl. repeat split; try reflexivity; try assumption; try discriminate.
  - destruct (Logic.settle _ _ _ _ _ _ _) as [[g2 players2] adv] eqn:Es.
    intros _. apply settle_shape in Es as [Hp Hs].
    exists p0, m, adv, g2. simpl. split; [exact Hin|]. split.
    { destruct Hs as [[-> ->] | [-> ->]]; reflexivity. }
    split; [reflexivity|]. split; [rewrite Hp; reflexivity|].
    split; [reflexivity|]. split.
    { intros ->. reflexivity. }
    split.
    { intros ->. discriminate. }
    intros _. apply Nat.eqb_neq in E1. exact E1.
Qed.

(** A rejection of the modelled action processor names its reason: the
    message is not empty, and the handler takes it for a rejection. *)
Lemma applyAction_reason (ctx : ActionContext) (seat : Z) (a : ActionType)
    (amt : option Z) (msg : string) :
  error (Logic.applyAction ctx seat a amt) = Some msg ->
  truthy_id (error (Logic.applyAction ctx seat a amt)) = Some msg.
Proof.
  intros H. rewrite H. unfold truthy_id.
  assert (Hm : (msg =s? "") = false); [|rewrite Hm; reflexivity].
  revert H. unfold Logic.applyAction, Logic.reject.
  destruct (Logic.street_eqb _ Showdown);
    [cbn; intros H; inversion H; reflexivity|].
  destruct (Logic.current_actor _ _) as [s|];
    [|cbn; intros H; inversion H; reflexivity].
  destruct (negb (s =? seat)); [cbn; intros H; inversion H; reflexivity|].
  destruct (find _ (c_players ctx)) as [p0|];
    [|cbn; intros H; inversion H; reflexivity].
  destruct (Logic.legal _ _ _ _ _) as [e|m] eqn:El.
  - cbn. intros H. inversion H; subst e. clear H.
    unfold Logic.legal in El.
    repeat (split_match El; cbv beta iota zeta in El).
    all: inversion El; reflexivity.
  - destruct (List.length (filter Logic.in_hand _) =? 1)%nat; [discriminate|].
    destruct (Logic.settle _ _ _ _ _ _ _) as [[g2 players2] adv]. discriminate.
Qed.

(** ** Upserts and the deduplication *)

Lemma mergedPlayers_overlay (players : list RoomPlayer.t) (us : list PartialPlayer.t) :
  mergedPlayers players us = map (overlay us) players.
Proof. reflexivity. Qed.

Lemma merge_keeps_id (p : RoomPlayer.t) (u : PartialPlayer.t) (i : string) :
  names (RoomPlayer.id p) u = true -> RoomPlayer.id (merge_player p u) = RoomPlayer.id p.
Proof.
  unfold names. destruct u as [[j|] ? ? ? ? ? ? ? ? ? ?]; simpl; [|discriminate].
  intros H. apply String.eqb_eq in H. exact H.
Qed.

Lemma overlay_keeps_id (us : list PartialPlayer.t) (p : RoomPlayer.t) :
  RoomPlayer.id (overlay us p) = RoomPlayer.id p.
Proof.
  unfold overlay. destruct (find _ us) as [u|] eqn:E; [|reflexivity].
  apply find_some in E as [_ E]. apply (merge_keeps_id _ _ ""). exact E.
Qed.

Lemma has_id_names (i : string) (p : RoomPlayer.t) (u : PartialPlayer.t) :
  PartialPlayer.id u = Some i -> has_id i p = names (RoomPlayer.id p) u.
Proof. unfold has_id, names. intros ->. apply String.eqb_sym. Qed.

Lemma repeats_cons_false (x : option string) (l : list (option string)) :
  repeats (x :: l) = false ->
  repeats l = false
  /\ forall i, x = Some i -> ~ In (Some i) l.
Proof.
  simpl. intros H. apply orb_false_iff in H as [H1 H2]. split; [exact H2|].
  intros i -> Hin. 
  assert (X : existsb (fun y => match y with Some j => i =s? j | None => false end) l = true).
  { apply existsb_exists. exists (Some i). split; [exact Hin | apply eqs_refl]. }
  rewrite X in H1. discriminate H1.
Qed.

(** An upsert of rows with distinct ids, all of them in the table: every
    row of the table takes the columns of the partial row that names it. *)
Lemma upsert_rows_known (us : list PartialPlayer.t) :
  forall tbl : list RoomPlayer.t,
    repeats (map PartialPlayer.id us) = false ->
    (forall u, In u us -> exists i, PartialPlayer.id u = Some i
                                    /\ existsb (has_id i) tbl = true) ->
    upsert_rows tbl us = inr (map (overlay us) tbl).
Proof.
  induction us as [|u us IH]; intros tbl Hrep Hknown.
  - simpl. f_equal. symmetry. rewrite <- (map_id tbl) at 2.
    apply map_ext. intros p. reflexivity.
  - destruct (Hknown u (or_introl eq_refl)) as (i & Hi & Hex).
    cbn [upsert_rows]. unfold upsert_row. rewrite Hi, Hex.
    cbn [map] in Hrep. apply repeats_cons_false in Hrep as [Hrep Hfresh].
    specialize (Hfresh i Hi).
    rewrite IH.
    + f_equal. rewrite map_map. apply map_ext. intros p.
      unfold overlay at 2. cbn [find]. rewrite <- (has_id_names i p u Hi).
      destruct (has_id i p) eqn:Hp.
      * unfold overlay.
        assert (Hid : RoomPlayer.id (merge_player p u) = i).
        { destruct u as [[j|] ? ? ? ? ? ? ? ? ? ?]; simpl in *; congruence. }
        rewrite Hid.
        destruct (find (names i) us) as [v|] eqn:Ev; [|reflexivity].
        apply find_some in Ev as [Hin Hv]. unfold names in Hv.
        destruct (PartialPlayer.id v) as [j|] eqn:Ej; [|discriminate].
        apply String.eqb_eq in Hv. subst j. exfalso. apply Hfresh.
        rewrite <- Ej. apply in_map. exact Hin.
      * reflexivity.
    + exact Hrep.
    + intros v Hv. destruct (Hknown v (or_intror Hv)) as (j & Hj & Hexj).
      exists j. split; [exact Hj|].
      apply existsb_exists in Hexj as (q & Hq & Hjq).
      apply existsb_exists.
      exists (if has_id i q then merge_player q u else q). split.
      * apply in_map_iff. exists q. split; [reflexivity|exact Hq].
      * destruct (has_id i q) eqn:Hiq; [|exact Hjq].
        unfold has_id in *. 
        destruct u as [[k|] ? ? ? ? ? ? ? ? ? ?]; simpl in *; [|discriminate].
        inversion Hi; subst. apply String.eqb_eq in Hiq. rewrite <- Hiq. exact Hjq.
Qed.

Lemma truthy_id_some (o : option string) (k : string) :
  truthy_id o = Some k <-> o = Some k /\ k <> "".
Proof.
  unfold truthy_id. destruct o as [s|]; [|split; [discriminate | intros [X _]; discriminate X]].
  destruct (s =s? "") eqn:E.
  - apply String.eqb_eq in E. subst. split; [discriminate|].
    intros [X Y]. inversion X; subst. contradiction.
  - apply String.eqb_neq in E. split.
    + intros X. inversion X; subst. split; [reflexivity|exact E].
    + intros [X _]. exact X.
Qed.

Lemma map_set_keys (k : string) (v : PartialPlayer.t) (m : list (string * PartialPlayer.t)) :
  map fst (map_set k v m)
  = if existsb (fun x => x =s? k) (map fst m) then map fst m else map fst m ++ [k].
Proof.
  induction m as [|[k' v'] m IH]; simpl; [reflexivity|].
  destruct (k' =s? k) eqn:E; simpl.
  - apply String.eqb_eq in E. subst. reflexivity.
  - rewrite IH. destruct (existsb _ _); reflexivity.
Qed.

Lemma map_set_in (k : string) (v : PartialPlayer.t) (m : list (string * PartialPlayer.t))
    (kv : string * PartialPlayer.t) :
  In kv (map_set k v m) -> kv = (k, v) \/ In kv m.
Proof.
  induction m as [|[k' v'] m IH]; simpl.
  - intros [H | []]. left. symmetry. exact H.
  - destruct (k' =s? k); simpl.
    + intros [H | H]; [left; symmetry; exact H | right; right; exact H].
    + intros [H | H]; [right; left; exact H|].
      destruct (IH H) as [X | X]; [left; exact X | right; right; exact X].
Qed.

Lemma map_set_nodup (k : string) (v : PartialPlayer.t) (m : list (string * PartialPlayer.t)) :
  NoDup (map fst m) -> NoDup (map fst (map_set k v m)).
Proof.
  intros H. rewrite map_set_keys.
  destruct (existsb _ _) eqn:E; [exact H|].
  apply NoDup_app; [exact H | repeat constructor; intros [] | ].
  intros x Hx [Ex | []]. subst x.
  assert (X : existsb (fun y => y =s? k) (map fst m) = true)
    by (apply existsb_exists; exists k; split; [exact Hx | apply eqs_refl]).
  rewrite X in E. discriminate E.
Qed.

Lemma map_set_key_in (k : string) (v : PartialPlayer.t) (m : list (string * PartialPlayer.t))
    (x : string) :
  x = k \/ In x (map fst m) -> In x (map fst (map_set k v m)).
Proof.
  rewrite map_set_keys. intros [-> | H].
  - destruct (existsb _ _) eqn:E.
    + apply existsb_exists in E as (y & Hy & Ey). apply String.eqb_eq in Ey. subst.
      exact Hy.
    + apply in_or_app. right. left. reflexivity.
  - destruct (existsb _ _); [exact H | apply in_or_app; left; exact H].
Qed.

(** The map the deduplication builds: its keys are distinct, each entry is a
    row of the list under its own id, and every id of the list has an
    entry. *)
Lemma dedupe_fold (us : list PartialPlayer.t) :
  forall m : list (string * PartialPlayer.t),
    keyed m -> NoDup (map fst m) ->
    let m' := fold_left (fun m u => match truthy_id (PartialPlayer.id u) with
                                    | Some i => map_set i u m
                                    | None => m
                                    end) us m in
    keyed m' /\ NoDup (map fst m')
    /\ (forall k v, In (k, v) m' -> In (k, v) m \/ In v us)
    /\ (forall k, (In k (map fst m)
                   \/ exists u, In u us /\ PartialPlayer.id u = Some k /\ k <> "") ->
                  In k (map fst m')).
Proof.
  induction us as [|u us IH]; intros m Hk Hn; cbv zeta; cbn [fold_left].
  - split; [exact Hk|]. split; [exact Hn|]. split.
    + intros k v H. left. exact H.
    + intros k [H | (u & [] & _)]. exact H.
  - set (m1 := match truthy_id (PartialPlayer.id u) with
               | Some i => map_set i u m
               | None => m
               end).
    assert (Hk1 : keyed m1).
    { subst m1. destruct (truthy_id _) as [i|] eqn:E; [|exact Hk].
      intros k v Hin. apply map_set_in in Hin as [X | X].
      - inversion X; subst. apply truthy_id_some. exact E.
      - apply Hk. exact X. }
    assert (Hn1 : NoDup (map fst m1)).
    { subst m1. destruct (truthy_id _); [apply map_set_nodup|]; exact Hn. }
    destruct (IH m1 Hk1 Hn1) as (A & B & C & D). cbv zeta in A, B, C, D.
    split; [exact A|]. split; [exact B|]. split.
    + intros k v Hin. destruct (C k v Hin) as [X | X]; [|right; right; exact X].
      subst m1. destruct (truthy_id _); [|left; exact X].
      apply map_set_in in X as [X | X]; [|left; exact X].
      inversion X; subst. right. left. reflexivity.
    + intros k Hcase. apply D.
      destruct Hcase as [H | (v & [<- | Hv] & Hid & Hne)].
      * left. subst m1. destruct (truthy_id _); [|exact H].
        apply map_set_key_in. right. exact H.
      * left. subst m1.
        rewrite (proj2 (truthy_id_some _ _) (conj Hid Hne)).
        apply map_set_key_in. left. reflexivity.
      * right. exists v. repeat split; assumption.
Qed.

Lemma repeats_of_keys (m : list (string * PartialPlayer.t)) :
  keyed m -> NoDup (map fst m) -> repeats (map PartialPlayer.id (map snd m)) = false.
Proof.
  induction m as [|[k v] m IH]; intros Hk Hn; [reflexivity|].
  cbn [map snd repeats]. inversion Hn as [|? ? Hnot Hn']; subst.
  rewrite IH; [|intros k' v' H; apply Hk; right; exact H | exact Hn'].
  destruct (Hk k v (or_introl eq_refl)) as [Hid _]. rewrite Hid.
  rewrite orb_false_r.
  destruct (existsb _ _) eqn:E; [|reflexivity].
  apply existsb_exists in E as ([j|] & Hin & Hj); [|discriminate].
  apply String.eqb_eq in Hj. subst j.
  apply in_map_iff in Hin as (v' & Hv' & Hin). apply in_map_iff in Hin as ([k' v''] & <- & Hin).
  simpl in Hv'. destruct (Hk k' v''  (or_intror Hin)) as [Hid' _].
  rewrite Hid' in Hv'. inversion Hv'; subst.
  exfalso. apply Hnot. apply in_map_iff. exists (k, v''). split; [reflexivity|exact Hin].
Qed.

(** The deduplicated rows: rows of the list, no id twice, no id lost. *)
Lemma deduplicatedPlayers_spec (us : list PartialPlayer.t) :
  repeats (map PartialPlayer.id (deduplicatedPlayers us)) = false
  /\ (forall u, In u (deduplicatedPlayers us) ->
                In u us /\ exists i, PartialPlayer.id u = Some i /\ i <> "")
  /\ (forall u i, In u us -> PartialPlayer.id u = Some i -> i <> "" ->
                  exists v, In v (deduplicatedPlayers us) /\ PartialPlayer.id v = Some i).
Proof.
  unfold deduplicatedPlayers.
  destruct (dedupe_fold us [] (fun k v H => match H with end) (NoDup_nil _))
    as (A & B & C & D).
  split; [apply repeats_of_keys; assumption|]. split.
  - intros u Hin. apply in_map_iff in Hin as ([k v] & <- & Hin). simpl.
    destruct (C k v Hin) as [[] | X]. split; [exact X|].
    exists k. apply A. exact Hin.
  - intros u i Hin Hid Hne.
    assert (Hk : In i (map fst (fold_left
                 (fun m u => match truthy_id (PartialPlayer.id u) with
                             | Some i => map_set i u m
                             | None => m
                             end) us []))).
    { apply D. right. exists u. repeat split; assumption. }
    apply in_map_iff in Hk as ([k v] & <- & Hk). simpl.
    exists v. split; [apply in_map_iff; exists (k, v); split; [reflexivity|exact Hk]|].
    apply A. exact Hk.
Qed.

(** ** Sums over a table *)


Lemma count_weighted (c : RoomPlayer.t -> bool) (l : list RoomPlayer.t) :
  Z.of_nat (List.length (filter c l)) = weighted (fun p => if c p then 1 else 0) l.
Proof.
  induction l as [|p l IH]; simpl; [reflexivity|].
  destruct (c p); simpl List.length; lia.
Qed.


Lemma weighted_map (f : RoomPlayer.t -> Z) (F : RoomPlayer.t -> RoomPlayer.t)
    (l : list RoomPlayer.t) :
  weighted f (map F l) = weighted (fun t => f (F t)) l.
Proof. induction l as [|p l IH]; simpl; [reflexivity|]. rewrite IH. reflexivity. Qed.

Lemma weighted_ext (f g : RoomPlayer.t -> Z) (l : list RoomPlayer.t) :
  (forall t, In t l -> f t = g t) -> weighted f l = weighted g l.
Proof.
  induction l as [|p l IH]; simpl; intros H; [reflexivity|].
  rewrite (H p (or_introl eq_refl)), IH; [reflexivity|].
  intros t Ht. apply H. right. exact Ht.
Qed.



Lemma weighted_insert (f : RoomPlayer.t -> Z) (p : RoomPlayer.t) (l : list RoomPlayer.t) :
  weighted f (insert_by_seat p l) = f p + weighted f l.
Proof.
  induction l as [|q l IH]; simpl; [reflexivity|].
  destruct (RoomPlayer.seat_number p <=? RoomPlayer.seat_number q); simpl;
    [reflexivity|]. rewrite IH. lia.
Qed.

Lemma weighted_order (f : RoomPlayer.t -> Z) (l : list RoomPlayer.t) :
  weighted f (order_by_seat l) = weighted f l.
Proof.
  induction l as [|q l IH]; simpl; [reflexivity|].
  rewrite weighted_insert, IH. reflexivity.
Qed.

Lemma insert_by_seat_in (p x : RoomPlayer.t) (l : list RoomPlayer.t) :
  In x (insert_by_seat p l) <-> x = p \/ In x l.
Proof.
  induction l as [|q l IH]; simpl.
  - split; intros [H|H]; auto.
  - destruct (RoomPlayer.seat_number p <=? RoomPlayer.seat_number q); simpl.
    + split; intros [H|H]; auto.
    + rewrite IH. split; intros H; intuition auto.
Qed.

Lemma order_by_seat_in (x : RoomPlayer.t) (l : list RoomPlayer.t) :
  In x (order_by_seat l) <-> In x l.
Proof.
  induction l as [|q l IH]; simpl; [reflexivity|].
  rewrite insert_by_seat_in, IH. split; intros [H|H]; auto.
Qed.

Lemma players_of_in (rid : string) (d : DB) (x : RoomPlayer.t) :
  In x (players_of rid d) <-> In x (room_players d) /\ in_room rid x = true.
Proof. unfold players_of. rewrite order_by_seat_in, filter_In. reflexivity. Qed.

(** ** Rows with distinct ids *)

Lemma distinct_fresh (i : string) (l : list RoomPlayer.t) :
  existsb (String.eqb i) (map RoomPlayer.id l) = false ->
  forall t, In t l -> (RoomPlayer.id t =s? i) = false.
Proof.
  intros H t Ht. destruct (RoomPlayer.id t =s? i) eqn:E; [|reflexivity].
  apply String.eqb_eq in E.
  assert (X : existsb (String.eqb i) (map RoomPlayer.id l) = true).
  { apply existsb_exists. exists (RoomPlayer.id t). split.
    - apply in_map. exact Ht.
    - rewrite E. apply eqs_refl. }
  rewrite X in H. discriminate H.
Qed.




Lemma distinct_unique (l : list RoomPlayer.t) (a b : RoomPlayer.t) :
  distinct (map RoomPlayer.id l) = true -> In a l -> In b l ->
  RoomPlayer.id a = RoomPlayer.id b -> a = b.
Proof.
  induction l as [|q l IH]; simpl; intros D Ha Hb E; [contradiction|].
  apply andb_prop in D as [D1 D2]. apply negb_true_iff in D1.
  destruct Ha as [-> | Ha], Hb as [-> | Hb]; [reflexivity| | |auto].
  - pose proof (distinct_fresh _ _ D1 b Hb) as X. rewrite E, eqs_refl in X. discriminate X.
  - pose proof (distinct_fresh _ _ D1 a Ha) as X. rewrite E, eqs_refl in X. discriminate X.
Qed.

(** ** A table after one seat's move *)

Lemma merge_to_partial (t q : RoomPlayer.t) :
  merge_player t (Logic.to_partial q) = q.
Proof. destruct q; reflexivity. Qed.

Lemma moved_same (i : string) (w : Z) (fo : bool) (t : RoomPlayer.t) :
  (RoomPlayer.id t =s? i) = false -> moved i w fo t t.
Proof. intros E. unfold moved. rewrite E. repeat split. lia. Qed.

Lemma rows_moved (T players : list RoomPlayer.t) (p0 : RoomPlayer.t) (m : Logic.Move)
    (adv : bool) (q t : RoomPlayer.t) :
  distinct (map RoomPlayer.id T) = true ->
  In p0 players -> (forall x, In x players -> In x T) ->
  In q (returned_rows p0 m adv players) ->
  In t T -> RoomPlayer.id q = RoomPlayer.id t ->
  moved (RoomPlayer.id p0) (Logic.m_wager m) (RoomPlayer.has_folded (Logic.act p0 m)) t q.
Proof.
  intros D Hp0 Hsub Hq Ht E. unfold returned_rows in Hq. destruct Hq as [<- | Hq].
  - assert (t = p0) by (apply (distinct_unique T); auto). subst t.
    unfold moved. rewrite eqs_refl. repeat split.
  - destruct adv; [|contradiction].
    unfold Logic.replace_player in Hq. rewrite map_map in Hq.
    apply in_map_iff in Hq as (x & <- & Hx).
    change (RoomPlayer.id (Logic.act p0 m)) with (RoomPlayer.id p0) in *.
    destruct (RoomPlayer.id x =s? RoomPlayer.id p0) eqn:Ex.
    + assert (t = p0) by (apply (distinct_unique T); auto). subst t.
      unfold moved. rewrite eqs_refl. repeat split.
    + assert (t = x) by (apply (distinct_unique T); auto). subst t.
      unfold moved. rewrite Ex. simpl. repeat split. lia.
Qed.

Lemma overlay_moved (T players : list RoomPlayer.t) (p0 : RoomPlayer.t) (m : Logic.Move)
    (adv : bool) (us : list PartialPlayer.t) (t : RoomPlayer.t) :
  distinct (map RoomPlayer.id T) = true ->
  In p0 players -> (forall x, In x players -> In x T) ->
  (forall u, In u us ->
     exists q, In q (returned_rows p0 m adv players) /\ u = Logic.to_partial q) ->
  (exists v, In v us /\ PartialPlayer.id v = Some (RoomPlayer.id p0)) ->
  In t T ->
  moved (RoomPlayer.id p0) (Logic.m_wager m) (RoomPlayer.has_folded (Logic.act p0 m))
        t (overlay us t).
Proof.
  intros D Hp0 Hsub Hrows (v & Hv & Hvid) Ht. unfold overlay.
  destruct (find (names (RoomPlayer.id t)) us) as [u|] eqn:E.
  - apply find_some in E as [Hu Hn]. destruct (Hrows u Hu) as (q & Hq & ->).
    rewrite merge_to_partial. unfold names in Hn. simpl in Hn.
    apply String.eqb_eq in Hn. eapply rows_moved; eauto.
  - apply moved_same. pose proof (find_none _ _ E v Hv) as X.
    unfold names in X. rewrite Hvid in X. rewrite String.eqb_sym. exact X.
Qed.

Section Moved.

Variables (i : string) (w : Z) (fo : bool) (rid : string).
Variable F : RoomPlayer.t -> RoomPlayer.t.




Lemma moved_count (l : list RoomPlayer.t) :
  (forall t, In t l -> moved i w fo t (F t)) ->
  Z.of_nat (List.length (filter Logic.in_hand (map F l)))
  = weighted (fun t => if stays i fo t then 1 else 0) l.
Proof.
  intros HF. rewrite count_weighted, weighted_map. apply weighted_ext.
  intros t Ht. destruct (HF t Ht) as (_ & _ & _ & _ & Hf).
  unfold Logic.in_hand, stays. rewrite Hf. reflexivity.
Qed.




End Moved.

(** ** Who wins and who is paid *)

Lemma ranks_seats (strength : list Card -> list Card -> option Z)
    (hands : list ActiveHand) (board : list Card) (l : list (Z * Z)) :
  Logic.ranks strength hands board = Some l -> map fst l = map seatNumber hands.
Proof.
  revert l. induction hands as [|h r IH]; simpl; intros l H.
  - inversion H. reflexivity.
  - destruct (strength (cards h) board); [|discriminate].
    destruct (Logic.ranks strength r board) as [l'|]; [|discriminate].
    inversion H; subst. simpl. rewrite (IH l' eq_refl). reflexivity.
Qed.

Lemma best_attained (l : list (Z * Z)) (b : Z) :
  Logic.best l = Some b -> exists sv, In sv l /\ snd sv = b.
Proof.
  revert b. induction l as [|[s v] r IH]; simpl; intros b H; [discriminate|].
  destruct (Logic.best r) as [b'|] eqn:E.
  - inversion H; subst. destruct (Z.max_spec v b') as [[_ X] | [_ X]]; rewrite X.
    + destruct (IH b' eq_refl) as (sv & Hin & Hsv). exists sv. split; [right|]; assumption.
    + exists (s, v). split; [left|]; reflexivity.
  - inversion H; subst. exists (s, b). split; [left|]; reflexivity.
Qed.

Lemma best_none (l : list (Z * Z)) : Logic.best l = None -> l = [].
Proof.
  destruct l as [|[s v] r]; simpl; [reflexivity|].
  destruct (Logic.best r); discriminate.
Qed.

Lemma board_winners_spec (strength : list Card -> list Card -> option Z)
    (hands : list ActiveHand) (board : list Card) (ws : list Z) :
  Logic.board_winners strength hands board = inr ws ->
  (hands <> [] -> ws <> [])
  /\ (forall s, In s ws -> In s (map seatNumber hands)).
Proof.
  unfold Logic.board_winners.
  destruct (Logic.ranks strength hands board) as [l|] eqn:Er; [|discriminate].
  pose proof (ranks_seats _ _ _ _ Er) as Hs.
  destruct (Logic.best l) as [b|] eqn:Eb; intros H; inversion H; subst; clear H.
  - split.
    + intros _. destruct (best_attained _ _ Eb) as (sv & Hin & Hsv).
      intros X.
      assert (Y : In (fst sv) (map fst (filter (fun sv => snd sv =? b) l))).
      { apply in_map. apply filter_In. split; [exact Hin|]. apply Z.eqb_eq. exact Hsv. }
      rewrite X in Y. exact Y.
    + intros s Hin. rewrite <- Hs. apply in_map_iff in Hin as (sv & <- & Hin).
      apply filter_In in Hin as [Hin _]. apply in_map. exact Hin.
  - apply best_none in Eb. subst l. split.
    + intros Hne _. destruct hands; [apply Hne; reflexivity|discriminate].
    + intros s [].
Qed.

Lemma determine_spec (strength : list Card -> list Card -> option Z)
    (hands : list ActiveHand) (b1 b2 : list Card) (w1 w2 : list Z) :
  Logic.determineDoubleBoardWinners strength hands b1 b2 = inr (w1, w2) ->
  forall s, In s (w1 ++ w2) -> In s (map seatNumber hands).
Proof.
  unfold Logic.determineDoubleBoardWinners.
  destruct (Logic.board_winners strength hands b1) as [e|ws1] eqn:E1; [discriminate|].
  apply board_winners_spec in E1 as [_ H1].
  destruct (is_empty b2).
  - intros H; inversion H; subst. intros s Hs. rewrite app_nil_r in Hs. auto.
  - destruct (Logic.board_winners strength hands b2) as [e|ws2] eqn:E2; [discriminate|].
    apply board_winners_spec in E2 as [_ H2].
    intros H; inversion H; subst. intros s Hs. apply in_app_or in Hs as [Hs|Hs]; auto.
Qed.

Lemma insert_seat_in (s x : Z) (l : list Z) :
  In x (Logic.insert_seat s l) -> x = s \/ In x l.
Proof.
  induction l as [|y r IH]; simpl.
  - intros [H|[]]; auto.
  - destruct (s <? y); [simpl; intros [H|[H|H]]; auto|].
    destruct (s =? y); [simpl; intros [H|H]; auto|].
    simpl. intros [H|H]; auto. destruct (IH H); auto.
Qed.

Lemma seat_set_in (x : Z) (l : list Z) : In x (Logic.seat_set l) -> In x l.
Proof.
  induction l as [|y r IH]; simpl; [auto|].
  intros H. apply insert_seat_in in H as [H|H]; auto.
Qed.

Lemma clockwise_from_in (button x : Z) (l : list Z) :
  In x (Logic.clockwise_from button l) -> In x l.
Proof.
  unfold Logic.clockwise_from. intros H. apply seat_set_in.
  apply in_app_or in H as [H|H]; apply filter_In in H as [H _]; exact H.
Qed.

Lemma credit_in (s a x : Z) (m : list Payout) :
  In x (map seat (Logic.credit s a m)) <-> x = s \/ In x (map seat m).
Proof.
  induction m as [|p r IH]; simpl.
  - split; intros [H|H]; auto.
  - destruct (seat p =? s) eqn:E; simpl.
    + apply Z.eqb_eq in E. split; intros H; intuition (subst; auto).
    + rewrite IH. split; intros H; intuition auto.
Qed.

Lemma credit_nodup (s a : Z) (m : list Payout) :
  NoDup (map seat m) -> NoDup (map seat (Logic.credit s a m)).
Proof.
  induction m as [|p r IH]; simpl; intros H.
  - constructor; [intros []|constructor].
  - inversion H as [|? ? Hn Hr]; subst. destruct (seat p =? s) eqn:E; simpl.
    + apply Z.eqb_eq in E. subst s. constructor; assumption.
    + constructor; [|auto]. rewrite credit_in. intros [X|X]; [|contradiction].
      rewrite X, Z.eqb_refl in E. discriminate E.
Qed.

Lemma to_mapping_seats (l : list Payout) :
  NoDup (map seat (Logic.to_mapping l))
  /\ forall x, In x (map seat (Logic.to_mapping l)) -> In x (map seat l).
Proof.
  unfold Logic.to_mapping.
  assert (G : forall m, NoDup (map seat m) ->
            NoDup (map seat (fold_left (fun m p => Logic.credit (seat p) (amount p) m) l m))
            /\ forall x, In x (map seat (fold_left
                                 (fun m p => Logic.credit (seat p) (amount p) m) l m)) ->
                         In x (map seat m) \/ In x (map seat l)).
  { induction l as [|p r IH]; simpl; intros m Hm; [split; auto|].
    destruct (IH (Logic.credit (seat p) (amount p) m) (credit_nodup _ _ _ Hm)) as [A B].
    split; [exact A|]. intros x Hx. destruct (B x Hx) as [X|X]; [|auto].
    apply credit_in in X as [X|X]; auto. }
  destruct (G [] (NoDup_nil _)) as [A B]. split; [exact A|].
  intros x Hx. destruct (B x Hx) as [[]|X]. exact X.
Qed.

(** What the payout calculator returns: amounts that sum to the pot, for
    winners of one of the boards, each seat once. *)
Lemma endOfHandPayout_spec (button : Z) (w1 : list Z) (w2 : list Z) (pot : Z)
    (payouts : list Payout) :
  Logic.endOfHandPayout button w1 (if is_empty w2 then None else Some w2) pot
  = inr payouts ->
  Logic.total payouts = pot
  /\ NoDup (map seat payouts)
  /\ forall s, In s (map seat payouts) -> In s (w1 ++ w2).
Proof.
  unfold Logic.endOfHandPayout.
  destruct (Logic.board_shares button w1 (if is_empty w2 then None else Some w2) pot)
    as [s1 s2] eqn:Es.
  destruct (Logic.total (Logic.to_mapping (s1 ++ s2)) =? pot) eqn:Et; [|discriminate].
  intros H; inversion H; subst; clear H.
  destruct (to_mapping_seats (s1 ++ s2)) as [A B].
  split; [apply Z.eqb_eq; exact Et|]. split; [exact A|].
  intros s Hs. specialize (B s Hs). rewrite map_app in B.
  unfold Logic.board_shares, Logic.split_among in Es.
  destruct (is_empty w2) eqn:Ew; inversion Es as [[E1 E2]]; clear Es;
    rewrite <- E1, <- E2 in B.
  - rewrite seats_split_from in B. cbn [map] in B. rewrite app_nil_r in B.
    apply in_or_app. left. eapply clockwise_from_in. exact B.
  - rewrite !seats_split_from in B. apply in_or_app.
    apply in_app_or in B as [B|B]; [left|right]; eapply clockwise_from_in; exact B.
Qed.

(** ** The credits of a payout *)



(** ** The table and the hand in progress *)









(** ** Running a handler to the end *)

Lemma bind_world {A B} (m : Handler A) (k : A -> Handler B) (w : World) :
  (forall a w1, snd (k a w1) = w1) -> snd (bind m k w) = snd (m w).
Proof.
  intros H. unfold bind. destruct (m w) as [[a|r|e] w1]; simpl; [apply H| |]; reflexivity.
Qed.


(** ** The payout block conserves the chips *)




(** ** An accepted action, step by step *)


Lemma returned_rows_ids (p0 : RoomPlayer.t) (m : Logic.Move) (adv : bool)
    (players : list RoomPlayer.t) (q : RoomPlayer.t) :
  In p0 players -> In q (returned_rows p0 m adv players) ->
  exists x, In x players /\ RoomPlayer.id x = RoomPlayer.id q.
Proof.
  intros Hp0 [<- | Hq]; [exists p0; split; [exact Hp0|reflexivity]|].
  destruct adv; [|contradiction]. unfold Logic.replace_player in Hq.
  rewrite map_map in Hq. apply in_map_iff in Hq as (x & <- & Hx).
  destruct (RoomPlayer.id x =s? RoomPlayer.id (Logic.act p0 m)) eqn:E.
  - exists p0. split; [exact Hp0|reflexivity].
  - exists x. split; [exact Hx|reflexivity].
Qed.

Lemma replace_moved (T players : list RoomPlayer.t) (p0 : RoomPlayer.t) (m : Logic.Move)
    (x : RoomPlayer.t) :
  distinct (map RoomPlayer.id T) = true ->
  In p0 players -> (forall x, In x players -> In x T) -> In x players ->
  moved (RoomPlayer.id p0) (Logic.m_wager m) (RoomPlayer.has_folded (Logic.act p0 m))
        x (if RoomPlayer.id x =s? RoomPlayer.id (Logic.act p0 m)
           then Logic.act p0 m else x).
Proof.
  intros D Hp0 Hsub Hx.
  change (RoomPlayer.id (Logic.act p0 m)) with (RoomPlayer.id p0).
  destruct (RoomPlayer.id x =s? RoomPlayer.id p0) eqn:E.
  - apply String.eqb_eq in E.
    assert (x = p0) by (apply (distinct_unique T); auto). subst x.
    unfold moved. rewrite eqs_refl. repeat split.
  - apply moved_same. exact E.
Qed.

(** ** One request conserves the chips *)




(** ** The deal *)










Lemma greatest_hand_none (l : list GameState.t) : greatest_hand l = None -> l = [].
Proof.
  destruct l as [|g r]; [reflexivity|]. simpl.
  destruct (greatest_hand r) as [h|]; [|discriminate].
  destruct (GameState.hand_number g <? GameState.hand_number h); discriminate.
Qed.







Section DealtRows.

Variable H : RoomPlayer.t -> RoomPlayer.t.
Hypothesis H_id : forall p, RoomPlayer.id (H p) = RoomPlayer.id p.




End DealtRows.


(** ** Chip conservation *)



(** * Further properties of the code *)

(** ** The [actions] handler always answers *)

Lemma bind_quiet {A B} (m : Handler A) (k : A -> Handler B) :
  quiet m -> (forall a, quiet (k a)) -> quiet (bind m k).
Proof.
  intros Hm Hk w r. unfold bind. specialize (Hm w).
  destruct (m w) as [[a|r'|e] w1]; cbn [fst] in *.
  - apply Hk.
  - destruct (Hm r' eq_refl).
  - discriminate.
Qed.

Lemma bind_answers {A B} (m : Handler A) (k : A -> Handler B) :
  quiet m -> (forall a, answers (k a)) -> answers (bind m k).
Proof.
  intros Hm Hk w. unfold bind. specialize (Hm w).
  destruct (m w) as [[a|r'|e] w1]; cbn [fst] in *.
  - apply Hk.
  - destruct (Hm r' eq_refl).
  - exact I.
Qed.

Lemma send_answers {A} (status : Z) (b : Body) : answers (@send A status b).
Proof. intros w. exact I. Qed.

Lemma ret_quiet {A} (a : A) : quiet (ret a).
Proof. intros w r. discriminate. Qed.

Lemma record_call_quiet (c : Call) : quiet (record_call c).
Proof. intros w r. discriminate. Qed.

Lemma select_quiet {A} (faults : Faults) (s : Step) (f : DB -> A) : quiet (select faults s f).
Proof. intros w r. unfold select, throw, query. destruct (faults s); discriminate. Qed.

Lemma write_quiet (faults : Faults) (s : Step) (f : DB -> string + DB) :
  quiet (write faults s f).
Proof.
  intros w r. unfold write. destruct (faults s); [discriminate|].
  destruct (f (store w)); discriminate.
Qed.

Lemma check_quiet (e : option string) : quiet (check e).
Proof. intros w r. destruct e; discriminate. Qed.

Lemma finish_hand_quiet (L : EngineLogic) (faults : Faults) (roomId : string)
    (g : GameState.t) (secret : Secret.t) (players : list RoomPlayer.t) (o : Outcome) :
  quiet (finish_hand faults roomId g secret players o).
Proof.
  intros w r E.
  destruct (finish_hand faults roomId g secret players o w) as [res w'] eqn:H.
  apply finish_hand_deletes in H as [H _]. cbn [fst] in E. exact (H r E).
Qed.

Lemma persist_outcome_answers (L : EngineLogic) (faults : Faults) (roomId : string)
    (payload : ActionPayload.t) (g : GameState.t) (secret : Secret.t)
    (players : list RoomPlayer.t) (o : Outcome) :
  answers (persist_outcome faults roomId payload g secret players o).
Proof.
  unfold persist_outcome. apply bind_answers; [apply write_quiet|]. intros _.
  destruct (truthy_id (error o)); [apply send_answers|].
  apply bind_answers.
  { destruct (is_empty _); [apply ret_quiet|].
    apply bind_quiet; [apply write_quiet|intros a; apply check_quiet]. }
  intros _. apply bind_answers; [apply write_quiet|]. intros gsErr.
  apply bind_answers; [apply check_quiet|]. intros _.
  apply bind_answers.
  { destruct (handCompleted o); [apply finish_hand_quiet|apply ret_quiet]. }
  intros _. destruct (handCompleted o); apply send_answers.
Qed.

(** X1.  The [actions] handler answers every request: whatever the body,
    the store's contents and the storage calls that fail, and whatever the
    engine's functions return or throw, the handler ends with a status and a
    JSON body; no exception escapes it. *)
Theorem actions_handler_always_answers :
  forall (L : EngineLogic) (is_uuid : string -> bool)
         (zod_message : list (string * JSON) -> string) (faults : Faults)
         (roomId : string) (body : ActionBody.t) (w : World),
    exists status b,
      fst (respond (post_action is_uuid zod_message faults roomId body) w) = Json status b.
Proof.
  intros L is_uuid zod_message faults roomId body w. unfold post_action.
  destruct (actionSchema is_uuid body) as [payload|]; [|eexists _, _; reflexivity].
  match goal with
  | |- context [try_catch ?m ?h] => assert (A : answers m)
  end.
  { apply bind_answers; [apply select_quiet|]. intros [room|]; [|apply send_answers].
    apply bind_answers; [apply select_quiet|]. intros [g|]; [|apply send_answers].
    apply bind_answers; [apply select_quiet|]. intros [secret|]; [|apply send_answers].
    apply bind_answers; [apply select_quiet|]. intros players.
    apply bind_answers; [apply record_call_quiet|]. intros _.
    apply persist_outcome_answers. }
  unfold respond, try_catch. specialize (A w).
  match goal with
  | |- context [let (_, _) := ?m w in _] => destruct (m w) as [[u|[st b|reason]|e] w1]
  end; cbn [fst] in A; try contradiction.
  - eexists _, _; reflexivity.
  - eexists _, _; reflexivity.
Qed.

(** ** What escapes the [start-hand] handler *)

(** X2.  The reads and the deal of [start-hand] stand outside its [try]:
    when the read of the room fails, or when the room is found, active, not
    paused and has two players and [dealHand] throws, the exception escapes
    the handler; the handler sends no reply of its own, and nothing is
    written. *)
Theorem start_hand_lets_the_deal_throw :
  forall (L : EngineLogic) (faults : Faults) (new_id roomId : string)
         (deckSeed : option string) (w : World) (e : string),
    (faults SelectRoom = Some e ->
     respond (start_hand faults new_id roomId deckSeed) w = (NoResponse e, w))
    /\ (forall room,
          faults SelectRoom = None -> faults SelectPlayers = None ->
          find (fun r => Room.id r =s? roomId) (rooms (store w)) = Some room ->
          Room.is_active room = true -> Room.is_paused room = false ->
          (2 <= List.length (players_of roomId (store w)))%nat ->
          dealHand room (players_of roomId (store w)) deckSeed = inl e ->
          respond (start_hand faults new_id roomId deckSeed) w
          = (NoResponse e, mkWorld (store w) (calls w ++ [CallDeal]))).
Proof.
  intros L faults new_id roomId deckSeed w e. split.
  - intros F. unfold respond, start_hand, fetchRoom, select, bind, throw. rewrite F.
    reflexivity.
  - intros room F1 F2 Hr Ha Hp Hn Hd.
    unfold respond, start_hand, fetchRoom, fetchPlayers, select, bind, query, throw,
      record_call.
    rewrite F1, F2. cbv beta iota. cbn [store calls]. rewrite Hr. cbv beta iota.
    rewrite Ha, Hp. cbn [negb orb].
    apply Nat.ltb_ge in Hn. rewrite Hn. cbn [store calls]. rewrite Hd. reflexivity.
Qed.

(** The sample table asked to deal from the empty seed, which the sample
    shuffle does not parse. *)
Lemma start_hand_lets_the_deal_throw_witness :
  respond (start_hand reliable "state-1" "room-1" (Some "")) (sample_world 100 100)
  = (NoResponse "InvalidSeed",
     mkWorld (store (sample_world 100 100)) (calls (sample_world 100 100) ++ [CallDeal])).
Proof.
  apply (proj2 (start_hand_lets_the_deal_throw sample_logic reliable "state-1" "room-1"
                  (Some "") (sample_world 100 100) "InvalidSeed") sample_room);
    reflexivity.
Defined.

(** ** The deduplication keeps the last row *)

Lemma find_app {A} (f : A -> bool) (a b : list A) :
  find f (a ++ b) = match find f a with Some x => Some x | None => find f b end.
Proof.
  induction a as [|x a IH]; simpl; [reflexivity|]. destruct (f x); [reflexivity|exact IH].
Qed.

Lemma keyed_map_set (k : string) (u : PartialPlayer.t)
    (m : list (string * PartialPlayer.t)) :
  keyed m -> PartialPlayer.id u = Some k -> k <> "" -> keyed (map_set k u m).
Proof.
  intros Hm Hu Hk k' v' Hin. apply map_set_in in Hin as [E | Hin].
  - inversion E; subst. split; assumption.
  - apply Hm. exact Hin.
Qed.

Lemma find_map_set (i k : string) (u : PartialPlayer.t)
    (m : list (string * PartialPlayer.t)) :
  keyed m -> PartialPlayer.id u = Some k ->
  find (names i) (map snd (map_set k u m))
  = if k =s? i then Some u else find (names i) (map snd m).
Proof.
  intros Hm Hu. induction m as [|[k' v'] r IH].
  - cbn. unfold names. rewrite Hu. destruct (k =s? i); reflexivity.
  - assert (Hv : names i v' = (k' =s? i)).
    { unfold names. destruct (Hm k' v' (or_introl eq_refl)) as [-> _]. reflexivity. }
    assert (Hr : keyed r) by (intros a b H; apply Hm; right; exact H).
    cbn [map_set]. destruct (k' =s? k) eqn:E.
    + apply String.eqb_eq in E. subst k'. cbn [map snd find].
      unfold names at 1. rewrite Hu, Hv. destruct (k =s? i); reflexivity.
    + cbn [map snd find]. rewrite Hv, (IH Hr).
      destruct (k' =s? i) eqn:E1; [|reflexivity].
      destruct (k =s? i) eqn:E2; [|reflexivity].
      apply String.eqb_eq in E1, E2. subst. rewrite eqs_refl in E. discriminate E.
Qed.

Lemma dedupe_last (i : string) (us : list PartialPlayer.t) :
  i <> "" ->
  forall m : list (string * PartialPlayer.t),
    keyed m ->
    find (names i)
      (map snd (fold_left (fun m u => match truthy_id (PartialPlayer.id u) with
                                      | Some k => map_set k u m
                                      | None => m
                                      end) us m))
    = match find (names i) (rev us) with
      | Some u => Some u
      | None => find (names i) (map snd m)
      end.
Proof.
  intros Hi. induction us as [|u us IH]; intros m Hm; [reflexivity|].
  cbn [fold_left rev]. rewrite find_app. cbn [find].
  destruct (truthy_id (PartialPlayer.id u)) as [k|] eqn:Et.
  - apply truthy_id_some in Et as [Hu Hk].
    rewrite (IH _ (keyed_map_set k u m Hm Hu Hk)), (find_map_set i k u m Hm Hu).
    assert (Hn : names i u = (k =s? i)) by (unfold names; rewrite Hu; reflexivity).
    rewrite Hn.
    destruct (find (names i) (rev us)); [reflexivity|]. destruct (k =s? i); reflexivity.
  - rewrite (IH _ Hm).
    assert (Hn : names i u = false).
    { unfold names. destruct (PartialPlayer.id u) as [j|] eqn:Ej; [|reflexivity].
      destruct (j =s? i) eqn:E; [|reflexivity]. apply String.eqb_eq in E. subst j.
      unfold truthy_id in Et. destruct (i =s? "") eqn:E0; [|discriminate Et].
      apply String.eqb_eq in E0. contradiction. }
    rewrite Hn. destruct (find (names i) (rev us)); reflexivity.
Qed.

(** X3.  The deduplication of the rows an action returns, as the comment
    in the handler says: of the rows that name an id, the last one is kept;
    rows with a missing or empty id are dropped; and no id is left twice, so
    the upsert of the deduplicated rows is not refused for a repeated id
    (PostgreSQL error 21000). *)
Theorem deduplication_keeps_the_last_row :
  forall (us : list PartialPlayer.t),
    (forall i, i <> "" ->
       find (names i) (deduplicatedPlayers us) = find (names i) (rev us))
    /\ (forall u, In u (deduplicatedPlayers us) ->
          In u us /\ exists i, PartialPlayer.id u = Some i /\ i <> "")
    /\ (forall d, upsert_players (deduplicatedPlayers us) d
                  = match upsert_rows (room_players d) (deduplicatedPlayers us) with
                    | inl e => inl e
                    | inr tbl => inr (set_room_players tbl d)
                    end).
Proof.
  intros us. destruct (deduplicatedPlayers_spec us) as (Hrep & Hin & _).
  split; [|split].
  - intros i Hi. unfold deduplicatedPlayers.
    rewrite (dedupe_last i us Hi [] (fun k v H => match H with end)).
    destruct (find (names i) (rev us)); reflexivity.
  - exact Hin.
  - intros d. unfold upsert_players. rewrite Hrep. reflexivity.
Qed.

(** ** The winners of both boards *)

Lemma unique_seats_spec (l : list Z) :
  forall seen : list Z,
    NoDup (unique_seats l seen)
    /\ forall x, In x (unique_seats l seen) <-> In x l /\ ~ In x seen.
Proof.
  induction l as [|y r IH]; intros seen; cbn [unique_seats].
  - split; [constructor|]. intros x. split; [intros []|intros [[] _]].
  - destruct (existsb (Z.eqb y) seen) eqn:E.
    + destruct (IH seen) as [A B]. split; [exact A|]. intros x. rewrite B.
      apply existsb_exists in E as (z & Hz & Ez). apply Z.eqb_eq in Ez. subst z.
      split; [intros [H1 H2]; split; [right|]; assumption|].
      intros [[-> | H1] H2]; [contradiction|split; assumption].
    + destruct (IH (y :: seen)) as [A B]. split.
      * constructor; [|exact A]. rewrite B. intros [_ H]. apply H. left. reflexivity.
      * intros x. cbn [In]. rewrite B. cbn [In].
        assert (Hy : ~ In y seen).
        { intros H. assert (X : existsb (Z.eqb y) seen = true).
          { apply existsb_exists. exists y. split; [exact H|apply Z.eqb_refl]. }
          rewrite X in E. discriminate E. }
        split.
        -- intros [-> | [H1 H2]]; [split; [left; reflexivity|exact Hy]|].
           split; [right; exact H1|]. intros H. apply H2. right. exact H.
        -- intros [[-> | H1] H2]; [left; reflexivity|].
           destruct (Z.eq_dec y x) as [-> | Hne]; [left; reflexivity|].
           right. split; [exact H1|]. intros [H | H]; [contradiction|contradiction].
Qed.

(** X4.  The winners recorded with a hand result, [Array.from(new
    Set([...board1Winners, ...board2Winners]))]: every winner of either
    board is listed, nothing else is, and no seat is listed twice, also when
    a seat wins both boards. *)
Theorem all_winners_is_the_union :
  forall (board1Winners board2Winners : list Z),
    NoDup (allWinners board1Winners board2Winners)
    /\ forall s, In s (allWinners board1Winners board2Winners)
                 <-> In s board1Winners \/ In s board2Winners.
Proof.
  intros w1 w2. unfold allWinners. destruct (unique_seats_spec (w1 ++ w2) []) as [A B].
  split; [exact A|]. intros s. rewrite B, in_app_iff. split; [intros [H _]; exact H|].
  intros H. split; [exact H|intros []].
Qed.

(** ** What the fetch helpers return *)

Lemma greatest_hand_greatest (l : list GameState.t) (g : GameState.t) :
  greatest_hand l = Some g ->
  forall h, In h l -> GameState.hand_number h <= GameState.hand_number g.
Proof.
  revert g. induction l as [|x r IH]; intros g H h Hin; [contradiction|].
  cbn [greatest_hand] in H. destruct (greatest_hand r) as [m|] eqn:E.
  - destruct (GameState.hand_number x <? GameState.hand_number m) eqn:Elt;
      inversion H; subst; clear H; destruct Hin as [<- | Hin].
    + apply Z.ltb_lt in Elt. lia.
    + apply (IH g eq_refl h Hin).
    + lia.
    + apply Z.ltb_ge in Elt. pose proof (IH m eq_refl h Hin). lia.
  - inversion H; subst; clear H. apply greatest_hand_none in E. subst r.
    destruct Hin as [<- | []]. lia.
Qed.

(** X5.  [fetchLatestGameState]: the row it reads is a game state of the
    room with the greatest hand number among the room's game states; it
    reads [null] only when the room has no game state at all. *)
Theorem latest_game_state_is_the_greatest :
  forall (roomId : string) (d : DB),
    match latest_game_state roomId d with
    | Some g =>
        In g (game_states d) /\ GameState.room_id g = roomId
        /\ forall h, In h (game_states d) -> GameState.room_id h = roomId ->
                     GameState.hand_number h <= GameState.hand_number g
    | None =>
        forall h, In h (game_states d) -> (GameState.room_id h =s? roomId) = false
    end.
Proof.
  intros roomId d. destruct (latest_game_state roomId d) as [g|] eqn:E.
  - destruct (latest_game_state_in roomId d g E) as [A B]. split; [exact A|].
    split; [exact B|]. intros h Hin Hr. unfold latest_game_state in E.
    apply (greatest_hand_greatest _ g E). apply filter_In. split; [exact Hin|].
    rewrite Hr. apply eqs_refl.
  - intros h Hin. unfold latest_game_state in E. apply greatest_hand_none in E.
    destruct (GameState.room_id h =s? roomId) eqn:Er; [|reflexivity].
    assert (X : In h (filter (fun g => GameState.room_id g =s? roomId) (game_states d)))
      by (apply filter_In; split; assumption).
    rewrite E in X. destruct X.
Qed.

Lemma insert_by_seat_ascending (p : RoomPlayer.t) (l : list RoomPlayer.t) :
  ascending l = true -> ascending (insert_by_seat p l) = true.
Proof.
  induction l as [|q r IH]; intros H; [reflexivity|].
  cbn [insert_by_seat]. cbn [ascending] in H. apply andb_prop in H as [H1 H2].
  destruct (RoomPlayer.seat_number p <=? RoomPlayer.seat_number q) eqn:E.
  - cbn [ascending forallb]. rewrite E, H1, H2. cbn [andb].
    rewrite andb_true_r. apply forallb_forall. intros x Hx.
    rewrite forallb_forall in H1. specialize (H1 x Hx).
    apply Z.leb_le in E, H1. apply Z.leb_le. lia.
  - cbn [ascending]. rewrite (IH H2), andb_true_r. apply forallb_forall. intros x Hx.
    apply insert_by_seat_in in Hx as [-> | Hx].
    + apply Z.leb_gt in E. apply Z.leb_le. lia.
    + rewrite forallb_forall in H1. exact (H1 x Hx).
Qed.

(** X6.  [fetchPlayers]: the rows it reads are the rows of the room and no
    others, in ascending order of the seat, each as often as the table holds
    it (for every test, as many rows pass it as rows of the room do). *)
Theorem players_are_read_in_seat_order :
  forall (roomId : string) (d : DB),
    ascending (players_of roomId d) = true
    /\ (forall p, In p (players_of roomId d)
                  <-> In p (room_players d) /\ RoomPlayer.room_id p = roomId)
    /\ (forall c : RoomPlayer.t -> bool,
          List.length (filter c (players_of roomId d))
          = List.length (filter c (filter (in_room roomId) (room_players d)))).
Proof.
  intros roomId d. split; [|split].
  - unfold players_of.
    induction (filter (fun p => RoomPlayer.room_id p =s? roomId) (room_players d))
      as [|p r IH]; [reflexivity|].
    cbn [order_by_seat fold_right]. apply insert_by_seat_ascending. exact IH.
  - intros p. rewrite players_of_in. unfold in_room. rewrite String.eqb_eq. reflexivity.
  - intros c. apply Nat2Z.inj. rewrite !count_weighted.
    unfold players_of. apply weighted_order.
Qed.

(** ** A dealt hand is the hand the next action reads *)

Lemma update_room_ids (rid : string) (hand button : Z) (d : DB) :
  map Room.id (rooms (update_room rid hand button d)) = map Room.id (rooms d).
Proof.
  unfold update_room. cbn [rooms set_rooms]. rewrite map_map. apply map_ext.
  intros r. destruct (Room.id r =s? rid); reflexivity.
Qed.

Lemma insert_game_state_row_inv (new_id : string) (g row : GameState.t) (d d1 : DB) :
  insert_game_state_row new_id g d = inr (row, d1) ->
  d1 = set_game_states (game_states d ++ [row]) d
  /\ GameState.id row = new_id
  /\ GameState.room_id row = GameState.room_id g
  /\ GameState.hand_number row = GameState.hand_number g
  /\ existsb (fun h => GameState.id h =s? new_id) (game_states d) = false.
Proof.
  unfold insert_game_state_row. destruct (existsb _ (game_states d)); [discriminate|].
  intros H. inversion H; subst. repeat split.
Qed.

(** What a 201 of [start-hand] stands for, whichever storage calls fail. *)
Lemma start_hand_created_tables (L : EngineLogic) (faults : Faults)
    (new_id rid : string) (seed : option string) (w w' : World) (resp : Response) :
  respond (start_hand faults new_id rid seed) w = (resp, w') ->
  is_created resp = true ->
  exists room deal row d1,
    find (fun r => Room.id r =s? rid) (rooms (store w)) = Some room
    /\ dealHand room (players_of rid (store w)) seed = inr deal
    /\ resp = Json 201 (BStarted row (d_deckSeed deal))
    /\ insert_game_state_row new_id (d_gameState deal) (store w) = inr (row, d1)
    /\ game_states (store w') = game_states d1
    /\ game_state_secrets (store w')
       = game_state_secrets (store w)
         ++ [Secret.mk (GameState.id row) (d_deckSeed deal)
               (d_fullBoard1 deal) (d_fullBoard2 deal)]
    /\ existsb (fun t => Secret.game_state_id t =s? GameState.id row)
               (game_state_secrets (store w)) = false
    /\ map Room.id (rooms (store w')) = map Room.id (rooms (store w)).
Proof.
  intros H Hc. destruct w as [d cs].
  unfold respond, start_hand, fetchRoom, fetchPlayers, select, insert_game_state,
    rollback, try_catch, check, write, bind, query, send, throw, ret, record_call,
    insert_secret in H.
  cbv beta iota zeta in H. cbn [store calls] in H.
  repeat (split_match H; cbv beta iota zeta in H; cbn [store calls] in H).
  all: inversion H; subst; clear H; try discriminate Hc.
  all: cbn [store].
  all: exists t, d0, t0, d1.
  all: destruct (insert_game_state_row_inv _ _ _ _ _ Heqs0) as (Hd1 & _).
  all: repeat match goal with
         | H : upsert_players _ _ = inr ?x |- _ =>
             apply upsert_players_frame in H; rewrite H; clear H
         end.
  all: cbn [Secret.game_state_id] in Heqb1.
  all: rewrite ?update_room_ids.
  all: cbn [game_states game_state_secrets rooms update_room set_rooms set_room_players
            set_player_hands set_game_state_secrets].
  all: rewrite Hd1 in Heqb1 |- *.
  all: cbn [game_states game_state_secrets rooms set_game_states] in Heqb1 |- *.
  all: repeat split; try assumption; try reflexivity.
  all: rewrite <- Hd1; assumption.
Qed.

(** X7.  A hand dealt by [start-hand] is the hand the [actions] handler
    reads next: when no game state of the room is in the store, [start-hand]
    answers 201 with a game state of the room and a deck seed, then, whichever
    of its storage calls failed, the reads of the [actions] handler find the
    room, that game state (under the id the store gave it) and a secrets row
    for it that holds the seed of the reply and the full boards of the
    deal. *)
Theorem dealt_hand_is_the_one_read :
  forall (L : EngineLogic) (faults : Faults) (new_id roomId : string)
         (deckSeed : option string) (w w' : World) (gs : GameState.t) (seed : string),
    latest_game_state roomId (store w) = None ->
    respond (start_hand faults new_id roomId deckSeed) w
    = (Json 201 (BStarted gs seed), w') ->
    GameState.room_id gs = roomId ->
    exists room0 deal room,
      @dealHand L room0 (players_of roomId (store w)) deckSeed = inr deal
      /\ seed = d_deckSeed deal
      /\ GameState.id gs = new_id
      /\ found roomId (store w')
         = Some (room, gs,
                 Secret.mk new_id seed (d_fullBoard1 deal) (d_fullBoard2 deal)).
Proof.
  intros L faults new_id roomId deckSeed w w' gs seed Hnone H Hroom.
  destruct (start_hand_created_tables L faults new_id roomId deckSeed w w' _ H eq_refl)
    as (room & deal & row & d1 & Hr & Hdeal & Hresp & Hins & Hgs & Hsec & Hex & Hids).
  inversion Hresp; subst row seed; clear Hresp.
  destruct (insert_game_state_row_inv _ _ _ _ _ Hins) as (Hd1 & Hid & _).
  assert (Hfind : exists room', find (fun r => Room.id r =s? roomId) (rooms (store w'))
                                = Some room').
  { destruct (find (fun r => Room.id r =s? roomId) (rooms (store w'))) as [r'|] eqn:E;
      [exists r'; reflexivity|].
    apply find_some in Hr as [Hin Hrid].
    assert (X : In (Room.id room) (map Room.id (rooms (store w'))))
      by (rewrite Hids; apply in_map; exact Hin).
    apply in_map_iff in X as (r' & Hr' & Hin').
    pose proof (find_none _ _ E r' Hin') as Y. cbv beta in Y.
    rewrite Hr', Hrid in Y. discriminate Y. }
  destruct Hfind as (room' & Hfind).
  exists room, deal, room'. split; [exact Hdeal|]. split; [reflexivity|]. split; [exact Hid|].
  unfold found. rewrite Hfind.
  assert (Hl : latest_game_state roomId (store w') = Some gs).
  { unfold latest_game_state in *. rewrite Hgs, Hd1. cbn [game_states set_game_states].
    rewrite filter_app. apply greatest_hand_none in Hnone. rewrite Hnone.
    cbn [filter app]. rewrite Hroom, eqs_refl. reflexivity. }
  rewrite Hl, Hsec, Hid.
  rewrite (find_app_none _ _ (Secret.mk new_id (d_deckSeed deal) (d_fullBoard1 deal)
                                (d_fullBoard2 deal))).
  - reflexivity.
  - rewrite <- Hid. exact Hex.
  - cbn. apply eqs_refl.
Qed.

(** The sample table: the hand dealt from ["seed-1"] is found. *)
Lemma dealt_hand_is_the_one_read_witness :
  exists room deal gs,
    found "room-1" (store (dealt_world 100 100))
    = Some (room, gs, Secret.mk "state-1" "seed-1" (d_fullBoard1 deal)
                        (d_fullBoard2 deal)).
Proof.
  let r := eval vm_compute in
             (fst (respond (start_hand reliable "state-1" "room-1" (Some "seed-1"))
                           (sample_world 100 100))) in
  match r with
  | Json 201 (BStarted ?gs ?seed) =>
      destruct (dealt_hand_is_the_one_read sample_logic reliable "state-1" "room-1"
                  (Some "seed-1") (sample_world 100 100) (dealt_world 100 100) gs seed)
        as (room0 & deal & room & _ & Hs & _ & Hf);
      [vm_compute; reflexivity | vm_compute; reflexivity | reflexivity
      | exists room, deal, gs; exact Hf]
  end.
Defined.

(** ** An action is not written atomically *)

Lemma upsert_players_log (us : list PartialPlayer.t) (x : list PlayerAction.t) (d : DB) :
  upsert_players us (set_player_actions x d)
  = match upsert_players us d with
    | inl e => inl e
    | inr d' => inr (set_player_actions x d')
    end.
Proof.
  unfold upsert_players. destruct (repeats _); [reflexivity|].
  cbn [room_players set_player_actions].
  destruct (upsert_rows (room_players d) us); reflexivity.
Qed.

(** X8.  The writes of an accepted action are not atomic: when the upsert
    of the player rows has gone through and the update of the game state
    then fails, the handler answers 500 (with "Unknown error", the error of
    the store being no [Error]) and undoes nothing; the player rows stay as
    the upsert left them (the wager has left the stack) while the game
    state, and with it the pot, is what it was. *)
Theorem failed_game_state_update_keeps_the_player_rows :
  forall (L : EngineLogic) (is_uuid : string -> bool)
         (zod_message : list (string * JSON) -> string) (faults : Faults)
         (roomId : string) (body : ActionBody.t) (payload : ActionPayload.t)
         (w : World) (room : Room.t) (g : GameState.t) (secret : Secret.t)
         (d1 : DB) (e : string),
    actionSchema is_uuid body = Some payload ->
    faults SelectRoom = None -> faults SelectGameState = None ->
    faults SelectSecret = None -> faults SelectPlayers = None ->
    found roomId (store w) = Some (room, g, secret) ->
    let o := outcome_for roomId payload (store w) room g secret in
    truthy_id (error o) = None ->
    is_empty (updatedPlayers o) = false ->
    faults UpsertPlayers = None ->
    upsert_players (deduplicatedPlayers (updatedPlayers o)) (store w) = inr d1 ->
    faults UpdateGameState = Some e ->
    let r := respond (post_action is_uuid zod_message faults roomId body) w in
    fst r = Json 500 (BError "Unknown error")
    /\ room_players (store (snd r)) = room_players d1
    /\ game_states (store (snd r)) = game_states (store w)
    /\ hand_results (store (snd r)) = hand_results (store w).
Proof.
  intros L is_uuid zod_message faults roomId body payload w room g secret d1 e
         E F1 F2 F3 F4 Hf o Herr Hne Fu Hup Fg r.
  subst r. rewrite (post_action_found L is_uuid zod_message faults _ _ _ _ _ _ _ E F1 F2 F3 F4 Hf).
  fold o. unfold respond, try_catch, persist_outcome.
  rewrite Herr, Hne. unfold bind, write, check, throw, send.
  rewrite Fu, Fg. cbv beta iota. cbn [store calls].
  pose proof (upsert_players_frame _ _ _ Hup) as Hfr.
  destruct (faults InsertAction); cbv beta iota; cbn [store calls].
  - rewrite Hup. unfold ret. cbv beta iota. cbn [fst snd store].
    repeat split; rewrite Hfr; reflexivity.
  - rewrite upsert_players_log, Hup. unfold ret. cbv beta iota. cbn [fst snd store].
    repeat split; rewrite Hfr; reflexivity.
Qed.

(** The sample table after the deal: seat 1 calls, and the update of the
    game state fails.  Seat 1 has paid the chip, the pot has not got it. *)
Lemma failed_game_state_update_keeps_the_player_rows_witness :
  let r := respond (post_action uuid_shape sample_message game_state_update_fails "room-1"
                      (request 1 "call" None None)) (dealt_world 100 100) in
  fst r = Json 500 (BError "Unknown error")
  /\ room_stacks "room-1" (store (snd r)) = 196
  /\ pot_of "room-1" (store (snd r)) = 3.
Proof.
  cbv zeta.
  let f := eval vm_compute in (found "room-1" (store (dealt_world 100 100))) in
  match f with
  | Some (?room, ?g, ?secret) =>
      let u := eval vm_compute in
                 (upsert_players
                    (deduplicatedPlayers
                       (updatedPlayers
                          (outcome_for (L := sample_logic) "room-1"
                             (ActionPayload.mk 1 ACall None None None)
                             (store (dealt_world 100 100)) room g secret)))
                    (store (dealt_world 100 100))) in
      match u with
      | inr ?d1 =>
          destruct (failed_game_state_update_keeps_the_player_rows sample_logic
                      uuid_shape sample_message game_state_update_fails "room-1"
                      (request 1 "call" None None)
                      (ActionPayload.mk 1 ACall None None None) (dealt_world 100 100)
                      room g secret d1 "update failed")
            as (A & _); [vm_compute; reflexivity ..|]
      end
  end.
  split; [exact A|]. vm_compute. split; reflexivity.
Defined.

(** ** The row written to [hand_results] *)

Lemma settle_hand_result (L : EngineLogic) (faults : Faults) (roomId : string)
    (g : GameState.t) (secret : Secret.t) (players : list RoomPlayer.t) (o : Outcome)
    (pot : Z) (w w' : World) (u : unit) :
  settle_hand faults roomId g secret players o pot w = (Val u, w') ->
  exists w1 w2,
    determineDoubleBoardWinners
      (activeHands (mergedPlayers players (updatedPlayers o))
         (filter (fun h => PlayerHand.game_state_id h =s? GameState.id g)
                 (player_hands (store w))))
      (Secret.full_board1 secret) (Secret.full_board2 secret) = inr (w1, w2)
    /\ hand_results (store w')
    = hand_results (store w)
      ++ [HandResult.mk roomId (GameState.hand_number g) pot
            (match GameState.board_state g with Some b => board1 b | None => None end)
            (match GameState.board_state g with Some b => board2 b | None => None end)
            (allWinners w1 w2)
            (or_else (PartialGameState.action_history (updatedGameState o))
                     (GameState.action_history g))].
Proof.
  intros H. destruct w as [d cs].
  unfold settle_hand, select, write, check, bind, query, throw, ret, record_call in H.
  cbv beta iota zeta in H. simpl store in H. simpl calls in H.
  repeat (split_match H; cbv beta iota zeta in H).
  all: inversion H; subst; clear H; simpl store in *; simpl calls in *.
  all: match goal with
       | E1 : determineDoubleBoardWinners _ _ _ = inr (?a, ?b) |- _ =>
           exists a, b; split; [reflexivity|]
       end.
  all: repeat match goal with
         | E : upsert_players _ _ = inr ?d |- _ =>
             apply upsert_players_frame in E; rewrite E; clear E
         end.
  all: reflexivity.
Qed.

Lemma persist_outcome_results (L : EngineLogic) (faults : Faults) (roomId : string)
    (payload : ActionPayload.t) (g : GameState.t) (secret : Secret.t)
    (players : list RoomPlayer.t) (o : Outcome) (w w' : World) (r : Response) :
  persist_outcome faults roomId payload g secret players o w = (Sent r, w') ->
  is_ok r = true ->
  exists w2,
    (hand_results (store w2) = hand_results (store w)
     /\ player_hands (store w2) = player_hands (store w))
    /\ (if handCompleted o
        then finish_hand faults roomId g secret players o w2 = (Val tt, w')
        else w' = w2).
Proof.
  unfold persist_outcome. intros H Hok.
  bind_step H a1 w1 E1; [| | discriminate H].
  2:{ apply write_inv in E1 as [(? & E1 & _) | (? & E1 & _)]; discriminate E1. }
  assert (G1 : hand_results (store w1) = hand_results (store w)
               /\ player_hands (store w1) = player_hands (store w)).
  { apply (write_keeps _ _ _ _ _ _
             (fun x => hand_results (store x) = hand_results (store w)
                       /\ player_hands (store x) = player_hands (store w)) E1);
      [split; reflexivity|].
    intros d Ef. inversion Ef; subst. split; reflexivity. }
  clear E1. destruct (truthy_id (error o)) as [e|] eqn:Ee.
  { inversion H; subst. discriminate Hok. }
  bind_step H a2 w2 E2; [| | discriminate H].
  2:{ destruct (is_empty _); [discriminate E2|].
      bind_step E2 a3 w3 E3; [| | discriminate E2].
      - apply check_inv in E2 as [_ [[_ E2] | (? & _ & E2)]]; discriminate E2.
      - apply write_inv in E3 as [(? & E3 & _) | (? & E3 & _)]; discriminate E3. }
  assert (G2 : hand_results (store w2) = hand_results (store w)
               /\ player_hands (store w2) = player_hands (store w)).
  { destruct G1 as [<- <-].
    destruct (is_empty _); [inversion E2; subst; split; reflexivity|].
    bind_step E2 a3 w3 E3; [| discriminate E2 | discriminate E2].
    apply check_inv in E2 as [-> _].
    apply (write_keeps _ _ _ _ _ _
             (fun x => hand_results (store x) = hand_results (store w1)
                       /\ player_hands (store x) = player_hands (store w1)) E3);
      [split; reflexivity|].
    intros d Ef. apply upsert_players_frame in Ef. rewrite Ef. split; reflexivity. }
  clear E2 G1.
  bind_step H a3 w3 E3; [| | discriminate H].
  2:{ apply write_inv in E3 as [(? & E3 & _) | (? & E3 & _)]; discriminate E3. }
  bind_step H a4 w4 E4; [| | discriminate H].
  2:{ apply check_inv in E4 as [_ [[_ E4] | (? & _ & E4)]]; discriminate E4. }
  apply check_inv in E4 as [-> [[-> _] | (? & _ & E4)]]; [|discriminate E4].
  apply write_inv in E3 as [(? & E3 & _) | (? & _ & _ & Ef & ->)]; [discriminate E3|].
  inversion Ef; subst; clear Ef.
  exists (mkWorld (update_game_state (GameState.id g) (updatedGameState o) (store w2))
                  (calls w2)).
  split; [exact G2|].
  bind_step H a5 w5 E5; [| | discriminate H].
  - destruct (handCompleted o).
    + inversion H; subst. destruct a5. exact E5.
    + inversion E5; subst. inversion H; subst. reflexivity.
  - destruct (handCompleted o); [|discriminate E5].
    apply finish_hand_deletes in E5 as [E5 _]. destruct (E5 _ eq_refl).
Qed.

(** X9.  What a completed hand leaves in [hand_results].  When the handler
    answers an action that completed the hand with success: if the outcome
    carries auto winners and a non-zero pot, exactly one row is added, with
    the pot awarded, the winners being the seats that
    [determineDoubleBoardWinners] returns for either board, on the hands of
    the seats not folded and the full boards of the secret, each seat once;
    the action history of the outcome; and the boards as the game state
    showed them when the request read it, before the action (not the boards
    of the outcome, so a hand run out by the last action is recorded with
    the boards revealed before it).  Otherwise no row is added. *)
Theorem hand_result_records_the_boards_read :
  forall (L : EngineLogic) (is_uuid : string -> bool)
         (zod_message : list (string * JSON) -> string) (faults : Faults)
         (roomId : string) (body : ActionBody.t) (payload : ActionPayload.t)
         (w : World) (room : Room.t) (g : GameState.t) (secret : Secret.t),
    actionSchema is_uuid body = Some payload ->
    faults SelectRoom = None -> faults SelectGameState = None ->
    faults SelectSecret = None -> faults SelectPlayers = None ->
    found roomId (store w) = Some (room, g, secret) ->
    let o := outcome_for roomId payload (store w) room g secret in
    let r := respond (post_action is_uuid zod_message faults roomId body) w in
    is_ok (fst r) = true ->
    handCompleted o = true ->
    if truthy_array (autoWinners o) && truthy_number (potAwarded o)
    then exists w1 w2,
        determineDoubleBoardWinners
          (activeHands
             (mergedPlayers (players_of roomId (store w)) (updatedPlayers o))
             (filter (fun h => PlayerHand.game_state_id h =s? GameState.id g)
                     (player_hands (store w))))
          (Secret.full_board1 secret) (Secret.full_board2 secret) = inr (w1, w2)
        /\ hand_results (store (snd r))
           = hand_results (store w)
             ++ [HandResult.mk roomId (GameState.hand_number g)
                   (or_else (potAwarded o) 0)
                   (match GameState.board_state g with
                    | Some b => board1 b
                    | None => None
                    end)
                   (match GameState.board_state g with
                    | Some b => board2 b
                    | None => None
                    end)
                   (allWinners w1 w2)
                   (or_else (PartialGameState.action_history (updatedGameState o))
                            (GameState.action_history g))]
        /\ (forall s, In s (allWinners w1 w2) <-> In s w1 \/ In s w2)
        /\ NoDup (allWinners w1 w2)
    else hand_results (store (snd r)) = hand_results (store w).
Proof.
  intros L is_uuid zod_message faults roomId body payload w room g secret
         E F1 F2 F3 F4 Hf o r Hok Hc.
  subst r.
  rewrite (post_action_found L is_uuid zod_message faults _ _ _ _ _ _ _
             E F1 F2 F3 F4 Hf) in *.
  fold o in Hok |- *. unfold respond, try_catch in Hok |- *.
  destruct (persist_outcome _ _ _ _ _ _ _ _) as [[u|r|e] w1] eqn:Ep;
    cbn [fst snd] in *; try discriminate Hok.
  destruct (persist_outcome_results _ _ _ _ _ _ _ _ _ _ _ Ep Hok)
    as (w2 & [G2 G2h] & Hfin).
  rewrite Hc in Hfin. cbn [store] in G2, G2h.
  destruct (finish_hand_trace _ _ _ _ _ _ _ _ _ _ Hfin) as (w3 & Hs & ->).
  cbn [store hand_results delete_game_state set_game_state_secrets set_game_states].
  destruct (truthy_array (autoWinners o) && truthy_number (potAwarded o)).
  - destruct (settle_hand_result _ _ _ _ _ _ _ _ _ _ _ Hs) as (a & b & Hd & Hr).
    exists a, b. rewrite G2h in Hd. split; [exact Hd|].
    split; [rewrite Hr, G2; reflexivity|].
    pose proof (unique_seats_spec (a ++ b) []) as [Hnd Hin].
    split; [|exact Hnd].
    intros s. unfold allWinners. rewrite Hin, in_app_iff.
    split; [intros [H _]; exact H|intros H; split; [exact H|intros []]].
  - subst w3. exact G2.
Qed.

(** The sample table: seat 1 goes all-in before the flop and seat 0 calls.
    The hand runs to the showdown, and the row recorded for it has the pot of
    200 and the empty boards of the game state as the request read it. *)
Lemma hand_result_records_the_boards_read_witness :
  let w := play uuid_shape sample_message "room-1" [request 1 "all_in" None None] (dealt_world 100 100) in
  let r := respond (post_action uuid_shape sample_message reliable "room-1"
                      (request 0 "call" None None)) w in
  exists row,
    hand_results (store (snd r)) = [row]
    /\ HandResult.final_pot row = 200
    /\ HandResult.board_a row = Some []
    /\ HandResult.board_b row = Some [].
Proof.
  cbv zeta.
  let f := eval vm_compute in
             (found "room-1"
                (store (play uuid_shape sample_message "room-1" [request 1 "all_in" None None]
                          (dealt_world 100 100)))) in
  match f with
  | Some (?room, ?g, ?secret) =>
      pose proof (hand_result_records_the_boards_read sample_logic uuid_shape sample_message reliable
                    "room-1" (request 0 "call" None None)
                    (ActionPayload.mk 0 ACall None None None)
                    (play uuid_shape sample_message "room-1" [request 1 "all_in" None None]
                       (dealt_world 100 100))
                    room g secret) as T
  end.
  cbv zeta in T.
  repeat match type of T with
         | ?A -> _ =>
             let H := fresh in
             assert (H : A) by (vm_compute; reflexivity); specialize (T H); clear H
         end.
  vm_compute in T. destruct T as (a & b & _ & T & _).
  eexists. split; [etransitivity; [|exact T]; vm_compute; reflexivity|].
  repeat split.
Defined.

(** ** Results that are not looked at *)

Ltac split_goal :=
  match goal with
  | |- context [match ?x with _ => _ end] =>
      lazymatch x with
      | context [match _ with _ => _ end] => fail
      | _ => destruct x eqn:?
      end
  end.

(** X10.  [start-hand] does not look at the result of its update of the
    room: the reply is the same whether that update fails or not, and when it
    fails the [rooms] table is left as it was (the hand number and the button
    of the room are not advanced), also under a reply 201. *)
Theorem room_update_error_is_ignored :
  forall (L : EngineLogic) (faults : Faults) (new_id roomId : string)
         (deckSeed : option string) (w : World) (o : option string),
    fst (respond (start_hand (but_for UpdateRoom o faults) new_id roomId deckSeed) w)
    = fst (respond (start_hand faults new_id roomId deckSeed) w)
    /\ (forall e, faults UpdateRoom = Some e ->
          rooms (store (snd (respond (start_hand faults new_id roomId deckSeed) w)))
          = rooms (store w)).
Proof.
  intros L faults new_id roomId deckSeed w o. destruct w as [d cs]. split.
  - unfold respond, start_hand, fetchRoom, fetchPlayers, select, insert_game_state,
      rollback, try_catch, check, write, bind, query, send, throw, ret, record_call,
      but_for, step_eqb.
    cbv beta iota zeta. cbn [store calls].
    repeat (split_goal; cbv beta iota zeta; cbn [store calls fst]); reflexivity.
  - intros e Fe.
    unfold respond, start_hand, fetchRoom, fetchPlayers, select, insert_game_state,
      rollback, try_catch, check, write, bind, query, send, throw, ret, record_call.
    rewrite Fe. cbv beta iota zeta. cbn [store calls].
    repeat (split_goal; cbv beta iota zeta; cbn [store calls fst snd]).
    all: repeat match goal with
           | H : insert_game_state_row _ _ _ = inr _ |- _ =>
               apply insert_game_state_row_inv in H as (-> & _)
           | H : insert_secret _ _ = inr _ |- _ =>
               unfold insert_secret in H;
               match type of H with (if ?c then _ else _) = _ => destruct c end;
               inversion H; subst; clear H
           | H : upsert_players _ _ = inr ?x |- _ =>
               apply upsert_players_frame in H; rewrite H; clear H
           end.
    all: reflexivity.
Qed.

Lemma same_but_log_refl (d : DB) : same_but_log d d.
Proof. repeat split. Qed.

Lemma same_but_log_sym (d1 d2 : DB) : same_but_log d1 d2 -> same_but_log d2 d1.
Proof. intros (A & B & C & D & E & F). repeat split; symmetry; assumption. Qed.

Lemma same_but_log_trans (d1 d2 d3 : DB) :
  same_but_log d1 d2 -> same_but_log d2 d3 -> same_but_log d1 d3.
Proof.
  intros (A & B & C & D & E & F) (A' & B' & C' & D' & E' & F').
  repeat split; congruence.
Qed.

Lemma agree_refl (w : World) : agree w w.
Proof. split; [reflexivity|apply same_but_log_refl]. Qed.

Lemma agree_sym (w1 w2 : World) : agree w1 w2 -> agree w2 w1.
Proof. intros [A B]. split; [symmetry; exact A|apply same_but_log_sym; exact B]. Qed.

Lemma agree_trans (w1 w2 w3 : World) : agree w1 w2 -> agree w2 w3 -> agree w1 w3.
Proof.
  intros [A B] [A' B']. split; [congruence|eapply same_but_log_trans; eassumption].
Qed.

Lemma alike_bind {A B} (m1 m2 : Handler A) (k1 k2 : A -> Handler B) :
  alike m1 m2 -> (forall a, alike (k1 a) (k2 a)) -> alike (bind m1 k1) (bind m2 k2).
Proof.
  intros Hm Hk w1 w2 Hw. unfold bind. destruct (Hm w1 w2 Hw) as [E1 E2].
  destruct (m1 w1) as [[a|r|e] w1'], (m2 w2) as [[a'|r'|e'] w2'];
    cbn [fst snd] in *; try discriminate E1; inversion E1; subst.
  - apply Hk. exact E2.
  - split; [reflexivity|exact E2].
  - split; [reflexivity|exact E2].
Qed.

Lemma alike_ret {A} (a : A) : alike (ret a) (ret a).
Proof. intros w1 w2 H. split; [reflexivity|exact H]. Qed.

Lemma alike_send {A} (status : Z) (b : Body) : alike (@send A status b) (send status b).
Proof. intros w1 w2 H. split; [reflexivity|exact H]. Qed.

Lemma alike_throw {A} (e : Exn) : alike (@throw A e) (throw e).
Proof. intros w1 w2 H. split; [reflexivity|exact H]. Qed.

Lemma alike_check (e : option string) : alike (check e) (check e).
Proof. destruct e; [apply alike_throw|apply alike_ret]. Qed.

Lemma alike_record_call (c : Call) : alike (record_call c) (record_call c).
Proof.
  intros w1 w2 [A B]. split; [reflexivity|]. split; [cbn; rewrite A; reflexivity|exact B].
Qed.

Lemma alike_select {A} (f1 f2 : Faults) (s : Step) (f : DB -> A) :
  f1 s = f2 s -> (forall d1 d2, same_but_log d1 d2 -> f d1 = f d2) ->
  alike (select f1 s f) (select f2 s f).
Proof.
  intros Hs Hf w1 w2 H. unfold select. rewrite Hs.
  destruct (f2 s); [split; [reflexivity|exact H]|].
  unfold query. cbn [fst snd]. rewrite (Hf _ _ (proj2 H)). split; [reflexivity|exact H].
Qed.

Lemma alike_write (f1 f2 : Faults) (s : Step) (f : DB -> string + DB) :
  f1 s = f2 s -> log_blind f -> alike (write f1 s f) (write f2 s f).
Proof.
  intros Hs Hf w1 w2 H. unfold write. rewrite Hs.
  destruct (f2 s); [split; [reflexivity|exact H]|].
  pose proof (Hf _ _ (proj2 H)) as X.
  destruct (f (store w1)), (f (store w2)); try contradiction; cbn [fst snd].
  - subst. split; [reflexivity|exact H].
  - split; [reflexivity|]. split; [exact (proj1 H)|exact X].
Qed.

Lemma upsert_players_log_blind (us : list PartialPlayer.t) : log_blind (upsert_players us).
Proof.
  intros d1 d2 (A & B & C & D & E & F). unfold upsert_players.
  destruct (repeats _); [reflexivity|]. rewrite B.
  destruct (upsert_rows (room_players d1) us); [reflexivity|].
  repeat split; assumption.
Qed.

Lemma delete_game_state_log_blind (gid : string) :
  log_blind (fun d => inr (delete_game_state gid d)).
Proof.
  intros d1 d2 (A & B & C & D & E & F). unfold same_but_log, delete_game_state.
  cbn [rooms room_players game_states game_state_secrets player_hands hand_results
       set_game_states set_game_state_secrets].
  rewrite C, D. repeat split; assumption.
Qed.

Lemma update_game_state_log_blind (gid : string) (u : PartialGameState.t) :
  log_blind (fun d => inr (update_game_state gid u d)).
Proof.
  intros d1 d2 (A & B & C & D & E & F). unfold same_but_log, update_game_state.
  cbn [rooms room_players game_states game_state_secrets player_hands hand_results
       set_game_states].
  rewrite C. repeat split; assumption.
Qed.

Lemma insert_result_log_blind (row : HandResult.t) :
  log_blind (fun d => inr (set_hand_results (hand_results d ++ [row]) d)).
Proof.
  intros d1 d2 (A & B & C & D & E & F). unfold same_but_log.
  cbn [rooms room_players game_states game_state_secrets player_hands hand_results
       set_hand_results].
  rewrite F. repeat split; assumption.
Qed.

Lemma alike_after {A B} (m1 m2 : Handler A) (k1 k2 : Handler B) :
  (forall w, exists a w', m1 w = (Val a, w') /\ agree w w') ->
  (forall w, exists a w', m2 w = (Val a, w') /\ agree w w') ->
  alike k1 k2 ->
  alike (bind m1 (fun _ => k1)) (bind m2 (fun _ => k2)).
Proof.
  intros H1 H2 Hk w1 w2 Hw. unfold bind.
  destruct (H1 w1) as (a1 & w1' & E1 & A1). destruct (H2 w2) as (a2 & w2' & E2 & A2).
  rewrite E1, E2. apply Hk.
  eapply agree_trans; [apply agree_sym; exact A1|].
  eapply agree_trans; [exact Hw|exact A2].
Qed.

Lemma log_write_agrees (f : Faults) (x : PlayerAction.t) (w : World) :
  exists a w',
    write f InsertAction (fun d => inr (set_player_actions (player_actions d ++ [x]) d)) w
    = (Val a, w')
    /\ agree w w'.
Proof.
  unfold write. destruct (f InsertAction).
  - eexists _, _. split; [reflexivity|apply agree_refl].
  - eexists _, _. split; [reflexivity|]. split; [reflexivity|]. repeat split.
Qed.

Section LogIgnored.

Context {L : EngineLogic}.
Variables f1 f2 : Faults.
Hypothesis Hf : forall s, step_eqb InsertAction s = false -> f1 s = f2 s.

Lemma settle_hand_alike (roomId : string) (g : GameState.t) (secret : Secret.t)
    (players : list RoomPlayer.t) (o : Outcome) (pot : Z) :
  alike (settle_hand f1 roomId g secret players o pot)
        (settle_hand f2 roomId g secret players o pot).
Proof.
  unfold settle_hand. apply alike_bind.
  { apply alike_select; [apply Hf; reflexivity|].
    intros d1 d2 (_ & _ & _ & _ & E & _). rewrite E. reflexivity. }
  intros hands. apply alike_bind; [apply alike_record_call|]. intros _.
  destruct (determineDoubleBoardWinners _ _ _) as [e|[a b]]; [apply alike_throw|].
  apply alike_bind; [apply alike_record_call|]. intros _.
  destruct (endOfHandPayout a b pot) as [e|payouts]; [apply alike_throw|].
  apply alike_bind.
  { destruct (is_empty payouts); [apply alike_ret|].
    destruct (is_empty _); [apply alike_ret|].
    apply alike_bind; [|intros x; apply alike_check].
    apply alike_write; [apply Hf; reflexivity|apply upsert_players_log_blind]. }
  intros _. apply alike_bind; [|intros x; apply alike_check].
  apply alike_write; [apply Hf; reflexivity|apply insert_result_log_blind].
Qed.

Lemma finish_hand_alike (roomId : string) (g : GameState.t) (secret : Secret.t)
    (players : list RoomPlayer.t) (o : Outcome) :
  alike (finish_hand f1 roomId g secret players o)
        (finish_hand f2 roomId g secret players o).
Proof.
  unfold finish_hand. apply alike_bind.
  { destruct (truthy_array _ && truthy_number _);
      [apply settle_hand_alike|apply alike_ret]. }
  intros _. apply alike_bind; [|intros x; apply alike_check].
  apply alike_write; [apply Hf; reflexivity|apply delete_game_state_log_blind].
Qed.

Lemma persist_outcome_alike (roomId : string) (payload : ActionPayload.t)
    (g : GameState.t) (secret : Secret.t) (players : list RoomPlayer.t) (o : Outcome) :
  alike (persist_outcome f1 roomId payload g secret players o)
        (persist_outcome f2 roomId payload g secret players o).
Proof.
  unfold persist_outcome. apply alike_after; [apply log_write_agrees ..|].
  destruct (truthy_id (error o)); [apply alike_send|].
  apply alike_bind.
  { destruct (is_empty _); [apply alike_ret|].
    apply alike_bind; [|intros x; apply alike_check].
    apply alike_write; [apply Hf; reflexivity|apply upsert_players_log_blind]. }
  intros _. apply alike_bind.
  { apply alike_write; [apply Hf; reflexivity|apply update_game_state_log_blind]. }
  intros gsErr. apply alike_bind; [apply alike_check|]. intros _.
  apply alike_bind.
  { destruct (handCompleted o); [apply finish_hand_alike|apply alike_ret]. }
  intros _. destruct (handCompleted o); apply alike_send.
Qed.

End LogIgnored.

(** X11.  The [actions] handler does not look at the result of its insert
    into the action log: whether that insert fails or not, the reply is the
    same, the same calls of the engine's functions are made, and every table
    but the action log ends the same. *)
Theorem action_log_error_is_ignored :
  forall (L : EngineLogic) (is_uuid : string -> bool)
         (zod_message : list (string * JSON) -> string) (faults : Faults)
         (roomId : string) (body : ActionBody.t) (w : World) (o : option string),
    let r1 := respond (post_action is_uuid zod_message (but_for InsertAction o faults) roomId body) w in
    let r2 := respond (post_action is_uuid zod_message faults roomId body) w in
    fst r1 = fst r2
    /\ calls (snd r1) = calls (snd r2)
    /\ same_but_log (store (snd r1)) (store (snd r2)).
Proof.
  intros L is_uuid zod_message faults roomId body w o. cbv zeta.
  assert (Hf : forall s, step_eqb InsertAction s = false ->
                         but_for InsertAction o faults s = faults s).
  { intros s Hs. unfold but_for. rewrite Hs. reflexivity. }
  assert (A : alike (post_action is_uuid zod_message (but_for InsertAction o faults) roomId body)
                    (post_action is_uuid zod_message faults roomId body)).
  { unfold post_action. destruct (actionSchema is_uuid body); [|apply alike_send].
    intros w1 w2 Hw. unfold try_catch.
    match goal with
    | |- context [let (_, _) := ?m1 w1 in _] =>
        match goal with
        | |- context [let (_, _) := ?m2 w2 in _] =>
            assert (B : alike m1 m2); [|destruct (B w1 w2 Hw) as [E1 E2];
              destruct (m1 w1) as [[a|r|e] w1'], (m2 w2) as [[a'|r'|e'] w2'];
              cbn [fst snd] in *; try discriminate E1; inversion E1; subst;
              (split; [reflexivity|exact E2])]
        end
    end.
    apply alike_bind.
    { apply alike_select; [apply Hf; reflexivity|].
      intros d1 d2 (X & _). rewrite X. reflexivity. }
    intros [room|]; [|apply alike_send].
    apply alike_bind.
    { apply alike_select; [apply Hf; reflexivity|].
      intros d1 d2 (_ & _ & X & _). unfold latest_game_state. rewrite X. reflexivity. }
    intros [g|]; [|apply alike_send].
    apply alike_bind.
    { apply alike_select; [apply Hf; reflexivity|].
      intros d1 d2 (_ & _ & _ & X & _). rewrite X. reflexivity. }
    intros [secret|]; [|apply alike_send].
    apply alike_bind.
    { apply alike_select; [apply Hf; reflexivity|].
      intros d1 d2 (_ & X & _). unfold players_of. rewrite X. reflexivity. }
    intros players. apply alike_bind; [apply alike_record_call|]. intros _.
    apply persist_outcome_alike. exact Hf. }
  destruct (A w w (agree_refl w)) as [E1 [E2 E3]].
  unfold respond.
  destruct (post_action is_uuid zod_message (but_for InsertAction o faults) roomId body w)
    as [[a|r|e] w1'],
    (post_action is_uuid zod_message faults roomId body w) as [[a'|r'|e'] w2'];
    cbn [fst snd] in *; try discriminate E1; inversion E1; subst;
    (split; [reflexivity|split; assumption]).
Qed.

(** ** Creating a room and taking a seat *)

(** X12.  [POST /rooms]: a room is created only with blinds
    [0 < smallBlind < bigBlind], buy-ins [0 < minBuyIn <= maxBuyIn], between
    2 and 10 players (9 when not given), a non-negative ante and delay, and
    not paused; the store then holds this one row more, under an id no room
    had and with the time of the request, and the players are untouched.
    Every other request is answered 400 and changes nothing. *)
Theorem room_is_created_within_its_limits :
  forall (is_uuid : string -> bool) (zod_message : string)
         (faults : LobbyStep -> option string) (new_id now : string)
         (body : CreateRoomBody.t) (l : Lobby),
    match create_room is_uuid zod_message faults new_id now body l with
    | (RoomCreated row, l') =>
        0 < RoomRow.small_blind row < RoomRow.big_blind row
        /\ 0 < RoomRow.min_buy_in row <= RoomRow.max_buy_in row
        /\ 2 <= RoomRow.max_players row <= 10
        /\ 0 <= RoomRow.bomb_pot_ante row
        /\ 0 <= RoomRow.inter_hand_delay row
        /\ RoomRow.is_paused row = false
        /\ RoomRow.last_activity_at row = now
        /\ RoomRow.id row = new_id
        /\ existsb (fun r => RoomRow.id r =s? new_id) (lobby_rooms l) = false
        /\ lobby_rooms l' = lobby_rooms l ++ [row]
        /\ lobby_players l' = lobby_players l
    | (Refused status _, l') => status = 400 /\ l' = l
    | (PlayerJoined _, _) => False
    end.
Proof.
  intros is_uuid zod_message faults new_id now body l.
  unfold create_room, createRoomSchema.
  destruct (_ && _) eqn:Es; [|split; reflexivity].
  repeat (apply andb_prop in Es as [Es ?]).
  destruct (CreateRoomBody.bigBlind body <=? CreateRoomBody.smallBlind body) eqn:Eb;
    [split; reflexivity|].
  destruct (CreateRoomBody.maxBuyIn body <? CreateRoomBody.minBuyIn body) eqn:Em;
    [split; reflexivity|].
  unfold insert_room. destruct (faults InsertRoom); [split; reflexivity|].
  destruct (existsb _ (lobby_rooms l)) eqn:Ex; [split; reflexivity|].
  cbn [RoomRow.small_blind RoomRow.big_blind RoomRow.min_buy_in RoomRow.max_buy_in
       RoomRow.max_players RoomRow.bomb_pot_ante RoomRow.inter_hand_delay
       RoomRow.is_paused RoomRow.last_activity_at RoomRow.id lobby_rooms lobby_players].
  apply Z.leb_gt in Eb. apply Z.ltb_ge in Em.
  repeat match goal with H : (0 <? _) = true |- _ => apply Z.ltb_lt in H end.
  unfold within, at_least, or_else in *.
  destruct (CreateRoomBody.maxPlayers body), (CreateRoomBody.bombPotAnte body),
    (CreateRoomBody.interHandDelay body);
    repeat match goal with
           | H : (_ && _) = true |- _ => apply andb_prop in H as [? ?]
           | H : (_ <=? _) = true |- _ => apply Z.leb_le in H
           end;
    repeat split; try reflexivity; lia.
Qed.

Lemma stacks_app (a b : list RoomPlayer.t) : stacks (a ++ b) = stacks a + stacks b.
Proof. induction a as [|p a IH]; simpl; [reflexivity|]. rewrite IH. lia. Qed.

Lemma touch_room_players (faults : LobbyStep -> option string) (now roomId : string)
    (l : Lobby) :
  lobby_players (touch_room faults now roomId l) = lobby_players l.
Proof. unfold touch_room. destruct (faults TouchRoom); reflexivity. Qed.

Lemma touch_room_columns (faults : LobbyStep -> option string) (now roomId : string)
    (l : Lobby) (t : string) :
  map (touched t) (lobby_rooms (touch_room faults now roomId l))
  = map (touched t) (lobby_rooms l).
Proof.
  unfold touch_room. destruct (faults TouchRoom); [reflexivity|].
  cbn [lobby_rooms]. rewrite map_map. apply map_ext. intros r.
  destruct (RoomRow.id r =s? roomId); reflexivity.
Qed.

(** X13.  [POST /rooms/:roomId/join]: a seat is given only in a room of
    the store, for a buy-in within the room's limits; the new row, under the
    id of the store, sits at the seat asked for, a seat that is not
    negative, with a name that is not empty, holds the buy-in as its stack
    and as its total buy-in, and is in no hand; the players of the store are
    the old ones and this row, so the stacks of the room grow by exactly the
    buy-in.  Of the rooms, the room joined takes the time of the request as
    its [last_activity_at], unless that update fails, and no other column
    of any room changes.  Every other request is answered 400 or 404 and
    changes nothing. *)
Theorem seat_is_bought_within_the_limits :
  forall (is_uuid : string -> bool) (zod_message : string)
         (faults : LobbyStep -> option string) (new_id now roomId : string)
         (body : JoinBody.t) (l : Lobby),
    match join_room is_uuid zod_message faults new_id now roomId body l with
    | (PlayerJoined p, l') =>
        (exists room, In room (lobby_rooms l) /\ RoomRow.id room = roomId
                      /\ RoomRow.min_buy_in room <= JoinBody.buyIn body
                         <= RoomRow.max_buy_in room)
        /\ p = RoomPlayer.mk new_id roomId (JoinBody.seatNumber body)
                 (JoinBody.authUserId body) (JoinBody.displayName body)
                 (JoinBody.buyIn body) (JoinBody.buyIn body) 0 false false false
        /\ 0 <= JoinBody.seatNumber body
        /\ (JoinBody.displayName body =s? "") = false
        /\ 0 < JoinBody.buyIn body
        /\ lobby_players l' = lobby_players l ++ [p]
        /\ lobby_rooms l'
           = match faults TouchRoom with
             | Some _ => lobby_rooms l
             | None => map (fun r => if RoomRow.id r =s? roomId then touched now r else r)
                           (lobby_rooms l)
             end
        /\ (forall t, map (touched t) (lobby_rooms l') = map (touched t) (lobby_rooms l))
        /\ stacks (filter (in_room roomId) (lobby_players l'))
           = stacks (filter (in_room roomId) (lobby_players l)) + JoinBody.buyIn body
    | (Refused status _, l') => (status = 400 \/ status = 404) /\ l' = l
    | (RoomCreated _, _) => False
    end.
Proof.
  intros is_uuid zod_message faults new_id now roomId body l.
  unfold join_room, joinRoomSchema.
  destruct (_ && _) eqn:Es; [|split; [left|]; reflexivity].
  repeat (apply andb_prop in Es as [Es ?]).
  destruct (room_row faults roomId l) as [room|] eqn:Er; [|split; [right|]; reflexivity].
  destruct (_ || _) eqn:Eb; [split; [left|]; reflexivity|].
  destruct (existing faults roomId (JoinBody.seatNumber body) l);
    [split; [left|]; reflexivity|].
  unfold insert_player. destruct (faults InsertPlayer); [split; [left|]; reflexivity|].
  destruct (existsb _ (lobby_players l)); [split; [left|]; reflexivity|].
  apply orb_false_iff in Eb as [E1 E2]. apply Z.ltb_ge in E1, E2.
  unfold room_row in Er. destruct (faults SelectRoomRow); [discriminate Er|].
  apply find_some in Er as [Hin Hid]. apply String.eqb_eq in Hid.
  split; [exists room; repeat split; assumption|].
  split; [reflexivity|]. split; [apply Z.leb_le; assumption|].
  split; [apply negb_true_iff; assumption|]. split; [apply Z.ltb_lt; assumption|].
  split; [rewrite touch_room_players; reflexivity|].
  split; [unfold touch_room; destruct (faults TouchRoom); reflexivity|].
  split; [intros t; rewrite touch_room_columns; reflexivity|].
  rewrite touch_room_players. cbn [lobby_players].
  rewrite filter_app, stacks_app. cbn [filter]. unfold in_room at 2.
  cbn [RoomPlayer.room_id]. rewrite eqs_refl. cbn. lia.
Qed.

Lemma at_seat_key (roomId : string) (seat : Z) (p : RoomPlayer.t) :
  at_seat roomId seat p = true
  <-> (RoomPlayer.room_id p, RoomPlayer.seat_number p) = (roomId, seat).
Proof.
  unfold at_seat. rewrite andb_true_iff, String.eqb_eq, Z.eqb_eq.
  split; [intros [-> ->]; reflexivity|intros H; inversion H; split; reflexivity].
Qed.

Lemma held_once (roomId : string) (seat : Z) (ps : list RoomPlayer.t) :
  NoDup (map (fun p => (RoomPlayer.room_id p, RoomPlayer.seat_number p)) ps) ->
  filter (at_seat roomId seat) ps = []
  \/ exists p, filter (at_seat roomId seat) ps = [p].
Proof.
  induction ps as [|q r IH]; intros H; [left; reflexivity|].
  cbn [map] in H. inversion H as [|? ? Hn Hr]; subst. cbn [filter].
  destruct (at_seat roomId seat q) eqn:E; [|exact (IH Hr)].
  right. exists q. f_equal.
  destruct (filter (at_seat roomId seat) r) as [|x xs] eqn:Ef; [reflexivity|].
  exfalso. apply Hn.
  assert (Hx : In x (filter (at_seat roomId seat) r)) by (rewrite Ef; left; reflexivity).
  apply filter_In in Hx as [Hx Ex]. apply at_seat_key in E, Ex. rewrite E, <- Ex.
  apply (in_map (fun p => (RoomPlayer.room_id p, RoomPlayer.seat_number p))). exact Hx.
Qed.

(** X14.  No seat is given twice: when no seat of the store is held by two
    rows and the lookup of the seat does not fail, then after a join request,
    accepted or not, still no seat is held by two rows. *)
Theorem join_keeps_the_seats_distinct :
  forall (is_uuid : string -> bool) (zod_message : string)
         (faults : LobbyStep -> option string) (new_id now roomId : string)
         (body : JoinBody.t) (l : Lobby),
    faults SelectSeat = None ->
    NoDup (seats_held l) ->
    NoDup (seats_held
             (snd (join_room is_uuid zod_message faults new_id now roomId body l))).
Proof.
  intros is_uuid zod_message faults new_id now roomId body l Fs Hn. unfold join_room.
  destruct (joinRoomSchema is_uuid body) as [payload|] eqn:Es; [|exact Hn].
  assert (payload = body).
  { unfold joinRoomSchema in Es. destruct (_ && _); inversion Es. reflexivity. }
  subst payload.
  destruct (room_row faults roomId l); [|exact Hn].
  destruct (_ || _); [exact Hn|].
  destruct (existing faults roomId (JoinBody.seatNumber body) l) eqn:Ee; [exact Hn|].
  unfold insert_player. destruct (faults InsertPlayer); [exact Hn|].
  destruct (existsb _ (lobby_players l)); [exact Hn|].
  cbn [snd]. unfold seats_held in *. rewrite touch_room_players.
  cbn [lobby_players]. rewrite map_app. cbn [map].
  cbn [RoomPlayer.room_id RoomPlayer.seat_number].
  unfold existing in Ee. rewrite Fs in Ee.
  destruct (held_once roomId (JoinBody.seatNumber body) (lobby_players l) Hn)
    as [Ef | (p & Ef)]; rewrite Ef in Ee; [|discriminate Ee].
  apply NoDup_app; [exact Hn|constructor; [intros []|constructor]|].
  intros x Hx [<- | []].
  apply in_map_iff in Hx as (q & Hq & Hin).
  assert (X : In q (filter (at_seat roomId (JoinBody.seatNumber body)) (lobby_players l))).
  { apply filter_In. split; [exact Hin|]. apply at_seat_key. exact Hq. }
  rewrite Ef in X. destruct X.
Qed.

(** Seat 1 of the small room is taken: a request for it is refused and the
    seats stay distinct. *)
Lemma join_keeps_the_seats_distinct_witness :
  NoDup (seats_held
           (snd (join_room uuid_shape "invalid" lobby_reliable "p-2"
                   "2025-12-02T09:00:00.000Z" "room-2"
                   (JoinBody.mk 1 "Cy" 100 None) full_lobby))).
Proof.
  apply (join_keeps_the_seats_distinct uuid_shape "invalid" lobby_reliable "p-2"
           "2025-12-02T09:00:00.000Z" "room-2"
           (JoinBody.mk 1 "Cy" 100 None) full_lobby); [reflexivity|].
  unfold seats_held. cbn.
  constructor; [intros [H|[]]; discriminate H|].
  constructor; [intros []|constructor].
Defined.

Lemma join_accepted (is_uuid : string -> bool) (zod_message : string)
    (faults : LobbyStep -> option string) (new_id now roomId : string)
    (body : JoinBody.t) (l : Lobby) (room : RoomRow.t) :
  joinRoomSchema is_uuid body = Some body ->
  room_row faults roomId l = Some room ->
  RoomRow.min_buy_in room <= JoinBody.buyIn body <= RoomRow.max_buy_in room ->
  existing faults roomId (JoinBody.seatNumber body) l = None ->
  faults InsertPlayer = None ->
  existsb (has_id new_id) (lobby_players l) = false ->
  join_room is_uuid zod_message faults new_id now roomId body l
  = (let p := RoomPlayer.mk new_id roomId (JoinBody.seatNumber body)
                (JoinBody.authUserId body) (JoinBody.displayName body)
                (JoinBody.buyIn body) (JoinBody.buyIn body) 0 false false false in
     (PlayerJoined p,
      touch_room faults now roomId
        (mkLobby (lobby_rooms l) (lobby_players l ++ [p])))).
Proof.
  intros Hs Hr [H1 H2] He Fi Hx. unfold join_room. rewrite Hs, Hr.
  apply Z.ltb_ge in H1, H2. rewrite H1, H2. cbn [orb]. rewrite He.
  unfold insert_player. rewrite Fi, Hx. reflexivity.
Qed.

(** X15.  What a join needs, and what it does not look at: a body that
    passes the schema, a room of that id, a buy-in within the room's limits,
    a seat for which the lookup returns no row and an insert that is not
    refused.  Then the seat is given, however many players the room has and
    whatever its [max_players] is. *)
Theorem join_does_not_count_the_players :
  forall (is_uuid : string -> bool) (zod_message : string)
         (faults : LobbyStep -> option string) (new_id now roomId : string)
         (body : JoinBody.t) (l : Lobby) (room : RoomRow.t),
    joinRoomSchema is_uuid body = Some body ->
    room_row faults roomId l = Some room ->
    RoomRow.min_buy_in room <= JoinBody.buyIn body <= RoomRow.max_buy_in room ->
    existing faults roomId (JoinBody.seatNumber body) l = None ->
    faults InsertPlayer = None ->
    existsb (has_id new_id) (lobby_players l) = false ->
    exists p,
      join_room is_uuid zod_message faults new_id now roomId body l
      = (PlayerJoined p,
         touch_room faults now roomId
           (mkLobby (lobby_rooms l) (lobby_players l ++ [p])))
      /\ RoomPlayer.seat_number p = JoinBody.seatNumber body.
Proof.
  intros is_uuid zod_message faults new_id now roomId body l room Hs Hr Hb He Fi Hx.
  rewrite (join_accepted is_uuid zod_message faults new_id now roomId body l room
             Hs Hr Hb He Fi Hx).
  eexists. split; reflexivity.
Qed.

(** The small room takes at most two players and has two: a third one is
    seated at seat 2. *)
Lemma join_does_not_count_the_players_witness :
  RoomRow.max_players small_room = 2
  /\ List.length (lobby_players full_lobby) = 2%nat
  /\ exists p,
       join_room uuid_shape "invalid" lobby_reliable "p-2" "2025-12-02T09:00:00.000Z"
         "room-2" (JoinBody.mk 2 "Cy" 100 None) full_lobby
       = (PlayerJoined p,
          touch_room lobby_reliable "2025-12-02T09:00:00.000Z" "room-2"
            (mkLobby (lobby_rooms full_lobby) (lobby_players full_lobby ++ [p])))
       /\ RoomPlayer.seat_number p = 2.
Proof.
  split; [reflexivity|]. split; [reflexivity|].
  apply (join_does_not_count_the_players uuid_shape "invalid" lobby_reliable "p-2"
           "2025-12-02T09:00:00.000Z" "room-2" (JoinBody.mk 2 "Cy" 100 None)
           full_lobby small_room);
    try reflexivity.
  cbn. lia.
Defined.

(** X16.  The error of the seat lookup is not read: when the lookup fails,
    the handler takes the seat for free, and a request that is otherwise in
    order is given the seat also when a row already holds it, so that the
    seat is then held twice. *)
Theorem failed_seat_lookup_gives_the_seat_again :
  forall (is_uuid : string -> bool) (zod_message : string)
         (faults : LobbyStep -> option string) (new_id now roomId : string)
         (body : JoinBody.t) (l : Lobby) (room : RoomRow.t) (e : string),
    faults SelectSeat = Some e ->
    joinRoomSchema is_uuid body = Some body ->
    room_row faults roomId l = Some room ->
    RoomRow.min_buy_in room <= JoinBody.buyIn body <= RoomRow.max_buy_in room ->
    faults InsertPlayer = None ->
    existsb (has_id new_id) (lobby_players l) = false ->
    let r := join_room is_uuid zod_message faults new_id now roomId body l in
    (exists p, fst r = PlayerJoined p)
    /\ seats_held (snd r) = seats_held l ++ [(roomId, JoinBody.seatNumber body)].
Proof.
  intros is_uuid zod_message faults new_id now roomId body l room e Fs Hs Hr Hb Fi Hx r.
  assert (He : existing faults roomId (JoinBody.seatNumber body) l = None)
    by (unfold existing; rewrite Fs; reflexivity).
  subst r.
  rewrite (join_accepted is_uuid zod_message faults new_id now roomId body l room
             Hs Hr Hb He Fi Hx).
  cbv zeta. cbn [fst snd]. split; [eexists; reflexivity|].
  unfold seats_held. rewrite touch_room_players.
  cbn [lobby_players]. rewrite map_app. reflexivity.
Qed.

(** Seat 0 of the small room is taken and the lookup of the seat fails: the
    seat is given again. *)
Lemma failed_seat_lookup_gives_the_seat_again_witness :
  let r := join_room uuid_shape "invalid" seat_lookup_fails "p-2"
             "2025-12-02T09:00:00.000Z" "room-2"
             (JoinBody.mk 0 "Cy" 100 None) full_lobby in
  (exists p, fst r = PlayerJoined p)
  /\ seats_held (snd r) = [("room-2", 0); ("room-2", 1); ("room-2", 0)].
Proof.
  apply (failed_seat_lookup_gives_the_seat_again uuid_shape "invalid" seat_lookup_fails
           "p-2" "2025-12-02T09:00:00.000Z" "room-2" (JoinBody.mk 0 "Cy" 100 None)
           full_lobby small_room "fetch failed"); try reflexivity.
  cbn. lia.
Defined.

(** ** The deal route *)

Ltac no_call :=
  cbn; split; [intros ? ? []|split; [lia|intros ? E; discriminate E]].

(** X17.  The deal route of the web application calls the deal at most
    once, and only for the user of the session, a room id that passed the
    schema, and a stored room with that id which is owned by that user and
    is not paused, whether or not the client of the store could be built.
    A reply 201 carries the game state that call returned. *)
Theorem only_the_owner_deals (RequestBody : Type)
    (dealHandSchema : RequestBody -> string + string)
    (dealHandLogic : string -> string -> Failure + GameState.t)
    (createClient : string -> string -> bool)
    (json : option RequestBody) (user : option string) (env : RouteEnv)
    (select_fails : bool) (rooms : list RoomRow.t) :
  (forall roomId uid,
      In (roomId, uid)
         (snd (deal_route RequestBody dealHandSchema dealHandLogic createClient json user env
                          select_fails rooms)) ->
      user = Some uid
      /\ (exists body, json = Some body /\ dealHandSchema body = inr roomId)
      /\ exists room,
           In room rooms
           /\ RoomRow.id room = roomId
           /\ RoomRow.owner_auth_user_id room = Some uid
           /\ RoomRow.is_paused room = false)
  /\ (List.length (snd (deal_route RequestBody dealHandSchema dealHandLogic createClient json user env
                              select_fails rooms)) <= 1)%nat
  /\ (forall gs,
         fst (deal_route RequestBody dealHandSchema dealHandLogic createClient json user env
                         select_fails rooms) = Dealt gs ->
         exists roomId uid,
           snd (deal_route RequestBody dealHandSchema dealHandLogic createClient json user env
                           select_fails rooms) = [(roomId, uid)]
           /\ dealHandLogic roomId uid = inr gs).
Proof.
  unfold deal_route.
  destruct json as [body|]; [|no_call].
  destruct (dealHandSchema body) as [issue|roomId] eqn:Hs;
    [no_call|].
  destruct user as [u|]; [|no_call].
  destruct (getServiceClient createClient env);
    [|no_call].
  cbn [negb].
  destruct select_fails;
    [no_call|].
  destruct (find (fun r => RoomRow.id r =s? roomId) rooms) as [room|] eqn:Hf;
    [|no_call].
  apply find_some in Hf. destruct Hf as [Hin Hid].
  apply String.eqb_eq in Hid.
  destruct (RoomRow.owner_auth_user_id room) as [o|] eqn:Ho;
    [|no_call].
  destruct (o =s? u) eqn:Hou;
    [|no_call].
  apply String.eqb_eq in Hou. subst o.
  cbn [negb].
  destruct (RoomRow.is_paused room) eqn:Hp;
    [no_call|].
  assert (Hcall : forall r x, In (r, x) [(roomId, u)] ->
            Some u = Some x
            /\ (exists b, Some body = Some b /\ dealHandSchema b = inr r)
            /\ exists room0, In room0 rooms /\ RoomRow.id room0 = r
                 /\ RoomRow.owner_auth_user_id room0 = Some x
                 /\ RoomRow.is_paused room0 = false).
  { intros r x [E|[]]. inversion E; subst r x.
    split; [reflexivity|]. split; [exists body; split; [reflexivity|exact Hs]|].
    exists room. repeat split; assumption. }
  destruct (dealHandLogic roomId u) as [f|gs] eqn:Hl; cbn [fst snd List.length].
  - split; [exact Hcall|]. split; [lia|].
    intros gs E. destruct f; discriminate E.
  - split; [exact Hcall|]. split; [lia|].
    intros gs' E. inversion E; subst gs'.
    exists roomId, u. split; [reflexivity|exact Hl].
Qed.

(** ** The engine client *)

Lemma strip_app_slash (s : string) :
  strip_trailing_slashes (String.append s "/") = strip_trailing_slashes s.
Proof.
  induction s as [|c r IH]; [reflexivity|].
  cbn [String.append strip_trailing_slashes]. rewrite IH. reflexivity.
Qed.

Lemma append_slashes (s : string) (k : nat) :
  String.append s (slashes (S k)) = String.append (String.append s "/") (slashes k).
Proof.
  induction s as [|c r IH]; [reflexivity|].
  cbn [String.append]. f_equal. exact IH.
Qed.

Lemma strip_app_slashes (k : nat) : forall s,
  strip_trailing_slashes (String.append s (slashes k)) = strip_trailing_slashes s.
Proof.
  induction k as [|k IH]; intros s.
  - cbn [slashes]. f_equal.
    induction s as [|c r IHs]; [reflexivity|cbn [String.append]; f_equal; exact IHs].
  - rewrite append_slashes, IH. apply strip_app_slash.
Qed.

Lemma strip_last (s : string) :
  forall t, strip_trailing_slashes s = String.append t "/" -> False.
Proof.
  induction s as [|c r IH]; intros t E.
  - destruct t; discriminate E.
  - cbn [strip_trailing_slashes] in E.
    destruct (Ascii.eqb c "/" && (strip_trailing_slashes r =s? ""))%bool eqn:Hc.
    + destruct t; discriminate E.
    + destruct t as [|d t].
      * cbn in E. inversion E as [[E1 E2]]. subst c.
        rewrite E2 in Hc. discriminate Hc.
      * cbn [String.append] in E. inversion E as [[E1 E2]].
        exact (IH t E2).
Qed.

(** X18.  The URL the engine client fetches does not depend on slashes at
    the end of the configured base URL, nor on whether the path starts with
    a slash; a base URL that is unset, empty or made of slashes only gives
    the error and no URL; and the base URL used never ends in a slash. *)
Theorem engine_url_is_normalised (e path : string) (k : nat) :
  engineFetch (Some (String.append e (slashes k))) path = engineFetch (Some e) path
  /\ (forall env,
         String.prefix "/" path = false ->
         engineFetch env (String.append "/" path) = engineFetch env path)
  /\ (exists msg,
         engineFetch None path = inl msg
         /\ engineFetch (Some (slashes k)) path = inl msg)
  /\ (forall env base t,
         getEngineUrl env = inr base ->
         base = String.append t "/" -> False).
Proof.
  split; [|split; [|split]].
  - unfold engineFetch, getEngineUrl, baseUrl, or_else.
    rewrite strip_app_slashes. reflexivity.
  - intros env Hp. unfold engineFetch.
    destruct (getEngineUrl env) as [m|base]; [reflexivity|].
    assert (Hs : String.prefix "/" (String.append "/" path) = true).
    { cbn. destruct (ascii_dec "/" "/") as [_|N]; [destruct path; reflexivity|].
      exfalso. apply N. reflexivity. }
    rewrite Hs, Hp. reflexivity.
  - eexists. split; [reflexivity|].
    unfold engineFetch, getEngineUrl, baseUrl, or_else.
    change (slashes k) with (String.append "" (slashes k)).
    rewrite strip_app_slashes. reflexivity.
  - intros env base t Hg Hb. unfold getEngineUrl in Hg.
    destruct (baseUrl env =s? ""); [discriminate Hg|].
    injection Hg as Hg. subst base. unfold baseUrl in Hb.
    exact (strip_last _ _ Hb).
Qed.

(** ** Room membership *)

Lemma insert_member_inv (c : Caller) (m : Member.t) (tbl tbl' : list Member.t) :
  insert_member c m tbl = inr tbl' ->
  (room_members_write_service c || room_members_self_insert c m = true)%bool
  /\ must_have_user_or_session m = true
  /\ already_member m tbl = false
  /\ tbl' = tbl ++ [m].
Proof.
  unfold insert_member. intros H.
  destruct (room_members_write_service c || room_members_self_insert c m)%bool;
    [|discriminate H].
  destruct (must_have_user_or_session m); [|discriminate H].
  destruct (already_member m tbl); [discriminate H|].
  cbn in H. inversion H. repeat split; reflexivity.
Qed.

(** X19.  A caller other than the service role can add to [room_members]
    only a row about themselves: a signed-in caller a row with their own
    user id and no session id, a caller without a user a row with a session
    id and no user id.  The table then holds that row after the rows it
    held. *)
Theorem members_insert_only_themselves (c : Caller) (m : Member.t)
    (tbl tbl' : list Member.t) :
  insert_member c m tbl = inr tbl' ->
  (role c =s? "service_role") = false ->
  tbl' = tbl ++ [m]
  /\ match uid c with
     | Some u => Member.auth_user_id m = Some u /\ Member.anon_session_id m = None
     | None => Member.auth_user_id m = None
               /\ exists s, Member.anon_session_id m = Some s
     end.
Proof.
  intros H Hr. apply insert_member_inv in H.
  destruct H as (Hp & Hc & _ & Ht). split; [exact Ht|].
  unfold room_members_write_service in Hp. rewrite Hr in Hp. cbn [orb] in Hp.
  unfold room_members_self_insert, is_uid in Hp.
  unfold must_have_user_or_session in Hc.
  destruct (uid c) as [u|];
    destruct (Member.auth_user_id m) as [a|];
    destruct (Member.anon_session_id m) as [s|];
    cbn in Hp; try discriminate Hc; try discriminate Hp.
  - rewrite Bool.orb_false_r in Hp. apply String.eqb_eq in Hp. subst a.
    split; reflexivity.
  - split; [reflexivity|exists s; reflexivity].
Qed.

Lemma members_insert_only_themselves_witness :
  exists tbl',
    insert_member (mkCaller "authenticated" (Some "u-1"))
                  (Member.mk "room-1" (Some "u-1") None true) [] = inr tbl'
    /\ tbl' = [] ++ [Member.mk "room-1" (Some "u-1") None true]
    /\ insert_member (mkCaller "authenticated" (Some "u-1"))
                     (Member.mk "room-1" (Some "u-2") None true) []
       = inl "new row violates row-level security policy".
Proof.
  eexists. split; [reflexivity|]. split; [|reflexivity].
  exact (proj1 (members_insert_only_themselves
                  (mkCaller "authenticated" (Some "u-1"))
                  (Member.mk "room-1" (Some "u-1") None true) [] _
                  eq_refl eq_refl)).
Defined.

Lemma existsb_snoc {A : Type} (f : A -> bool) (l : list A) (x : A) :
  existsb f (l ++ [x]) = (existsb f l || f x)%bool.
Proof.
  rewrite existsb_app. cbn. rewrite Bool.orb_false_r. reflexivity.
Qed.

(** X20.  After a caller has added a row for an active membership,
    [is_room_member] is true for them in that room; and for any other
    room it is false after the insert if it was false before. *)
Theorem member_sees_the_room_joined (c : Caller) (m : Member.t)
    (tbl tbl' : list Member.t) :
  insert_member c m tbl = inr tbl' ->
  Member.is_active m = true ->
  is_room_member c tbl' (Member.room_id m) = true
  /\ forall r,
       (r =s? Member.room_id m) = false ->
       is_room_member c tbl r = false ->
       is_room_member c tbl' r = false.
Proof.
  intros H Ha. apply insert_member_inv in H.
  destruct H as (Hp & Hc & _ & Ht). subst tbl'.
  unfold is_room_member, room_members_write_service in *.
  destruct (role c =s? "service_role") eqn:Hr.
  - split; [reflexivity|]. intros r _ E. discriminate E.
  - cbn [orb] in Hp. unfold room_members_self_insert, is_uid in Hp.
    destruct (uid c) as [u|] eqn:Hu.
    + split.
      * rewrite existsb_snoc. apply Bool.orb_true_iff. right.
        rewrite String.eqb_refl, Ha.
        destruct (Member.auth_user_id m) as [a|]; [|discriminate Hp].
        rewrite Bool.orb_false_r in Hp. apply String.eqb_eq in Hp. subst a.
        cbn. rewrite String.eqb_refl. reflexivity.
      * intros r Hne E. rewrite existsb_snoc, E. cbn [orb].
        rewrite String.eqb_sym, Hne. reflexivity.
    + split; [reflexivity|]. intros r _ E. discriminate E.
Qed.

Lemma member_sees_the_room_joined_witness :
  is_room_member (mkCaller "authenticated" (Some "u-1")) [] "room-1" = false
  /\ is_room_member (mkCaller "authenticated" (Some "u-1"))
       [Member.mk "room-1" (Some "u-1") None true] "room-1" = true
  /\ is_room_member (mkCaller "authenticated" (Some "u-1"))
       [Member.mk "room-1" (Some "u-1") None true] "room-2" = false.
Proof.
  split; [reflexivity|].
  pose proof (member_sees_the_room_joined
                (mkCaller "authenticated" (Some "u-1"))
                (Member.mk "room-1" (Some "u-1") None true) [] _
                eq_refl eq_refl) as [H1 H2].
  split; [exact H1|].
  exact (H2 "room-2" eq_refl eq_refl).
Defined.
(** ** The fold-out *)

(** The modelled action processor returns rows of the players it was
    given. *)
Lemma applyAction_rows (ctx : ActionContext) (seat : Z) (a : ActionType)
    (amt : option Z) (u : PartialPlayer.t) :
  In u (updatedPlayers (Logic.applyAction ctx seat a amt)) ->
  exists q, In q (c_players ctx) /\ PartialPlayer.id u = Some (RoomPlayer.id q).
Proof.
  intros Hu.
  destruct (error (Logic.applyAction ctx seat a amt)) as [msg|] eqn:Ee.
  - exfalso. revert Ee Hu. unfold Logic.applyAction, Logic.reject.
    destruct (Logic.street_eqb _ Showdown); [intros _ []|].
    destruct (Logic.current_actor _ _) as [s|]; [|intros _ []].
    destruct (negb (s =? seat)); [intros _ []|].
    destruct (find _ (c_players ctx)) as [p0|]; [|intros _ []].
    destruct (Logic.legal _ _ _ _ _) as [e|m]; [intros _ []|].
    destruct (List.length (filter Logic.in_hand _) =? 1)%nat; [discriminate|].
    destruct (Logic.settle _ _ _ _ _ _ _) as [[g2 players2] adv]. discriminate.
  - destruct (applyAction_accepted ctx seat a amt Ee)
      as (p0 & m & adv & g2 & Hp0 & Hups & _).
    rewrite Hups in Hu.
    assert (Hq : exists q, In q (returned_rows p0 m adv (c_players ctx))
                           /\ u = Logic.to_partial q).
    { destruct Hu as [<- | Hu]; [exists (Logic.act p0 m); split; [left|]; reflexivity|].
      destruct adv; [|destruct Hu].
      apply in_map_iff in Hu as (q & <- & Hq). exists q. split; [right; exact Hq|reflexivity]. }
    destruct Hq as (q & Hq & ->).
    destruct (returned_rows_ids _ _ _ _ _ Hp0 Hq) as (x & Hx & Hid).
    exists x. split; [exact Hx|]. cbn. rewrite Hid. reflexivity.
Qed.

(** The modelled action processor reports the fold-out: when its rows leave
    one player in the hand, the outcome is complete, names winners and
    awards the pot of the updated game state. *)
Lemma applyAction_fold_out (ctx : ActionContext) (seat : Z) (a : ActionType)
    (amt : option Z) :
  let o := Logic.applyAction ctx seat a amt in
  truthy_id (error o) = None ->
  distinct (map RoomPlayer.id (c_players ctx)) = true ->
  List.length (filter (fun q => negb (RoomPlayer.has_folded q))
                 (mergedPlayers (c_players ctx) (updatedPlayers o))) = 1%nat ->
  handCompleted o = true
  /\ autoWinners o <> None
  /\ potAwarded o
     = Some (GameState.pot_size (merge_game_state (c_gameState ctx) (updatedGameState o))).
Proof.
  intros o Ht D Hone.
  assert (Ee : error o = None).
  { destruct (error o) as [msg|] eqn:Ee; [|reflexivity].
    pose proof (applyAction_reason ctx seat a amt msg Ee) as X.
    fold o in X. rewrite Ee in X. rewrite X in Ht. discriminate Ht. }
  destruct (applyAction_accepted ctx seat a amt Ee)
    as (p0 & m & adv & g2 & Hp0 & Hups & Hgs & _ & _ & Hpa & Haw & Hcnt).
  fold o in Hups, Hgs, Hpa, Haw, Hcnt.
  destruct (handCompleted o) eqn:Hc.
  - split; [reflexivity|]. split; [apply Haw; reflexivity|].
    rewrite (Hpa eq_refl), Hgs. reflexivity.
  - exfalso. apply (Hcnt eq_refl). clear Hcnt Hpa Haw.
    rewrite mergedPlayers_overlay in Hone.
    assert (Hm1 : forall t, In t (c_players ctx) ->
              moved (RoomPlayer.id p0) (Logic.m_wager m)
                    (RoomPlayer.has_folded (Logic.act p0 m)) t
                    (overlay (updatedPlayers o) t)).
    { intros t Ht'. apply (overlay_moved (c_players ctx) (c_players ctx) p0 m adv);
        [exact D | exact Hp0 | auto | | | exact Ht'].
      - intros u Hu. rewrite Hups in Hu.
        destruct Hu as [<- | Hu];
          [exists (Logic.act p0 m); split; [left|]; reflexivity|].
        destruct adv; [|destruct Hu].
        apply in_map_iff in Hu as (q & <- & Hq). exists q.
        split; [right; exact Hq|reflexivity].
      - exists (Logic.to_partial (Logic.act p0 m)). rewrite Hups.
        split; [left; reflexivity|reflexivity]. }
    assert (Hm2 : forall t, In t (c_players ctx) ->
              moved (RoomPlayer.id p0) (Logic.m_wager m)
                    (RoomPlayer.has_folded (Logic.act p0 m)) t
                    ((fun x => if RoomPlayer.id x =s? RoomPlayer.id (Logic.act p0 m)
                               then Logic.act p0 m else x) t)).
    { intros t Ht'. apply (replace_moved (c_players ctx) (c_players ctx)); auto. }
    apply (moved_count _ _ _ _ _) in Hm1. apply (moved_count _ _ _ _ _) in Hm2.
    change (filter (fun q => negb (RoomPlayer.has_folded q))) with (filter Logic.in_hand)
      in Hone.
    rewrite Hone in Hm1. unfold Logic.replace_player.
    apply Nat2Z.inj. rewrite Hm2, <- Hm1. reflexivity.
Qed.

(** With an accepted outcome, on a store that does not fail and takes the
    rows: the handler writes the rows and the game state, runs the block of
    the completed hand, and answers. *)
Lemma persist_outcome_run (L : EngineLogic) (rid : string)
    (payload : ActionPayload.t) (g : GameState.t) (secret : Secret.t)
    (players : list RoomPlayer.t) (o : Outcome) (w : World) (T1 : list RoomPlayer.t) :
  truthy_id (error o) = None ->
  (if is_empty (updatedPlayers o)
   then T1 = room_players (store w)
   else repeats (map PartialPlayer.id (deduplicatedPlayers (updatedPlayers o))) = false
        /\ upsert_rows (room_players (store w))
                       (deduplicatedPlayers (updatedPlayers o)) = inr T1) ->
  let w2 :=
    mkWorld
      (update_game_state (GameState.id g) (updatedGameState o)
         (set_room_players T1
            (set_player_actions
               (player_actions (store w) ++ [logged rid g payload o]) (store w))))
      (calls w) in
  persist_outcome reliable rid payload g secret players o w
  = if handCompleted o
    then match finish_hand reliable rid g secret players o w2 with
         | (Val _, w3) => (Sent (Json 200 (BOk None)), w3)
         | (Sent r, w3) => (Sent r, w3)
         | (Thrown e, w3) => (Thrown e, w3)
         end
    else (Sent (Json 200 (BOk (Some (merge_game_state g (updatedGameState o))))), w2).
Proof.
  intros Herr Hup. cbv zeta. unfold persist_outcome. rewrite Herr.
  unfold logged. rewrite Herr.
  unfold bind at 1. unfold write at 1. unfold reliable at 1. cbv beta iota.
  cbn [store calls].
  destruct (is_empty (updatedPlayers o)) eqn:Hne.
  - subst T1.
    unfold bind, write, check, ret, send, reliable. cbv beta iota. cbn [store calls].
    destruct (handCompleted o); [|reflexivity].
    assert (Hd : forall x d,
              set_room_players (room_players d) (set_player_actions x d)
              = set_player_actions x d) by reflexivity.
    rewrite Hd.
    match goal with
    | |- context [finish_hand ?f rid g secret players o ?w2] =>
        destruct (finish_hand f rid g secret players o w2) as [[a|r|e] w3]
    end; reflexivity.
  - destruct Hup as [Hrep Hup].
    unfold bind, write, check, ret, send, upsert_players, reliable.
    cbv beta iota. cbn [store calls room_players set_player_actions].
    rewrite Hrep, Hup. cbv beta iota. cbn [store calls].
    destruct (handCompleted o); [|reflexivity].
    match goal with
    | |- context [finish_hand ?f rid g secret players o ?w2] =>
        destruct (finish_hand f rid g secret players o w2) as [[a|r|e] w3]
    end; reflexivity.
Qed.

Lemma upsert_credit_known (p : RoomPlayer.t) (amt : Z) (d : DB) :
  existsb (has_id (RoomPlayer.id p)) (room_players d) = true ->
  upsert_players [credit_row p amt] d
  = inr (set_room_players
           (map (fun t => if has_id (RoomPlayer.id p) t
                          then merge_player t (credit_row p amt) else t)
                (room_players d)) d).
Proof.
  intros H. unfold upsert_players. cbn [map repeats existsb orb].
  cbn [upsert_rows]. unfold upsert_row. cbn [credit_row PartialPlayer.id].
  rewrite H. reflexivity.
Qed.

Lemma existsb_has_id_map (i : string) (f : RoomPlayer.t -> RoomPlayer.t)
    (l : list RoomPlayer.t) :
  (forall t, RoomPlayer.id (f t) = RoomPlayer.id t) ->
  existsb (has_id i) (map f l) = existsb (has_id i) l.
Proof.
  intros Hf. induction l as [|t l IH]; [reflexivity|].
  cbn [map existsb]. unfold has_id at 1 3. rewrite Hf, IH. reflexivity.
Qed.

Lemma find_seat (l : list RoomPlayer.t) (p : RoomPlayer.t) :
  NoDup (map RoomPlayer.seat_number l) -> In p l ->
  find (fun pl => RoomPlayer.seat_number pl =? RoomPlayer.seat_number p) l = Some p.
Proof.
  induction l as [|q l IH]; intros Hn Hin; [destruct Hin|].
  cbn [map] in Hn. inversion Hn as [|? ? Hq Hl]; subst. cbn [find].
  destruct Hin as [-> | Hin]; [rewrite Z.eqb_refl; reflexivity|].
  destruct (RoomPlayer.seat_number q =? RoomPlayer.seat_number p) eqn:E.
  - exfalso. apply Hq. apply Z.eqb_eq in E. rewrite E. apply in_map. exact Hin.
  - apply IH; assumption.
Qed.

(** The only payout among seats that are all [s], each seat once, with a
    total that is not zero: the whole total for [s]. *)
Lemma sole_payout (s pot : Z) (pays : list Payout) :
  paid pays = pot -> pot <> 0 -> NoDup (map seat pays) ->
  (forall x, In x (map seat pays) -> x = s) ->
  pays = [mkPayout s pot].
Proof.
  intros Ht Hp Hn Hs.
  destruct pays as [|[s1 a1] rest]; [cbn in Ht; congruence|].
  assert (s1 = s) by (apply Hs; left; reflexivity). subst s1.
  destruct rest as [|[s2 a2] rest].
  - cbn in Ht. f_equal. f_equal. lia.
  - exfalso. assert (s2 = s) by (apply Hs; right; left; reflexivity). subst s2.
    cbn [map seat] in Hn. inversion Hn as [|? ? Hx _]. apply Hx. left. reflexivity.
Qed.

(** The block of the completed hand when the payout names one seat: the
    evaluation and the payout calculator are called, the seat is credited,
    the result is recorded and the game state deleted. *)
Lemma finish_hand_paid (L : EngineLogic) (rid : string) (g : GameState.t)
    (secret : Secret.t) (players : list RoomPlayer.t) (o : Outcome) (w2 : World)
    (p : RoomPlayer.t) (pot : Z) (w1 ws2 : list Z) :
  let merged := mergedPlayers players (updatedPlayers o) in
  let hands :=
    activeHands merged
      (filter (fun h => PlayerHand.game_state_id h =s? GameState.id g)
              (player_hands (store w2))) in
  autoWinners o <> None ->
  potAwarded o = Some pot ->
  pot <> 0 ->
  determineDoubleBoardWinners hands (Secret.full_board1 secret)
    (Secret.full_board2 secret) = inr (w1, ws2) ->
  endOfHandPayout w1 ws2 pot = inr [mkPayout (RoomPlayer.seat_number p) pot] ->
  find (fun pl => RoomPlayer.seat_number pl =? RoomPlayer.seat_number p) merged = Some p ->
  existsb (has_id (RoomPlayer.id p)) (room_players (store w2)) = true ->
  exists T2,
    upsert_players [credit_row p pot] (store w2) = inr (set_room_players T2 (store w2))
    /\ finish_hand reliable rid g secret players o w2
       = (Val tt,
          mkWorld
            (delete_game_state (GameState.id g)
               (set_hand_results
                  (hand_results (store w2)
                   ++ [HandResult.mk rid (GameState.hand_number g) pot
                         (match GameState.board_state g with
                          | Some b => board1 b
                          | None => None
                          end)
                         (match GameState.board_state g with
                          | Some b => board2 b
                          | None => None
                          end)
                         (allWinners w1 ws2)
                         (or_else (PartialGameState.action_history (updatedGameState o))
                                  (GameState.action_history g))])
                  (set_room_players T2 (store w2))))
            (calls w2 ++ [CallWinners hands (Secret.full_board1 secret)
                            (Secret.full_board2 secret);
                          CallPayout w1 ws2 pot])).
Proof.
  intros merged hands Haw Hpa Hpot Hd Hp Hfind Hex.
  eexists. split; [apply upsert_credit_known; exact Hex|].
  unfold finish_hand.
  destruct (autoWinners o) as [aw|]; [|congruence].
  rewrite Hpa. cbn [truthy_array truthy_number or_else andb].
  assert (Hz : negb (pot =? 0) = true) by (apply negb_true_iff, Z.eqb_neq; exact Hpot).
  rewrite Hz.
  unfold settle_hand, bind, select, query, record_call, reliable.
  cbv beta iota. cbn [store calls].
  fold merged. fold hands. rewrite Hd. cbv beta iota. cbn [store calls].
  rewrite Hp. cbn [is_empty creditUpdates seat amount]. rewrite Hfind.
  cbn [is_empty]. unfold write. cbv beta iota. cbn [store calls].
  rewrite (upsert_credit_known p pot (store w2) Hex).
  unfold check, ret. cbv beta iota. cbn [store calls].
  rewrite <- app_assoc. reflexivity.
Qed.

(** C3 (as amended).  The fold-out.  The engine's functions are the
    handler's imports; what is asked of them is that the action processor
    reports a hand complete, with winners and the pot of the updated game
    state to award, when its rows leave one player of those it was given in
    the hand, and returns rows of these players; that the winners of the
    evaluation are among the hands it was given; and that a payout sums to
    the pot, names a seat once, and names winners only.

    Then, on a store that does not fail, when an accepted action leaves
    all players of the room but one, [p], folded and there is a pot: the
    handler calls the winner determination, on hands of [p] only, and the
    payout calculator on its result; when both return, the payout is the
    whole pot for [p]; the request is answered with success and no game
    state, the game state is deleted with this request, and [p]'s row ends
    with its stack plus the whole pot. *)
Theorem fold_out_is_settled_by_evaluation :
  forall (L : EngineLogic) (is_uuid : string -> bool)
         (zod_message : list (string * JSON) -> string)
         (roomId : string) (body : ActionBody.t) (payload : ActionPayload.t)
         (w : World) (room : Room.t) (g : GameState.t) (secret : Secret.t)
         (p : RoomPlayer.t) (w1 w2 : list Z) (payouts : list Payout),
    (forall ctx seat a amt,
        truthy_id (error (applyAction ctx seat a amt)) = None ->
        distinct (map RoomPlayer.id (c_players ctx)) = true ->
        List.length (filter (fun q => negb (RoomPlayer.has_folded q))
                       (mergedPlayers (c_players ctx)
                          (updatedPlayers (applyAction ctx seat a amt)))) = 1%nat ->
        handCompleted (applyAction ctx seat a amt) = true
        /\ autoWinners (applyAction ctx seat a amt) <> None
        /\ potAwarded (applyAction ctx seat a amt)
           = Some (GameState.pot_size
                     (merge_game_state (c_gameState ctx)
                        (updatedGameState (applyAction ctx seat a amt))))) ->
    (forall ctx seat a amt u,
        In u (updatedPlayers (applyAction ctx seat a amt)) ->
        exists q, In q (c_players ctx) /\ PartialPlayer.id u = Some (RoomPlayer.id q)) ->
    (forall hands b1 b2 x1 x2,
        determineDoubleBoardWinners hands b1 b2 = inr (x1, x2) ->
        forall s, In s (x1 ++ x2) -> In s (map seatNumber hands)) ->
    (forall x1 x2 pot pays,
        endOfHandPayout x1 x2 pot = inr pays ->
        paid pays = pot /\ NoDup (map seat pays)
        /\ forall s, In s (map seat pays) -> In s (x1 ++ x2)) ->
    actionSchema is_uuid body = Some payload ->
    found roomId (store w) = Some (room, g, secret) ->
    distinct (map RoomPlayer.id (players_of roomId (store w))) = true ->
    let o := outcome_for roomId payload (store w) room g secret in
    let merged := mergedPlayers (players_of roomId (store w)) (updatedPlayers o) in
    let hands :=
      activeHands merged
        (filter (fun h => PlayerHand.game_state_id h =s? GameState.id g)
                (player_hands (store w))) in
    let pot := GameState.pot_size (merge_game_state g (updatedGameState o)) in
    truthy_id (error o) = None ->
    filter (fun q => negb (RoomPlayer.has_folded q)) merged = [p] ->
    NoDup (map RoomPlayer.seat_number merged) ->
    pot <> 0 ->
    determineDoubleBoardWinners hands (Secret.full_board1 secret)
      (Secret.full_board2 secret) = inr (w1, w2) ->
    endOfHandPayout w1 w2 pot = inr payouts ->
    let r := respond (post_action is_uuid zod_message reliable roomId body) w in
    fst r = Json 200 (BOk None)
    /\ existsb (fun h => GameState.id h =s? GameState.id g)
               (game_states (store (snd r))) = false
    /\ payouts = [mkPayout (RoomPlayer.seat_number p) pot]
    /\ stack_of (RoomPlayer.id p) (store (snd r)) = Some (RoomPlayer.chip_stack p + pot)
    /\ (forall h, In h hands -> seatNumber h = RoomPlayer.seat_number p)
    /\ calls (snd r)
       = calls w ++ [CallApply (ActionPayload.seatNumber payload)
                       (ActionPayload.actionType payload)
                       (ActionPayload.amount payload);
                     CallWinners hands (Secret.full_board1 secret)
                       (Secret.full_board2 secret);
                     CallPayout w1 w2 pot].
Proof.
  intros L is_uuid zod_message roomId body payload w room g secret p w1 w2 payouts
         HE3 HE4 HE1 HE2 E Hf D o merged hands pot Herr Hsole Hseats Hpot Hd Hp r.
  set (players := players_of roomId (store w)) in *.
  (* what the action processor reports *)
  assert (Hone : List.length (filter (fun q => negb (RoomPlayer.has_folded q)) merged)
                 = 1%nat) by (rewrite Hsole; reflexivity).
  destruct (HE3 (mkCtx room players g (Secret.full_board1 secret)
                       (Secret.full_board2 secret))
                (ActionPayload.seatNumber payload) (ActionPayload.actionType payload)
                (ActionPayload.amount payload) Herr D Hone) as (Hc & Haw & Hpa).
  change (handCompleted o = true) in Hc. change (autoWinners o <> None) in Haw.
  change (potAwarded o = Some pot) in Hpa.
  (* the hands evaluated are those of [p] *)
  assert (Hp_in : In p merged).
  { assert (X : In p (filter (fun q => negb (RoomPlayer.has_folded q)) merged))
      by (rewrite Hsole; left; reflexivity).
    apply filter_In in X as [X _]. exact X. }
  assert (Hhands : forall h, In h hands -> seatNumber h = RoomPlayer.seat_number p).
  { intros h Hh. apply activeHands_seats in Hh as (q & Hq & Hfold & <-).
    assert (X : In q (filter (fun q => negb (RoomPlayer.has_folded q)) merged))
      by (apply filter_In; split; [exact Hq|rewrite Hfold; reflexivity]).
    rewrite Hsole in X. destruct X as [<- | []]. reflexivity. }
  (* the payout is the whole pot for [p] *)
  assert (Hpay : payouts = [mkPayout (RoomPlayer.seat_number p) pot]).
  { destruct (HE2 _ _ _ _ Hp) as (Htot & Hnd & Hin).
    apply sole_payout; [exact Htot | exact Hpot | exact Hnd |].
    intros x Hx. apply Hin, (HE1 _ _ _ _ _ Hd), in_map_iff in Hx as (h & <- & Hh).
    apply Hhands. exact Hh. }
  subst payouts.
  (* the rows are taken *)
  set (us := updatedPlayers o) in *.
  set (T1 := if is_empty us then room_players (store w)
             else map (overlay (deduplicatedPlayers us)) (room_players (store w))).
  assert (Hup : if is_empty us
                then T1 = room_players (store w)
                else repeats (map PartialPlayer.id (deduplicatedPlayers us)) = false
                     /\ upsert_rows (room_players (store w)) (deduplicatedPlayers us)
                        = inr T1).
  { unfold T1. destruct (is_empty us); [reflexivity|].
    destruct (deduplicatedPlayers_spec us) as (Hrep & Hin & _).
    split; [exact Hrep|]. apply upsert_rows_known; [exact Hrep|].
    intros u Hu. destruct (Hin u Hu) as [Hu' _].
    destruct (HE4 (mkCtx room players g (Secret.full_board1 secret)
                         (Secret.full_board2 secret))
                  (ActionPayload.seatNumber payload) (ActionPayload.actionType payload)
                  (ActionPayload.amount payload) u Hu') as (q & Hq & Hid).
    exists (RoomPlayer.id q). split; [exact Hid|].
    apply existsb_exists. exists q. split; [|apply eqs_refl].
    apply players_of_in in Hq as [Hq _]. exact Hq. }
  assert (Hex : existsb (has_id (RoomPlayer.id p)) T1 = true).
  { unfold merged in Hp_in. rewrite mergedPlayers_overlay in Hp_in.
    apply in_map_iff in Hp_in as (q & <- & Hq). rewrite overlay_keeps_id.
    assert (X : existsb (has_id (RoomPlayer.id q)) (room_players (store w)) = true).
    { apply existsb_exists. exists q. split; [|apply eqs_refl].
      apply players_of_in in Hq as [Hq _]. exact Hq. }
    unfold T1. destruct (is_empty us); [exact X|].
    rewrite existsb_has_id_map; [exact X|apply overlay_keeps_id]. }
  pose proof (find_seat merged p Hseats Hp_in) as Hfind.
  (* the run *)
  subst r.
  rewrite (post_action_found L is_uuid zod_message reliable _ _ _ _ _ _ _ E
             eq_refl eq_refl eq_refl eq_refl Hf).
  fold players. fold o.
  unfold respond, try_catch.
  rewrite (persist_outcome_run L roomId payload g secret players o
             (mkWorld (store w)
                (calls w ++ [CallApply (ActionPayload.seatNumber payload)
                               (ActionPayload.actionType payload)
                               (ActionPayload.amount payload)]))
             T1 Herr Hup).
  rewrite Hc. cbn [store calls].
  match goal with
  | |- context [finish_hand reliable roomId g secret players o ?wx] =>
      destruct (finish_hand_paid L roomId g secret players o wx p pot w1 w2 Haw Hpa Hpot)
        as (T2 & HT2 & Hrun)
  end.
  - cbn [store player_hands update_game_state set_game_states set_room_players
         set_player_actions]. exact Hd.
  - exact Hp.
  - exact Hfind.
  - cbn [store room_players update_game_state set_game_states set_room_players].
    exact Hex.
  - rewrite Hrun. cbn [fst snd store calls].
    split; [reflexivity|]. split.
    { cbn [game_states delete_game_state set_game_state_secrets set_game_states].
      match goal with |- ?e = false => destruct e eqn:X; [|reflexivity] end.
      apply existsb_exists in X as (h & Hin & Hx). apply filter_In in Hin as [_ Hin].
      rewrite Hx in Hin. discriminate Hin. }
    split; [reflexivity|]. split.
    { unfold stack_of.
      cbn [room_players delete_game_state set_game_state_secrets set_game_states
           set_hand_results set_room_players].
      apply (upsert_single_credit p pot _ T2 HT2). }
    split; [exact Hhands|].
    cbn [store player_hands update_game_state set_game_states set_room_players
         set_player_actions]. rewrite <- app_assoc. reflexivity.
Qed.

(** C3, the claim as stated fails.  On the sample table Bob folds before the
    flop and Alice is the only seat left: the hand completes and Alice is
    credited the pot of 3, but the handler has invoked the winner
    determination (on Alice's hand and the two secret boards) and the payout
    calculator to get there. *)
Lemma fold_out_invokes_the_evaluation :
  let r := respond (post_action uuid_shape sample_message reliable "room-1"
                      (request 1 "fold" None None)) (dealt_world 100 100) in
  fst r = Json 200 (BOk None)
  /\ game_states (store (snd r)) = []
  /\ map (fun p => (RoomPlayer.seat_number p, RoomPlayer.has_folded p,
                    RoomPlayer.chip_stack p)) (room_players (store (snd r)))
     = [(0, false, 101); (1, true, 99)]
  /\ calls (snd r)
     = [CallDeal; CallApply 1 AFold None;
        CallWinners [mkActiveHand 0 ["9S"; "JS"; "KS"; "2H"]]
          ["3H"; "4H"; "5H"; "6H"; "7H"] ["8H"; "9H"; "TH"; "JH"; "QH"];
        CallPayout [0] [0] 3].
Proof.
  vm_compute. repeat split; reflexivity.
Qed.

(** The same fold-out through the theorem, with the modelled functions for
    the engine: the request is answered with success, the game state is
    deleted and Alice's row ends with her stack of 98 plus the pot of 3. *)
Lemma fold_out_is_settled_by_evaluation_witness :
  let r := respond (post_action uuid_shape sample_message reliable "room-1"
                      (request 1 "fold" None None)) (dealt_world 100 100) in
  fst r = Json 200 (BOk None)
  /\ existsb (fun h => GameState.id h =s? "state-1") (game_states (store (snd r))) = false
  /\ stack_of "player-a" (store (snd r)) = Some 101.
Proof.
  cbv zeta.
  let f := eval vm_compute in (found "room-1" (store (dealt_world 100 100))) in
  match f with
  | Some (?room, ?g, ?secret) =>
      pose proof (fold_out_is_settled_by_evaluation sample_logic uuid_shape
                    sample_message "room-1" (request 1 "fold" None None)
                    (ActionPayload.mk 1 AFold None None None)
                    (dealt_world 100 100) room g secret
                    (RoomPlayer.mk "player-a" "room-1" 0 (Some alice_uid) "Alice"
                       100 98 2 false false false)
                    [0] [0] [mkPayout 0 3]
                    (fun ctx seat a amt => applyAction_fold_out ctx seat a amt)
                    applyAction_rows
                    (determine_spec sample_strength)
                    (fun x1 x2 pot pays => endOfHandPayout_spec 0 x1 x2 pot pays)) as T
  end.
  cbv zeta in T.
  repeat match type of T with
         | ?A -> _ =>
             let H := fresh in
             assert (H : A)
               by first [ vm_compute; reflexivity
                        | vm_compute; discriminate
                        | vm_compute;
                          constructor; [intros [X|[]]; discriminate X|];
                          constructor; [intros []|constructor] ];
             specialize (T H); clear H
         end.
  destruct T as (A & B & _ & C & _).
  split; [exact A|]. split; [exact B|]. exact C.
Defined.
